(** * One-way reinforced-concrete slab designer (ACI 318-14): the engine of app.py

    A shallow embedding of [MaterialProperties], [Loads], [BarProperties] and
    [OneWaySlab] of app.py.  Python numbers are kept as Python has them: an
    [int] is an unbounded integer, a [float] is an IEEE-754 binary64 value
    (Rocq's primitive floats), and every operator follows CPython's rules for
    mixing the two, including the exceptions it raises. *)

From Stdlib Require Import ZArith Lia List String Bool Uint63 Floats.
Import ListNotations.

Set Warnings "-inexact-float".

Open Scope string_scope.
Open Scope list_scope.
Open Scope Z_scope.

(** ** Python exceptions and results *)

Inductive exn : Type :=
| ZeroDivisionError
| OverflowError
| ValueError (msg : string)
| KeyError (key : string)
| TypeError.

Inductive result (A : Type) : Type :=
| Ok (a : A)
| Raise (e : exn).
Arguments Ok {A} a.
Arguments Raise {A} e.

Definition rbind {A B} (r : result A) (k : A -> result B) : result B :=
  match r with
  | Ok a => k a
  | Raise e => Raise e
  end.

Declare Scope res_scope.
Delimit Scope res_scope with res.
Notation "x <- c ;; k" := (rbind c (fun x => k))
  (at level 61, c at next level, right associativity) : res_scope.
Notation "' p <- c ;; k" := (rbind c (fun x => let 'p := x in k))
  (at level 61, p pattern, c at next level, right associativity) : res_scope.

(** ** Python numbers *)

Inductive num : Type :=
| Int (z : Z)
| Float (f : float).

Module Py.

(** The signed integer mantissa of a finite binary64 value. *)
Definition signed (s : bool) (m : positive) : Z :=
  if s then Zneg m else Zpos m.

(** [float(z)]: the nearest binary64 value, ties to even. *)
Definition Z2SF (z : Z) : spec_float :=
  binary_normalize prec emax z 0 false.

Definition is_inf_SF (x : spec_float) : bool :=
  match x with S754_infinity _ => true | _ => false end.

Definition is_zero_SF (x : spec_float) : bool :=
  match x with S754_zero _ => true | _ => false end.

Definition is_finite_SF (x : spec_float) : bool :=
  match x with S754_zero _ | S754_finite _ _ _ => true | _ => false end.

(** [float(z)] raises OverflowError when [z] is too large. *)
Definition int_to_float (z : Z) : result float :=
  let x := Z2SF z in
  if is_inf_SF x then Raise OverflowError else Ok (SF2Prim x).

Definition to_float (a : num) : result float :=
  match a with
  | Int z => int_to_float z
  | Float f => Ok f
  end.

(** Exact comparison of an integer with a binary64 value, as CPython's
    float_richcompare does it ([None]: unordered, a NaN is involved). *)
Definition Z_SF_compare (z : Z) (x : spec_float) : option comparison :=
  match x with
  | S754_nan => None
  | S754_infinity s => Some (if s then Gt else Lt)
  | S754_zero _ => Some (z ?= 0)
  | S754_finite s m e =>
      Some (if 0 <=? e then z ?= signed s m * 2 ^ e
            else z * 2 ^ (- e) ?= signed s m)
  end.

Definition compare (a b : num) : option comparison :=
  match a, b with
  | Int x, Int y => Some (x ?= y)
  | Int x, Float g => Z_SF_compare x (Prim2SF g)
  | Float f, Int y => option_map CompOpp (Z_SF_compare y (Prim2SF f))
  | Float f, Float g => SFcompare (Prim2SF f) (Prim2SF g)
  end.

Definition lt (a b : num) : bool :=
  match compare a b with Some Lt => true | _ => false end.
Definition le (a b : num) : bool :=
  match compare a b with Some Lt | Some Eq => true | _ => false end.
Definition gt (a b : num) : bool :=
  match compare a b with Some Gt => true | _ => false end.
Definition eq (a b : num) : bool :=
  match compare a b with Some Eq => true | _ => false end.

(** Truth value of a number: [if x:] is false exactly for a zero. *)
Definition truthy (a : num) : bool :=
  match a with
  | Int z => negb (z =? 0)
  | Float f => negb (is_zero_SF (Prim2SF f))
  end.

(** [max(a, b)] keeps [a] unless [b > a]; [min(a, b)] keeps [a] unless
    [b < a] (builtin min/max with two positional arguments). *)
Definition max (a b : num) : num := if gt b a then b else a.
Definition min (a b : num) : num := if lt b a then b else a.

(** [+], [-], [*]: exact on two ints, binary64 otherwise; a float
    operation never raises, only the conversion of an int can. *)
Definition arith (fz : Z -> Z -> Z) (ff : float -> float -> float)
    (a b : num) : result num :=
  match a, b with
  | Int x, Int y => Ok (Int (fz x y))
  | _, _ =>
      (fa <- to_float a ;;
       fb <- to_float b ;;
       Ok (Float (ff fa fb)))%res
  end.

Definition add := arith Z.add PrimFloat.add.
Definition sub := arith Z.sub PrimFloat.sub.
Definition mul := arith Z.mul PrimFloat.mul.

(** [x / y] on two ints: the correctly rounded quotient (long_true_divide). *)
Definition int_truediv (x y : Z) : result float :=
  if y =? 0 then Raise ZeroDivisionError
  else if x =? 0 then Ok (if y <? 0 then neg_zero else zero)
  else
    let q := SFdiv prec emax
               (S754_finite (x <? 0) (Z.to_pos (Z.abs x)) 0)
               (S754_finite (y <? 0) (Z.to_pos (Z.abs y)) 0) in
    if is_inf_SF q then Raise OverflowError else Ok (SF2Prim q).

(** [a / b]: true division, ZeroDivisionError on a zero divisor. *)
Definition truediv (a b : num) : result num :=
  match a, b with
  | Int x, Int y => (q <- int_truediv x y ;; Ok (Float q))%res
  | _, _ =>
      (fa <- to_float a ;;
       fb <- to_float b ;;
       if is_zero_SF (Prim2SF fb) then Raise ZeroDivisionError
       else Ok (Float (fa / fb)%float))%res
  end.

(** [a ** 2]: exact on an int; on a float the C library's [pow(a, 2.0)],
    taken as the correctly rounded square, with OverflowError when a finite
    base overflows (float_pow). *)
Definition pow2 (a : num) : result num :=
  match a with
  | Int z => Ok (Int (z * z))
  | Float f =>
      let r := (f * f)%float in
      if is_finite_SF (Prim2SF f) && is_inf_SF (Prim2SF r)
      then Raise OverflowError else Ok (Float r)
  end.

(** [math.sqrt]. *)
Definition sqrt (a : num) : result num :=
  (f <- to_float a ;;
   match Prim2SF f with
   | S754_finite true _ _ | S754_infinity true =>
       Raise (ValueError "math domain error")
   | _ => Ok (Float (PrimFloat.sqrt f))
   end)%res.

(** The integer part below a binary64 value. *)
Definition SF_floor (x : spec_float) : result Z :=
  match x with
  | S754_nan => Raise (ValueError "cannot convert float NaN to integer")
  | S754_infinity _ => Raise OverflowError
  | S754_zero _ => Ok 0
  | S754_finite s m e =>
      Ok (if 0 <=? e then signed s m * 2 ^ e else signed s m / 2 ^ (- e))
  end.

Definition SF_ceil (x : spec_float) : result Z :=
  match x with
  | S754_nan => Raise (ValueError "cannot convert float NaN to integer")
  | S754_infinity _ => Raise OverflowError
  | S754_zero _ => Ok 0
  | S754_finite s m e =>
      Ok (if 0 <=? e then signed s m * 2 ^ e
          else - ((- signed s m) / 2 ^ (- e)))
  end.

(** [math.floor] and [math.ceil]: always a Python int. *)
Definition floor (a : num) : result Z :=
  match a with
  | Int z => Ok z
  | Float f => SF_floor (Prim2SF f)
  end.

Definition ceil (a : num) : result Z :=
  match a with
  | Int z => Ok z
  | Float f => SF_ceil (Prim2SF f)
  end.

(** An attribute that is still [None] cannot enter arithmetic. *)
Definition bound (o : option num) : result num :=
  match o with
  | Some a => Ok a
  | None => Raise TypeError
  end.

End Py.

(** ** Data model *)

(** [MaterialProperties] and [Loads] (dataclasses; the annotations are not
    enforced, so a field holds any Python number). *)
Record MaterialProperties : Type := {
  fc_prime : num;
  fy : num;
  concrete_density : num;
  cover : num
}.

Record Loads : Type := {
  superimposed_dead : num;
  live_load : num
}.

(** Python dicts keep insertion order: association lists. *)
Definition dict (V : Type) : Type := list (string * V).

Fixpoint dict_get {V} (d : dict V) (k : string) : option V :=
  match d with
  | [] => None
  | (k', v) :: d' => if String.eqb k k' then Some v else dict_get d' k
  end.

(** [d[k] = v]: replaces the value of an existing key in place, appends a
    new key at the end. *)
Fixpoint dict_set {V} (d : dict V) (k : string) (v : V) : dict V :=
  match d with
  | [] => [(k, v)]
  | (k', v') :: d' =>
      if String.eqb k k' then (k', v) :: d' else (k', v') :: dict_set d' k v
  end.

Definition dict_keys {V} (d : dict V) : list string := map fst d.

(** [d[k]] raises KeyError on a missing key. *)
Definition dict_item {V} (d : dict V) (k : string) : result V :=
  match dict_get d k with
  | Some v => Ok v
  | None => Raise (KeyError k)
  end.

(** [BarProperties.BAR_DATA]: name -> (diameter, area). *)
Definition BAR_DATA : dict (num * num) :=
  [ ("#10", (Float 9.5, Int 71));
    ("#13", (Float 12.7, Int 129));
    ("#16", (Float 15.9, Int 199));
    ("#19", (Float 19.1, Int 284));
    ("#22", (Float 22.2, Int 387));
    ("#25", (Float 25.4, Int 510));
    ("#29", (Float 28.7, Int 645));
    ("#32", (Float 32.3, Int 819));
    ("#36", (Float 35.8, Int 1006)) ].

Record BarProperties : Type := {
  bar_size : string;
  diameter : num;
  area : num
}.

(** [BarProperties.__init__(bar_size)]. *)
Definition BarProperties_init (name : string) : result BarProperties :=
  match dict_get BAR_DATA name with
  | None => Raise (ValueError ("Bar size " ++ name ++ " not recognized")%string)
  | Some (dia, ar) => Ok {| bar_size := name; diameter := dia; area := ar |}
  end.

(** [OneWaySlab.THICKNESS_COEFFICIENTS]. *)
Definition THICKNESS_COEFFICIENTS : dict num :=
  [ ("simply_supported", Int 20);
    ("one_end_continuous", Int 24);
    ("both_ends_continuous", Int 28);
    ("cantilever", Int 10) ].

(** [OneWaySlab.MOMENT_COEFFICIENT_VALUES]: the quotients [1/24], ... are
    evaluated once, when the class body runs. *)
Definition MOMENT_COEFFICIENT_VALUES : dict num :=
  [ ("exterior_negative", Float (1 / 24));
    ("exterior_positive", Float (1 / 14));
    ("interior_negative_first", Float (1 / 10));
    ("interior_positive", Float (1 / 16));
    ("interior_negative", Float (1 / 11));
    ("simple_span", Float (1 / 8));
    ("cantilever", Float (1 / 2)) ].

(** The advisory appended by calculate_initial_thickness: the f-string
    "Warning: User-specified thickness ({user_thickness}mm) is less than
    calculated minimum ({h_rounded}mm)", kept as its two interpolated values. *)
Inductive note : Type :=
| WarningBelowMinimum (user_thickness : num) (h_rounded : Z).

(** The dict returned by calculate_required_steel. *)
Record steel : Type := {
  st_location : string;
  st_Mu : num;
  st_Rn : num;
  st_rho : num;
  st_As_req : num;
  st_As_min : num;
  st_As_final : num;
  st_As_prov : num;
  st_spacing_req : num;
  st_spacing_max : num;
  st_spacing_final : Z;
  st_bar_size : string;
  st_bar_area : num
}.

(** The dict returned by calculate_shrinkage_steel. *)
Record shrink : Type := {
  sh_As_req : num;
  sh_As_prov : num;
  sh_spacing_req : num;
  sh_spacing_max : num;
  sh_spacing_final : Z;
  sh_bar_size : string;
  sh_bar_area : num
}.

(** The dict returned by check_shear. *)
Record shear_check : Type := {
  Vu : num;
  Vc : num;
  phiVc : num;
  utilization : num;
  status : string
}.

Definition PASS : string := "✓ PASS - No shear reinforcement required".
Definition FAIL : string := "✗ FAIL - Increase slab thickness".

(** Python list objects live in a store and are named by their address:
    [self.notes] is created once by [__init__] and only ever appended to. *)
Definition addr : Type := nat.
Definition store : Type := list (list note).

Definition store_read (m : store) (a : addr) : list note := nth a m [].

Fixpoint store_append (m : store) (a : addr) (x : note) : store :=
  match m, a with
  | [], _ => []
  | l :: m', O => (l ++ [x]) :: m'
  | l :: m', S a' => l :: store_append m' a' x
  end.

(** A [OneWaySlab] object.  The attributes the caller assigns before
    design() (clear_span ... shrinkage_bar) are taken as present; [user_h]
    and the accumulators start as [None] or empty, as [__init__] leaves them. *)
Record OneWaySlab : Type := {
  clear_span : num;
  material : MaterialProperties;
  loads : Loads;
  support_condition : string;
  main_bar : BarProperties;
  shrinkage_bar : BarProperties;
  user_h : option num;
  h : option num;
  d : option num;
  wu : option num;
  moments : dict num;
  reinforcement : dict steel;
  shrinkage : option shrink;
  shear : option shear_check;
  notes : addr
}.

Definition set_h (s : OneWaySlab) (v : num) : OneWaySlab :=
  {| clear_span := clear_span s; material := material s; loads := loads s;
     support_condition := support_condition s; main_bar := main_bar s;
     shrinkage_bar := shrinkage_bar s; user_h := user_h s;
     h := Some v; d := d s; wu := wu s; moments := moments s;
     reinforcement := reinforcement s; shrinkage := shrinkage s;
     shear := shear s; notes := notes s |}.

Definition set_d (s : OneWaySlab) (v : num) : OneWaySlab :=
  {| clear_span := clear_span s; material := material s; loads := loads s;
     support_condition := support_condition s; main_bar := main_bar s;
     shrinkage_bar := shrinkage_bar s; user_h := user_h s;
     h := h s; d := Some v; wu := wu s; moments := moments s;
     reinforcement := reinforcement s; shrinkage := shrinkage s;
     shear := shear s; notes := notes s |}.

Definition set_wu (s : OneWaySlab) (v : num) : OneWaySlab :=
  {| clear_span := clear_span s; material := material s; loads := loads s;
     support_condition := support_condition s; main_bar := main_bar s;
     shrinkage_bar := shrinkage_bar s; user_h := user_h s;
     h := h s; d := d s; wu := Some v; moments := moments s;
     reinforcement := reinforcement s; shrinkage := shrinkage s;
     shear := shear s; notes := notes s |}.

Definition set_moments (s : OneWaySlab) (v : dict num) : OneWaySlab :=
  {| clear_span := clear_span s; material := material s; loads := loads s;
     support_condition := support_condition s; main_bar := main_bar s;
     shrinkage_bar := shrinkage_bar s; user_h := user_h s;
     h := h s; d := d s; wu := wu s; moments := v;
     reinforcement := reinforcement s; shrinkage := shrinkage s;
     shear := shear s; notes := notes s |}.

Definition set_reinforcement (s : OneWaySlab) (v : dict steel) : OneWaySlab :=
  {| clear_span := clear_span s; material := material s; loads := loads s;
     support_condition := support_condition s; main_bar := main_bar s;
     shrinkage_bar := shrinkage_bar s; user_h := user_h s;
     h := h s; d := d s; wu := wu s; moments := moments s;
     reinforcement := v; shrinkage := shrinkage s;
     shear := shear s; notes := notes s |}.

Definition set_shrinkage (s : OneWaySlab) (v : shrink) : OneWaySlab :=
  {| clear_span := clear_span s; material := material s; loads := loads s;
     support_condition := support_condition s; main_bar := main_bar s;
     shrinkage_bar := shrinkage_bar s; user_h := user_h s;
     h := h s; d := d s; wu := wu s; moments := moments s;
     reinforcement := reinforcement s; shrinkage := Some v;
     shear := shear s; notes := notes s |}.

Definition set_shear (s : OneWaySlab) (v : shear_check) : OneWaySlab :=
  {| clear_span := clear_span s; material := material s; loads := loads s;
     support_condition := support_condition s; main_bar := main_bar s;
     shrinkage_bar := shrinkage_bar s; user_h := user_h s;
     h := h s; d := d s; wu := wu s; moments := moments s;
     reinforcement := reinforcement s; shrinkage := shrinkage s;
     shear := Some v; notes := notes s |}.

(** The interpreter state a method runs in: the object and the store. *)
Record world : Type := {
  self : OneWaySlab;
  mem : store
}.

(** A method body: it may raise, and it leaves the object as mutated so far
    either way. *)
Definition M (A : Type) : Type := world -> result A * world.

Definition ret {A} (a : A) : M A := fun w => (Ok a, w).

Definition bind {A B} (c : M A) (k : A -> M B) : M B :=
  fun w =>
    match c w with
    | (Ok a, w') => k a w'
    | (Raise e, w') => (Raise e, w')
    end.

(** A pure computation that may raise. *)
Definition lift {A} (r : result A) : M A := fun w => (r, w).

Definition attr {A} (f : OneWaySlab -> A) : M A := fun w => (Ok (f (self w)), w).

(** Reading an attribute that is still [None] into arithmetic: TypeError. *)
Definition need {A} (f : OneWaySlab -> option A) : M A :=
  fun w =>
    match f (self w) with
    | Some a => (Ok a, w)
    | None => (Raise TypeError, w)
    end.

Definition modify (f : OneWaySlab -> OneWaySlab) : M unit :=
  fun w => (Ok tt, {| self := f (self w); mem := mem w |}).

(** [self.notes.append(x)]. *)
Definition notes_append (x : note) : M unit :=
  fun w =>
    (Ok tt, {| self := self w; mem := store_append (mem w) (notes (self w)) x |}).

Declare Scope m_scope.
Delimit Scope m_scope with M.
Notation "x <- c ;; k" := (bind c (fun x => k))
  (at level 61, c at next level, right associativity) : m_scope.
Notation "' p <- c ;; k" := (bind c (fun x => let 'p := x in k))
  (at level 61, p pattern, c at next level, right associativity) : m_scope.
Notation "c ;;; k" := (bind c (fun _ => k))
  (at level 61, right associativity) : m_scope.
Open Scope m_scope.

(** ** The methods of [OneWaySlab] *)

(** Step 1: [calculate_initial_thickness(clear_span, support_condition,
    user_thickness=None)]. *)
Definition h_rounded_of (span : num) (support : string) : result Z :=
  (coefficient <- dict_item THICKNESS_COEFFICIENTS support ;;
   h_calc <- Py.truediv span coefficient ;;
   q <- Py.truediv h_calc (Int 10) ;;
   c <- Py.ceil q ;;
   Ok (c * 10))%res.

(** [if user_thickness:] holds for a value other than [None] and zero. *)
Definition supplied (user_thickness : option num) : option num :=
  match user_thickness with
  | Some u => if Py.truthy u then Some u else None
  | None => None
  end.

Definition calculate_initial_thickness
    (span : num) (support : string) (user_thickness : option num) : M num :=
  h_rounded <- lift (h_rounded_of span support) ;;
  match supplied user_thickness with
  | Some u =>
      if Py.lt u (Int h_rounded) then
        notes_append (WarningBelowMinimum u h_rounded) ;;;
        modify (fun s => set_h s u) ;;;
        ret u
      else
        modify (fun s => set_h s u) ;;;
        ret u
  | None =>
      modify (fun s => set_h s (Int h_rounded)) ;;;
      ret (Int h_rounded)
  end.

(** Step 2: [calculate_factored_load()], returning
    [(wu, total_dead, self_weight)]. *)
Definition calculate_factored_load : M (num * num * num) :=
  hh <- need h ;;
  mat <- attr material ;;
  lds <- attr loads ;;
  t <- lift (Py.truediv hh (Int 1000)) ;;
  self_weight <- lift (Py.mul t (concrete_density mat)) ;;
  total_dead <- lift (Py.add (superimposed_dead lds) self_weight) ;;
  a <- lift (Py.mul (Float 1.2) total_dead) ;;
  b <- lift (Py.mul (Float 1.6) (live_load lds)) ;;
  w <- lift (Py.add a b) ;;
  modify (fun s => set_wu s w) ;;;
  ret (w, total_dead, self_weight).

(** Step 3: [calculate_moments()]. *)
Definition span_squared_of (span : num) : result num :=
  (L_m <- Py.truediv span (Int 1000) ;;
   Py.pow2 L_m)%res.

Definition base_moment_of (w span : num) : result num :=
  (sq <- span_squared_of span ;;
   Py.mul w sq)%res.

Definition coeff_times (key : string) (base_moment : num) : result num :=
  (coeff <- dict_item MOMENT_COEFFICIENT_VALUES key ;;
   Py.mul coeff base_moment)%res.

Definition moments_of (support : string) (base_moment : num)
  : result (option (dict num)) :=
  (if String.eqb support "simply_supported" then
     m <- coeff_times "simple_span" base_moment ;;
     Ok (Some [("Positive Moment (Midspan)", m)])
   else if String.eqb support "one_end_continuous" then
     m1 <- coeff_times "exterior_negative" base_moment ;;
     m2 <- coeff_times "exterior_positive" base_moment ;;
     m3 <- coeff_times "interior_negative_first" base_moment ;;
     Ok (Some [("Negative Moment (Exterior Support)", m1);
               ("Positive Moment (Midspan)", m2);
               ("Negative Moment (First Interior Support)", m3)])
   else if String.eqb support "both_ends_continuous" then
     m1 <- coeff_times "interior_negative" base_moment ;;
     m2 <- coeff_times "interior_positive" base_moment ;;
     Ok (Some [("Negative Moment (Supports)", m1);
               ("Positive Moment (Midspan)", m2)])
   else if String.eqb support "cantilever" then
     m <- coeff_times "cantilever" base_moment ;;
     Ok (Some [("Negative Moment (Support)", m)])
   else Ok None)%res.

Definition calculate_moments : M (dict num) :=
  span <- attr clear_span ;;
  sq <- lift (span_squared_of span) ;;
  w <- need wu ;;
  base_moment <- lift (Py.mul w sq) ;;
  support <- attr support_condition ;;
  ms <- lift (moments_of support base_moment) ;;
  match ms with
  | Some m => modify (fun s => set_moments s m)
  | None => ret tt
  end ;;;
  attr moments.

(** Step 4: [calculate_effective_depth()]. *)
Definition effective_depth_of (hh cov dia : num) : result num :=
  (a <- Py.sub hh cov ;;
   b <- Py.truediv dia (Int 2) ;;
   Py.sub a b)%res.

Definition calculate_effective_depth : M num :=
  hh <- need h ;;
  mat <- attr material ;;
  bar <- attr main_bar ;;
  dd <- lift (effective_depth_of hh (cover mat) (diameter bar)) ;;
  modify (fun s => set_d s dd) ;;;
  ret dd.

(** The minimum flexural steel and the shrinkage steel of ACI 318. *)
Definition As_min_of (fy_ Ag : num) : result num :=
  (if Py.lt fy_ (Int 420) then Py.mul (Float 0.0020) Ag
   else
     k <- Py.mul (Float 0.0018) (Int 420) ;;
     r <- Py.truediv k fy_ ;;
     a <- Py.mul r Ag ;;
     b <- Py.mul (Float 0.0014) Ag ;;
     Ok (Py.max a b))%res.

Definition As_sh_req_of (fy_ Ag : num) : result num :=
  (if Py.lt fy_ (Int 420) then Py.mul (Float 0.0020) Ag
   else
     k <- Py.mul (Float 0.0018) (Int 420) ;;
     r <- Py.truediv k fy_ ;;
     Py.mul r Ag)%res.

(** Steps 5 and 6: [calculate_required_steel(Mu, location)]; [None] when
    the moment is not positive. *)
Definition required_steel_of
    (hopt : option num) (dd : num) (mat : MaterialProperties)
    (bar : BarProperties)
    (Mu : num) (location : string) : result steel :=
  (Mu_nmm <- Py.mul Mu (Float 1e6) ;;
   let phi := Float 0.9 in
   let b := Int 1000 in
   phib <- Py.mul phi b ;;
   d2 <- Py.pow2 dd ;;
   den <- Py.mul phib d2 ;;
   Rn <- Py.truediv Mu_nmm den ;;
   fc85 <- Py.mul (Float 0.85) (fc_prime mat) ;;
   m <- Py.truediv (fy mat) fc85 ;;
   m2 <- Py.mul (Int 2) m ;;
   m2Rn <- Py.mul m2 Rn ;;
   t <- Py.truediv m2Rn (fy mat) ;;
   term <- Py.sub (Int 1) t ;;
   rho <- (if Py.lt term (Int 0) then Ok (Float 0.02)
           else
             inv <- Py.truediv (Int 1) m ;;
             sq <- Py.sqrt term ;;
             one_minus <- Py.sub (Int 1) sq ;;
             Py.mul inv one_minus) ;;
   rhob <- Py.mul rho b ;;
   As_req <- Py.mul rhob dd ;;
   hh <- Py.bound hopt ;;
   Ag <- Py.mul b hh ;;
   As_min <- As_min_of (fy mat) Ag ;;
   let As_final := Py.max As_req As_min in
   num_ <- Py.mul (Int 1000) (area bar) ;;
   spacing_req <- Py.truediv num_ As_final ;;
   h3 <- Py.mul (Int 3) hh ;;
   let spacing_max_by_code := Py.min h3 (Int 450) in
   let spacing_max := Py.min spacing_req spacing_max_by_code in
   q <- Py.truediv spacing_max (Int 25) ;;
   fl <- Py.floor q ;;
   let spacing_final := Z.max 75 (fl * 25) in
   num2 <- Py.mul (Int 1000) (area bar) ;;
   As_provided <- Py.truediv num2 (Int spacing_final) ;;
   Ok {| st_location := location; st_Mu := Mu; st_Rn := Rn; st_rho := rho;
         st_As_req := As_req; st_As_min := As_min; st_As_final := As_final;
         st_As_prov := As_provided; st_spacing_req := spacing_req;
         st_spacing_max := spacing_max; st_spacing_final := spacing_final;
         st_bar_size := bar_size bar; st_bar_area := area bar |})%res.

Definition calculate_required_steel (Mu : num) (location : string)
  : M (option steel) :=
  dopt <- attr d ;;
  match dopt with
  | None => _ <- calculate_effective_depth ;; ret tt
  | Some _ => ret tt
  end ;;;
  if Py.le Mu (Int 0) then ret None
  else
    dd <- need d ;;
    hopt <- attr h ;;
    mat <- attr material ;;
    bar <- attr main_bar ;;
    r <- lift (required_steel_of hopt dd mat bar Mu location) ;;
    ret (Some r).

(** Step 7: [calculate_shrinkage_steel()]. *)
Definition shrinkage_steel_of
    (hh : num) (mat : MaterialProperties) (bar : BarProperties)
  : result shrink :=
  (Ag <- Py.mul (Int 1000) hh ;;
   As_sh_req <- As_sh_req_of (fy mat) Ag ;;
   num_ <- Py.mul (Int 1000) (area bar) ;;
   spacing_req <- Py.truediv num_ As_sh_req ;;
   h5 <- Py.mul (Int 5) hh ;;
   let spacing_max_by_code := Py.min h5 (Int 450) in
   let spacing_max := Py.min spacing_req spacing_max_by_code in
   q <- Py.truediv spacing_max (Int 25) ;;
   fl <- Py.floor q ;;
   let spacing_final := fl * 25 in
   num2 <- Py.mul (Int 1000) (area bar) ;;
   As_provided <- Py.truediv num2 (Int spacing_final) ;;
   Ok {| sh_As_req := As_sh_req; sh_As_prov := As_provided;
         sh_spacing_req := spacing_req; sh_spacing_max := spacing_max;
         sh_spacing_final := spacing_final;
         sh_bar_size := bar_size bar; sh_bar_area := area bar |})%res.

Definition calculate_shrinkage_steel : M shrink :=
  hh <- need h ;;
  mat <- attr material ;;
  bar <- attr shrinkage_bar ;;
  lift (shrinkage_steel_of hh mat bar).

(** Step 8: [check_shear()]. *)
Definition Vu_of (support : string) (w L_n d_m : num) : result num :=
  (if String.eqb support "simply_supported" then
     half <- Py.truediv L_n (Int 2) ;;
     arm <- Py.sub half d_m ;;
     Py.mul w arm
   else if String.eqb support "one_end_continuous" then
     half <- Py.truediv L_n (Int 2) ;;
     arm <- Py.sub half d_m ;;
     Vu_simple <- Py.mul w arm ;;
     l575 <- Py.mul (Float 0.575) L_n ;;
     arm2 <- Py.sub l575 d_m ;;
     Vu_continuous <- Py.mul w arm2 ;;
     Ok (Py.max Vu_simple Vu_continuous)
   else if String.eqb support "both_ends_continuous" then
     half <- Py.truediv L_n (Int 2) ;;
     arm <- Py.sub half d_m ;;
     Py.mul w arm
   else if String.eqb support "cantilever" then
     Py.mul w L_n
   else
     half <- Py.truediv L_n (Int 2) ;;
     Py.mul w half)%res.

Definition phiVc_of (fc dd : num) : result (num * num) :=
  (let lamda := Float 1.0 in
   sqrt_fc <- Py.sqrt fc ;;
   a <- Py.mul (Float 0.17) lamda ;;
   b <- Py.mul a sqrt_fc ;;
   c <- Py.mul b (Int 1000) ;;
   e <- Py.mul c dd ;;
   Vc_ <- Py.truediv e (Int 1000) ;;
   phiVc_ <- Py.mul (Float 0.75) Vc_ ;;
   Ok (Vc_, phiVc_))%res.

Definition utilization_of (Vu_ phiVc_ : num) : result num :=
  (if Py.gt phiVc_ (Int 0) then
     r <- Py.truediv Vu_ phiVc_ ;;
     Py.mul r (Int 100)
   else Ok (Int 0))%res.

Definition shear_of (support : string) (span : num) (wopt dopt : option num)
    (fc : num) : result shear_check :=
  (L_n <- Py.truediv span (Int 1000) ;;
   dd <- Py.bound dopt ;;
   d_m <- Py.truediv dd (Int 1000) ;;
   w <- Py.bound wopt ;;
   Vu0 <- Vu_of support w L_n d_m ;;
   let Vu_ := Py.max Vu0 (Int 0) in
   '(Vc_, phiVc_) <- phiVc_of fc dd ;;
   utilization_ <- utilization_of Vu_ phiVc_ ;;
   let status_ := if Py.le Vu_ phiVc_ then PASS else FAIL in
   Ok {| Vu := Vu_; Vc := Vc_; phiVc := phiVc_;
         utilization := utilization_; status := status_ |})%res.

Definition check_shear : M shear_check :=
  span <- attr clear_span ;;
  dopt <- attr d ;;
  support <- attr support_condition ;;
  wopt <- attr wu ;;
  mat <- attr material ;;
  lift (shear_of support span wopt dopt (fc_prime mat)).

(** The dict returned by [design()].  Its ['notes'] entry is the list
    object [self.notes] itself, not a copy: the record holds its address. *)
Record DesignResult : Type := {
  thickness : num;
  effective_depth : num;
  factored_load : num;
  self_weight : num;
  total_dead : num;
  r_moments : dict num;
  r_reinforcement : dict steel;
  r_shrinkage : shrink;
  r_shear : shear_check;
  r_notes : addr
}.

(** The loop of design(): one flexural design per moment, in dict order. *)
Fixpoint design_loop (items : dict num) : M unit :=
  match items with
  | [] => ret tt
  | (location, Mu) :: rest =>
      r <- calculate_required_steel Mu location ;;
      match r with
      | Some st =>
          modify (fun s => set_reinforcement s
                             (dict_set (reinforcement s) location st))
      | None => ret tt
      end ;;;
      design_loop rest
  end.

(** [design()]. *)
Definition design : M DesignResult :=
  span <- attr clear_span ;;
  support <- attr support_condition ;;
  uh <- attr user_h ;;
  _ <- calculate_initial_thickness span support uh ;;
  '(w, td, sw) <- calculate_factored_load ;;
  _ <- calculate_moments ;;
  _ <- calculate_effective_depth ;;
  modify (fun s => set_reinforcement s []) ;;;
  items <- attr moments ;;
  design_loop items ;;;
  shr <- calculate_shrinkage_steel ;;
  modify (fun s => set_shrinkage s shr) ;;;
  shc <- check_shear ;;
  modify (fun s => set_shear s shc) ;;;
  hh <- need h ;;
  dd <- need d ;;
  ww <- need wu ;;
  ms <- attr moments ;;
  rf <- attr reinforcement ;;
  nt <- attr notes ;;
  ret {| thickness := hh; effective_depth := dd; factored_load := ww;
         self_weight := sw; total_dead := td; r_moments := ms;
         r_reinforcement := rf; r_shrinkage := shr; r_shear := shc;
         r_notes := nt |}.

(** [OneWaySlab()] followed by the caller's attribute assignments: a fresh
    object whose notes list is a new, empty list object. *)
Definition new_slab
    (span : num) (mat : MaterialProperties) (lds : Loads) (support : string)
    (mbar sbar : BarProperties) (uh : option num) (m : store) : world :=
  {| self := {| clear_span := span; material := mat; loads := lds;
                support_condition := support; main_bar := mbar;
                shrinkage_bar := sbar; user_h := uh;
                h := None; d := None; wu := None; moments := [];
                reinforcement := []; shrinkage := None; shear := None;
                notes := List.length m |};
     mem := m ++ [[]] |}.

(** What a caller reads from [result['notes']] in a given store. *)
Definition read_notes (r : DesignResult) (w : world) : list note :=
  store_read (mem w) (r_notes r).

(** ** Scenario inputs *)

Definition bar13 : BarProperties :=
  {| bar_size := "#13"; diameter := Float 12.7; area := Int 129 |}.
Definition bar10 : BarProperties :=
  {| bar_size := "#10"; diameter := Float 9.5; area := Int 71 |}.
Definition bar25 : BarProperties :=
  {| bar_size := "#25"; diameter := Float 25.4; area := Int 510 |}.

Definition material_A : MaterialProperties :=
  {| fc_prime := Float 28; fy := Int 420;
     concrete_density := Float 25; cover := Int 20 |}.
Definition loads_A : Loads :=
  {| superimposed_dead := Float 1.5; live_load := Float 3.0 |}.

(** Scenario A: 3500 mm simply supported span, no override. *)
Definition scenario_A : world :=
  new_slab (Int 3500) material_A loads_A "simply_supported"
           bar13 bar13 None [].

(** Scenario D: thickness 50 mm (override), cover 40 mm, main bar #25. *)
Definition scenario_D : world :=
  new_slab (Int 3500)
    {| fc_prime := Float 28; fy := Int 420;
       concrete_density := Float 25; cover := Int 40 |}
    loads_A "simply_supported" bar25 bar13 (Some (Int 50)) [].

(** An override below the minimum: 150 mm against 180 mm. *)
Definition scenario_C : world :=
  new_slab (Int 3500) material_A loads_A "simply_supported"
    bar13 bar13 (Some (Int 150)) [].

(** A 1500 mm thick slab (override), fy = 400 MPa, shrinkage bar #10. *)
Definition scenario_thick : world :=
  new_slab (Int 3500)
    {| fc_prime := Float 28; fy := Int 400;
       concrete_density := Float 25; cover := Int 20 |}
    loads_A "simply_supported" bar13 bar10 (Some (Int 1500)) [].

(** A 6000 mm simply supported span under 5 and 20 kN/m2 with #10 main bars. *)
Definition scenario_heavy : world :=
  new_slab (Int 6000) material_A
    {| superimposed_dead := Float 5; live_load := Float 20 |}
    "simply_supported" bar10 bar13 None [].

(** A 1000 mm thick slab (override) with fy = 400 MPa and #10 shrinkage
    bars: the shrinkage spacing is 25 mm, below the 75 mm floor of the
    flexural sizer. *)
Definition scenario_deep : world :=
  new_slab (Int 3500)
    {| fc_prime := Float 28; fy := Int 400;
       concrete_density := Float 25; cover := Int 20 |}
    loads_A "simply_supported" bar13 bar10 (Some (Int 1000)) [].

(** ** The specification's formulas *)

(** The four support conditions. *)
Definition support_conditions : list string :=
  [ "simply_supported"; "one_end_continuous";
    "both_ends_continuous"; "cantilever" ].



(** The load combiner as section 4.2 of the specification words it. *)
Definition load_combination (hh density dead live : num)
  : result (num * num * num) :=
  (per_metre <- Py.truediv hh (Int 1000) ;;
   self_weight_ <- Py.mul per_metre density ;;
   total_dead_ <- Py.add dead self_weight_ ;;
   factored_dead <- Py.mul (Float 1.2) total_dead_ ;;
   factored_live <- Py.mul (Float 1.6) live ;;
   wu_ <- Py.add factored_dead factored_live ;;
   Ok (wu_, total_dead_, self_weight_))%res.





(** The result is a value or an exception other than ZeroDivisionError. *)
Definition no_zero_division {A} (r : result A) : Prop :=
  r <> Raise ZeroDivisionError.

(** The factored shear demand as section 4.6 of the specification words it. *)
Definition Vu_at_d (w L_n d_m : num) : result num :=
  (half <- Py.truediv L_n (Int 2) ;;
   arm <- Py.sub half d_m ;;
   Py.mul w arm)%res.

(** The demand at the first interior support, with the 1.15 factor. *)
Definition Vu_continuous_at_d (w L_n d_m : num) : result num :=
  (l <- Py.mul (Float 0.575) L_n ;;
   arm <- Py.sub l d_m ;;
   Py.mul w arm)%res.

(** The demand before the clamp at zero, by support condition. *)
Definition shear_demand (support : string) (w L_n d_m : num) : result num :=
  if String.eqb support "cantilever" then Py.mul w L_n
  else if String.eqb support "one_end_continuous" then
    (a <- Vu_at_d w L_n d_m ;;
     b <- Vu_continuous_at_d w L_n d_m ;;
     Ok (Py.max a b))%res
  else Vu_at_d w L_n d_m.

(** Two states of one object with the same design inputs. *)
Definition same_inputs (s s' : OneWaySlab) : Prop :=
  clear_span s' = clear_span s /\ material s' = material s /\
  loads s' = loads s /\ support_condition s' = support_condition s /\
  main_bar s' = main_bar s /\ shrinkage_bar s' = shrinkage_bar s /\
  user_h s' = user_h s.

(** ** Magnitudes and signs of binary64 values *)

(** The mantissa and exponent of 25.0. *)
Definition m25 : positive := 7036874417766400.

(** A number that is zero or positive and below 2^53: an int in [0, 450] or
    a float that is a zero or a positive finite value with a non-positive
    exponent.  Every number between 0 and 450 is one. *)
Definition small_nonneg (x : num) : bool :=
  match x with
  | Int z => (0 <=? z) && (z <=? 450)
  | Float f =>
      match Prim2SF f with
      | S754_zero _ => true
      | S754_finite false _ e => e <=? 0
      | _ => false
      end
  end.

(** [math.floor(x / 25)], as both sizers compute it. *)
Definition floor_div25 (x : num) : result Z :=
  (q <- Py.truediv x (Int 25) ;; Py.floor q)%res.

(** [math.floor(z / 25) * 25 <= z] at an integer [z]. *)
Definition floor_div25_below (z : Z) : bool :=
  match floor_div25 (Int z) with
  | Ok k => k * 25 <=? z
  | Raise _ => false
  end.

Module Sign.

(** Not negative: a zero, or a finite or infinite value with the sign bit
    clear. *)
Definition nonneg (v : spec_float) : bool :=
  match v with
  | S754_zero _ => true
  | S754_infinity s | S754_finite s _ _ => negb s
  | S754_nan => false
  end.

(** Not negative, or a NaN. *)
Definition nn (v : spec_float) : bool :=
  match v with
  | S754_nan => true
  | _ => nonneg v
  end.

End Sign.

(** An int that is not negative, or a float that is not negative or is a
    NaN. *)
Definition nnum (a : num) : bool :=
  match a with
  | Int z => 0 <=? z
  | Float f => Sign.nn (Prim2SF f)
  end.

(** A number that is not an infinity or a NaN. *)
Definition finite_num (a : num) : bool :=
  match a with
  | Int _ => true
  | Float f => Py.is_finite_SF (Prim2SF f)
  end.

(** The value of a finite number in units of 2^-1074, the smallest
    binary64 step: an integer for every int and every finite float. *)
Definition scaled (a : num) : Z :=
  match a with
  | Int z => z * 2 ^ 1074
  | Float f =>
      match Prim2SF f with
      | S754_finite s m e => Py.signed s m * 2 ^ (e + 1074)
      | _ => 0
      end
  end.

(** Every exception a computation can raise satisfies [P]. *)
Definition raises_only {A} (P : exn -> Prop) (r : result A) : Prop :=
  forall e, r = Raise e -> P e.

(** The loop of design() on the reinforcement dict alone (app.py 285-288,
    with the guard [Mu <= 0] of calculate_required_steel): the flexural
    design of each moment in turn, stored under its location; the dict as
    built so far is kept when a design raises. *)
Fixpoint reinforcement_of
    (hopt : option num) (dd : num) (mat : MaterialProperties)
    (bar : BarProperties) (items : dict num) (acc : dict steel)
  : result unit * dict steel :=
  match items with
  | [] => (Ok tt, acc)
  | (location, Mu) :: rest =>
      if Py.le Mu (Int 0) then reinforcement_of hopt dd mat bar rest acc
      else
        match required_steel_of hopt dd mat bar Mu location with
        | Ok st =>
            reinforcement_of hopt dd mat bar rest (dict_set acc location st)
        | Raise e => (Raise e, acc)
        end
  end.

(** The exceptions of the arithmetic itself: a zero divisor, an int too
    large for a float (or a float power out of range), and [math.floor] or
    [math.ceil] of a NaN. *)
Definition arithmetic_error (e : exn) : Prop :=
  e = ZeroDivisionError \/ e = OverflowError \/
  e = ValueError "cannot convert float NaN to integer".

(** A state reached from [s] by assignments to the computed attributes. *)
Inductive assigned (s : OneWaySlab) : OneWaySlab -> Prop :=
| assigned_refl : assigned s s
| assigned_h s' v : assigned s s' -> assigned s (set_h s' v)
| assigned_d s' v : assigned s s' -> assigned s (set_d s' v)
| assigned_wu s' v : assigned s s' -> assigned s (set_wu s' v)
| assigned_moments s' v : assigned s s' -> assigned s (set_moments s' v)
| assigned_reinforcement s' v :
    assigned s s' -> assigned s (set_reinforcement s' v)
| assigned_shrinkage s' v : assigned s s' -> assigned s (set_shrinkage s' v)
| assigned_shear s' v : assigned s s' -> assigned s (set_shear s' v).

(** Scenario A with f'c = -28 MPa. *)
Definition scenario_negative_fc : world :=
  new_slab (Int 3500)
    {| fc_prime := Float (-28); fy := Int 420;
       concrete_density := Float 25; cover := Int 20 |}
    loads_A "simply_supported" bar13 bar13 None [].

(** ** The caller in main() *)

(** [support_options] of main(): the labels of the select box and the
    support condition each stands for. *)
Definition support_options : dict string :=
  [ ("Simply Supported", "simply_supported");
    ("One End Continuous", "one_end_continuous");
    ("Both Ends Continuous", "both_ends_continuous");
    ("Cantilever", "cantilever") ].

(** The body of the [try] block that the Calculate button runs (app.py
    815-835): a new object, its inputs, [if user_thickness:] deciding
    whether [user_h] is set, then design().  An exception leaves the block
    (the caller reports it); the object is local to the block. *)
Definition main_calculate
    (clear_span_ fc fy_ density cover_ dead_load live_load_ : num)
    (support_choice main_bar_ shrinkage_bar_ : string)
    (user_thickness : option num) (m : store)
  : result (DesignResult * world) :=
  (support <- dict_item support_options support_choice ;;
   mbar <- BarProperties_init main_bar_ ;;
   sbar <- BarProperties_init shrinkage_bar_ ;;
   match design (new_slab clear_span_
                   {| fc_prime := fc; fy := fy_;
                      concrete_density := density; cover := cover_ |}
                   {| superimposed_dead := dead_load;
                      live_load := live_load_ |}
                   support mbar sbar (supplied user_thickness) m) with
   | (Ok r, w') => Ok (r, w')
   | (Raise e, _) => Raise e
   end)%res.

(** [needle in hay] on strings. *)
Fixpoint contains (needle hay : string) : bool :=
  String.prefix needle hay ||
  match hay with
  | EmptyString => false
  | String _ rest => contains needle rest
  end.

(** The badge of the shear tab (app.py 957-962). *)
Definition badge_class (status_ : string) : string :=
  if contains "PASS" status_ then "success-badge" else "danger-badge".

(** The caption under the utilization gauge (app.py 986-993). *)
Definition utilization_caption (u : num) : string :=
  if Py.lt u (Int 50) then "✅ Safe - Low Utilization"
  else if Py.lt u (Int 80) then "⚠️ Adequate - Moderate Utilization"
  else if Py.le u (Int 100) then "⚡ Critical - Near Limit"
  else "❌ Failed - Redesign Needed".

(** ** Values and intervals in units of 2^-1074 *)

(** The value of a binary64 datum in units of 2^-1074 (0 for an infinity
    or a NaN); [scaled (Float f)] is [SF_scaled (Prim2SF f)]. *)
Definition SF_scaled (x : spec_float) : Z :=
  match x with
  | S754_finite s m e => Py.signed s m * 2 ^ (e + 1074)
  | _ => 0
  end.

(** ** Reasoning about method bodies *)

Lemma rbind_Ok {A B} (r : result A) (k : A -> result B) (b : B) :
  rbind r k = Ok b -> exists a, r = Ok a /\ k a = Ok b.
Proof.
  destruct r as [a|e]; simpl; intros H; [eauto | discriminate].
Qed.

Lemma bind_Ok {A B} (c : M A) (k : A -> M B) (w w' : world) (b : B) :
  bind c k w = (Ok b, w') ->
  exists a w1, c w = (Ok a, w1) /\ k a w1 = (Ok b, w').
Proof.
  unfold bind. destruct (c w) as [[a|e] w1]; intros H.
  - eauto.
  - inversion H.
Qed.

Lemma lift_Ok {A} (r : result A) (w w' : world) (a : A) :
  lift r w = (Ok a, w') -> r = Ok a /\ w' = w.
Proof. unfold lift. intros H. inversion H. auto. Qed.

Lemma need_Ok {A} (f : OneWaySlab -> option A) (w w' : world) (a : A) :
  need f w = (Ok a, w') -> f (self w) = Some a /\ w' = w.
Proof.
  unfold need. destruct (f (self w)); intros H; inversion H; auto.
Qed.

Lemma attr_Ok {A} (f : OneWaySlab -> A) (w w' : world) (a : A) :
  attr f w = (Ok a, w') -> a = f (self w) /\ w' = w.
Proof. unfold attr. intros H. inversion H. auto. Qed.

Lemma ret_Ok {A} (x a : A) (w w' : world) :
  ret x w = (Ok a, w') -> a = x /\ w' = w.
Proof. unfold ret. intros H. inversion H. auto. Qed.

Lemma modify_Ok (f : OneWaySlab -> OneWaySlab) (w w' : world) (u : unit) :
  modify f w = (Ok u, w') -> w' = {| self := f (self w); mem := mem w |}.
Proof. unfold modify. intros H. inversion H. auto. Qed.

Lemma notes_append_Ok (x : note) (w w' : world) (u : unit) :
  notes_append x w = (Ok u, w') ->
  w' = {| self := self w;
          mem := store_append (mem w) (notes (self w)) x |}.
Proof. unfold notes_append. intros H. inversion H. auto. Qed.

(** One step of symbolic execution of a method that returned. *)
Ltac step :=
  match goal with
  | H : bind _ _ _ = (Ok _, _) |- _ =>
      let a := fresh "a" in
      let w1 := fresh "w" in
      let H1 := fresh "H" in
      let H2 := fresh "H" in
      apply bind_Ok in H; destruct H as (a & w1 & H1 & H2)
  | H : rbind _ _ = Ok _ |- _ =>
      let a := fresh "a" in
      let H1 := fresh "H" in
      let H2 := fresh "H" in
      apply rbind_Ok in H; destruct H as (a & H1 & H2)
  | H : lift _ _ = (Ok _, _) |- _ =>
      apply lift_Ok in H; destruct H as [H ?]; subst
  | H : need _ _ = (Ok _, _) |- _ =>
      apply need_Ok in H; destruct H as [H ?]; subst
  | H : attr _ _ = (Ok _, _) |- _ =>
      apply attr_Ok in H; destruct H as [? ?]; subst
  | H : ret _ _ = (Ok _, _) |- _ =>
      apply ret_Ok in H; destruct H as [? ?]; subst
  | H : modify _ _ = (Ok _, _) |- _ =>
      apply modify_Ok in H; subst
  | H : notes_append _ _ = (Ok _, _) |- _ =>
      apply notes_append_Ok in H; subst
  | H : Ok _ = Ok _ |- _ => inversion H; subst; clear H
  | H : (_, _) = (_, _) |- _ => inversion H; subst; clear H
  end.

(** ** The moment coefficients are the quotients the class body computes *)

Lemma moment_coefficients_are_quotients :
  Py.truediv (Int 1) (Int 24) = Ok (Float (1 / 24)) /\
  Py.truediv (Int 1) (Int 14) = Ok (Float (1 / 14)) /\
  Py.truediv (Int 1) (Int 10) = Ok (Float (1 / 10)) /\
  Py.truediv (Int 1) (Int 16) = Ok (Float (1 / 16)) /\
  Py.truediv (Int 1) (Int 11) = Ok (Float (1 / 11)) /\
  Py.truediv (Int 1) (Int 8) = Ok (Float (1 / 8)) /\
  Py.truediv (Int 1) (Int 2) = Ok (Float (1 / 2)).
Proof. repeat split; vm_compute; reflexivity. Qed.

(** ** Moment solver *)






(** ** Load combiner *)

Lemma calculate_factored_load_eq (w : world) (hh : num) :
  h (self w) = Some hh ->
  calculate_factored_load w =
    match load_combination hh (concrete_density (material (self w)))
            (superimposed_dead (loads (self w)))
            (live_load (loads (self w))) with
    | Ok (wu_, td, sw) =>
        (Ok (wu_, td, sw), {| self := set_wu (self w) wu_; mem := mem w |})
    | Raise e => (Raise e, w)
    end.
Proof.
  intros Hh.
  unfold calculate_factored_load, load_combination, bind, attr, lift, need,
    modify, ret.
  cbv beta iota. rewrite Hh. cbv beta iota.
  repeat match goal with
         | |- context [rbind ?r _] => destruct r; simpl; try reflexivity
         | |- context [match ?r with Ok _ => _ | Raise _ => _ end] =>
             destruct r; simpl; try reflexivity
         end.
Qed.

(** C6. calculate_factored_load computes self-weight = (thickness/1000) *
    density, total dead = superimposed dead + self-weight and wu = 1.2 *
    total_dead + 1.6 * live_load, and stores wu; on Scenario A design()
    gives thickness 180, self-weight 4.5, wu 12.0 and the single moment
    "Positive Moment (Midspan)" = 18.375. *)
Theorem load_combiner_and_scenario_A :
  (forall (w : world) (hh : num),
     h (self w) = Some hh ->
     fst (calculate_factored_load w) =
       load_combination hh (concrete_density (material (self w)))
         (superimposed_dead (loads (self w)))
         (live_load (loads (self w))) /\
     (forall wu_ td sw,
        fst (calculate_factored_load w) = Ok (wu_, td, sw) ->
        wu (self (snd (calculate_factored_load w))) = Some wu_)) /\
  (exists r, fst (design scenario_A) = Ok r /\
     thickness r = Int 180 /\
     self_weight r = Float 4.5 /\
     total_dead r = Float 6 /\
     factored_load r = Float 12 /\
     r_moments r = [("Positive Moment (Midspan)", Float 18.375)]).
Proof.
  split.
  - intros w hh Hh. rewrite (calculate_factored_load_eq w hh Hh).
    destruct (load_combination _ _ _ _) as [[[wu_ td] sw]|e]; simpl.
    + split; [reflexivity|]. intros ? ? ? H. inversion H. reflexivity.
    + split; [reflexivity|]. intros ? ? ? H. discriminate.
  - eexists. split; [vm_compute; reflexivity|]. repeat split.
Qed.

(** ** Thickness selector *)




Lemma store_append_read (m : store) (a : addr) (x : note) :
  (a < List.length m)%nat ->
  store_read (store_append m a x) a = store_read m a ++ [x] /\
  forall b, b <> a -> store_read (store_append m a x) b = store_read m b.
Proof.
  unfold store_read. revert a.
  induction m as [|l m IH]; intros a Ha; simpl in Ha; [lia|].
  destruct a as [|a]; simpl.
  - split; [reflexivity|]. intros [|b] Hb; [congruence | reflexivity].
  - destruct (IH a ltac:(lia)) as [IH1 IH2]. split; [exact IH1|].
    intros [|b] Hb; [reflexivity|]. apply IH2. congruence.
Qed.

(** What calculate_initial_thickness does once the minimum is computed. *)
Lemma calculate_initial_thickness_eq
    (span : num) (support : string) (uh : option num) (hr : Z) (w : world) :
  h_rounded_of span support = Ok hr ->
  calculate_initial_thickness span support uh w =
    match supplied uh with
    | Some u =>
        (Ok u,
         {| self := set_h (self w) u;
            mem := if Py.lt u (Int hr)
                   then store_append (mem w) (notes (self w))
                          (WarningBelowMinimum u hr)
                   else mem w |})
    | None =>
        (Ok (Int hr), {| self := set_h (self w) (Int hr); mem := mem w |})
    end.
Proof.
  intros Hr. unfold calculate_initial_thickness, bind, lift.
  rewrite Hr. cbv beta iota.
  destruct (supplied uh) as [u|]; [|reflexivity].
  destruct (Py.lt u (Int hr)); reflexivity.
Qed.




(** ** Comparisons with zero *)

Lemma compare_zero_flip (v : num) :
  Py.compare v (Int 0) = option_map CompOpp (Py.compare (Int 0) v).
Proof.
  destruct v as [z|f]; cbn [Py.compare option_map].
  - f_equal. apply Z.compare_antisym.
  - reflexivity.
Qed.

(** [max(v, 0)] is never below zero, and is at least zero unless [v] is a NaN. *)
Lemma max_zero_not_negative (v : num) :
  Py.lt (Py.max v (Int 0)) (Int 0) = false.
Proof.
  unfold Py.max, Py.gt. destruct (Py.compare (Int 0) v) as [[| |]|] eqn:E;
    try reflexivity; unfold Py.lt; rewrite compare_zero_flip, E; reflexivity.
Qed.

Lemma max_zero_at_least_zero (v : num) :
  Py.compare v (Int 0) <> None ->
  Py.le (Int 0) (Py.max v (Int 0)) = true.
Proof.
  intros Hc. rewrite compare_zero_flip in Hc.
  unfold Py.max, Py.gt. destruct (Py.compare (Int 0) v) as [[| |]|] eqn:E;
    try reflexivity; unfold Py.le; try rewrite E; try reflexivity.
  now elim Hc.
Qed.

(** ** Which exceptions the arithmetic can raise *)

Lemma to_float_raises (a : num) (e : exn) :
  Py.to_float a = Raise e -> e = OverflowError.
Proof.
  destruct a as [z|f]; simpl; [|discriminate].
  unfold Py.int_to_float. destruct (Py.is_inf_SF _); congruence.
Qed.

Lemma arith_raises fz ff (a b : num) (e : exn) :
  Py.arith fz ff a b = Raise e -> e = OverflowError.
Proof.
  unfold Py.arith.
  destruct a as [x|f], b as [y|g]; simpl; try discriminate;
    unfold Py.int_to_float; repeat destruct (Py.is_inf_SF _); simpl; congruence.
Qed.

Lemma sqrt_no_zero_division (a : num) :
  Py.sqrt a <> Raise ZeroDivisionError.
Proof.
  unfold Py.sqrt. destruct (Py.to_float a) as [f|e] eqn:E; simpl.
  - destruct (Prim2SF f) as [| [|] | | [|] ? ?]; discriminate.
  - apply to_float_raises in E. congruence.
Qed.

(** Division by a float that compares above zero, or by one of the literal
    divisors of the engine, never raises ZeroDivisionError. *)
Lemma truediv_by_positive_float (a : num) (p : float) :
  Py.gt (Float p) (Int 0) = true ->
  Py.truediv a (Float p) <> Raise ZeroDivisionError.
Proof.
  unfold Py.gt, Py.compare, Py.truediv. intros Hp.
  assert (Hz : Py.is_zero_SF (Prim2SF p) = false).
  { destruct (Prim2SF p); try reflexivity. simpl in Hp. discriminate. }
  destruct a as [x|f]; simpl.
  - unfold Py.int_to_float. destruct (Py.is_inf_SF _); simpl; [discriminate|].
    rewrite Hz. discriminate.
  - rewrite Hz. discriminate.
Qed.

Lemma truediv_by_literal (a : num) (c : Z) :
  c = 2 \/ c = 1000 \/ c = 25 \/ c = 10 ->
  Py.truediv a (Int c) <> Raise ZeroDivisionError.
Proof.
  intros Hc. destruct a as [x|f].
  - unfold Py.truediv, Py.int_truediv.
    assert ((c =? 0) = false) as -> by (apply Z.eqb_neq; lia).
    destruct (x =? 0); simpl; [discriminate|].
    destruct (Py.is_inf_SF _); discriminate.
  - destruct Hc as [E|[E|[E|E]]]; subst c; discriminate.
Qed.

Lemma rbind_no_zero_division {A B} (r : result A) (k : A -> result B) :
  no_zero_division r ->
  (forall a, r = Ok a -> no_zero_division (k a)) ->
  no_zero_division (rbind r k).
Proof.
  unfold no_zero_division. destruct r as [a|e]; simpl; intros H1 H2.
  - now apply H2.
  - intros E. apply H1. inversion E. reflexivity.
Qed.

Lemma arith_no_zero_division fz ff (a b : num) :
  no_zero_division (Py.arith fz ff a b).
Proof.
  intros H. apply arith_raises in H. discriminate.
Qed.

Ltac no_zde :=
  repeat first
    [ apply arith_no_zero_division
    | apply sqrt_no_zero_division
    | apply truediv_by_literal; lia
    | apply rbind_no_zero_division; [|intros ? ?]
    | unfold no_zero_division; discriminate ].

(** ** Shear checker *)

Lemma Vu_of_shear_demand (support : string) (w L_n d_m : num) :
  In support support_conditions ->
  Vu_of support w L_n d_m = shear_demand support w L_n d_m.
Proof.
  intros Hin. simpl in Hin.
  destruct Hin as [<-|[<-|[<-|[<-|[]]]]];
    unfold Vu_of, shear_demand, Vu_at_d, Vu_continuous_at_d;
    cbn [String.eqb Ascii.eqb Bool.eqb]; try reflexivity.
  destruct (Py.truediv L_n (Int 2)) as [half|]; cbn [rbind]; [|reflexivity].
  destruct (Py.sub half d_m) as [arm|]; cbn [rbind]; [|reflexivity].
  destruct (Py.mul w arm) as [a|]; cbn [rbind]; [|reflexivity].
  destruct (Py.mul (Float 0.575) L_n) as [l|]; cbn [rbind]; [|reflexivity].
  destruct (Py.sub l d_m) as [arm2|]; cbn [rbind]; [|reflexivity].
  destruct (Py.mul w arm2) as [b|]; cbn [rbind]; reflexivity.
Qed.

Lemma PASS_not_FAIL : PASS <> FAIL.
Proof. discriminate. Qed.

Lemma check_shear_eq (w : world) :
  check_shear w =
    (shear_of (support_condition (self w)) (clear_span (self w))
       (wu (self w)) (d (self w)) (fc_prime (material (self w))), w).
Proof. reflexivity. Qed.

Lemma mul_float_is_float (c : float) (x y : num) :
  Py.mul (Float c) x = Ok y -> exists p, y = Float p.
Proof.
  unfold Py.mul, Py.arith. destruct x; cbn [Py.to_float rbind]; intros H;
    repeat step; eauto.
Qed.

Lemma phiVc_is_float (fc dd Vc_ phiVc_ : num) :
  phiVc_of fc dd = Ok (Vc_, phiVc_) -> exists p, phiVc_ = Float p.
Proof.
  unfold phiVc_of. intros H. repeat step.
  match goal with
  | H : Py.mul (Float 0.75) _ = Ok _ |- _ => exact (mul_float_is_float _ _ _ H)
  end.
Qed.

Lemma shear_of_no_zero_division support span wopt dopt fc :
  no_zero_division (shear_of support span wopt dopt fc).
Proof.
  unfold shear_of.
  apply rbind_no_zero_division; [apply truediv_by_literal; lia|].
  intros L_n _.
  apply rbind_no_zero_division; [destruct dopt; discriminate|]. intros dd _.
  apply rbind_no_zero_division; [apply truediv_by_literal; lia|].
  intros d_m _.
  apply rbind_no_zero_division; [destruct wopt; discriminate|]. intros w _.
  apply rbind_no_zero_division.
  { unfold Vu_of.
    repeat match goal with
           | |- no_zero_division (if ?b then _ else _) => destruct b
           end; no_zde. }
  intros Vu0 _.
  apply rbind_no_zero_division.
  { unfold phiVc_of. no_zde. }
  intros [Vc_ phiVc_] Hphi.
  destruct (phiVc_is_float _ _ _ _ Hphi) as [p ->].
  apply rbind_no_zero_division; [|intros; discriminate].
  unfold utilization_of.
  destruct (Py.gt (Float p) (Int 0)) eqn:Hp; [|discriminate].
  apply rbind_no_zero_division.
  - now apply truediv_by_positive_float.
  - intros ? _. no_zde.
Qed.

(** C7. check_shear computes Vu per support condition (wu * (L/2 - d) for
    simply-supported and both-ends-continuous, the larger of that and
    wu * (0.575 L - d) for one-end-continuous, wu * L for cantilever, with L
    and d in metres), clamps it with max(Vu, 0), sets utilization to
    Vu / phiVc * 100 when phiVc > 0 and to 0 otherwise (so for phiVc = 0),
    never raises ZeroDivisionError, and reports PASS exactly when
    Vu <= phiVc. *)
Theorem check_shear_spec :
  (forall (w : world) (r : shear_check),
     In (support_condition (self w)) support_conditions ->
     fst (check_shear w) = Ok r ->
     exists wv dd L_n d_m Vu0 : num,
       wu (self w) = Some wv /\ d (self w) = Some dd /\
       Py.truediv (clear_span (self w)) (Int 1000) = Ok L_n /\
       Py.truediv dd (Int 1000) = Ok d_m /\
       shear_demand (support_condition (self w)) wv L_n d_m = Ok Vu0 /\
       Vu r = Py.max Vu0 (Int 0) /\
       Py.lt (Vu r) (Int 0) = false /\
       (Py.compare Vu0 (Int 0) <> None -> Py.le (Int 0) (Vu r) = true) /\
       (Py.gt (phiVc r) (Int 0) = true ->
        exists q, Py.truediv (Vu r) (phiVc r) = Ok q /\
                  Py.mul q (Int 100) = Ok (utilization r)) /\
       (Py.gt (phiVc r) (Int 0) = false -> utilization r = Int 0) /\
       (Py.eq (phiVc r) (Int 0) = true -> utilization r = Int 0) /\
       (status r = PASS <-> Py.le (Vu r) (phiVc r) = true) /\
       (status r = FAIL <-> Py.le (Vu r) (phiVc r) = false)) /\
  (forall w : world, fst (check_shear w) <> Raise ZeroDivisionError) /\
  (exists r, fst (design scenario_A) = Ok r /\
     Vu (r_shear r) = Float 19.156199999999998 /\
     status (r_shear r) = PASS).
Proof.
  split; [|split].
  - intros w r Hin Hr. rewrite check_shear_eq in Hr. cbn [fst] in Hr.
    unfold shear_of in Hr.
    destruct (Py.truediv (clear_span (self w)) (Int 1000)) as [L_n|] eqn:HL;
      cbn [rbind] in Hr; [|discriminate].
    destruct (d (self w)) as [dd|] eqn:Hd;
      cbn [Py.bound rbind] in Hr; [|discriminate].
    destruct (Py.truediv dd (Int 1000)) as [d_m|] eqn:Hdm;
      cbn [rbind] in Hr; [|discriminate].
    destruct (wu (self w)) as [wv|] eqn:Hw;
      cbn [Py.bound rbind] in Hr; [|discriminate].
    destruct (Vu_of _ wv L_n d_m) as [Vu0|] eqn:HVu;
      cbn [rbind] in Hr; [|discriminate].
    destruct (phiVc_of _ dd) as [[Vc_ phiVc_]|] eqn:Hphi;
      cbn [rbind] in Hr; [|discriminate].
    destruct (utilization_of _ phiVc_) as [u|] eqn:Hu;
      cbn [rbind] in Hr; [|discriminate].
    inversion Hr; subst r; clear Hr.
    rewrite (Vu_of_shear_demand _ _ _ _ Hin) in HVu.
    exists wv, dd, L_n, d_m, Vu0. cbn [Vu phiVc utilization status].
    repeat (split; [solve [eauto using max_zero_not_negative,
                             max_zero_at_least_zero]|]).
    unfold utilization_of in Hu.
    split; [|split; [|split; [|split]]].
    + intros Hg. rewrite Hg in Hu. step. eauto.
    + intros Hg. rewrite Hg in Hu. congruence.
    + intros He. assert (Py.gt phiVc_ (Int 0) = false) as Hg.
      { unfold Py.gt, Py.eq in *.
        destruct (Py.compare phiVc_ (Int 0)) as [[| |]|]; congruence. }
      rewrite Hg in Hu. congruence.
    + destruct (Py.le _ _); split; intros; try reflexivity;
        try discriminate; exfalso; now apply PASS_not_FAIL.
    + destruct (Py.le _ _); split; intros; try reflexivity;
        try discriminate; exfalso; now apply PASS_not_FAIL.
  - intros w. rewrite check_shear_eq. apply shear_of_no_zero_division.
  - eexists. split; [vm_compute; reflexivity|]. split; reflexivity.
Qed.

(** ** What each stage of design() leaves in the object *)

Lemma set_reinforcement_same (s : OneWaySlab) :
  set_reinforcement s (reinforcement s) = s.
Proof. destruct s; reflexivity. Qed.

Lemma calculate_initial_thickness_frame span support uh w u w1 :
  calculate_initial_thickness span support uh w = (Ok u, w1) ->
  self w1 = set_h (self w) u.
Proof.
  unfold calculate_initial_thickness. intros H. step. step.
  destruct (supplied uh) as [v|].
  - destruct (Py.lt v (Int a)); repeat step; reflexivity.
  - repeat step. reflexivity.
Qed.

Lemma calculate_factored_load_frame w x w1 :
  calculate_factored_load w = (Ok x, w1) ->
  exists wv, self w1 = set_wu (self w) wv /\ mem w1 = mem w.
Proof.
  unfold calculate_factored_load. intros H. repeat step.
  eexists. split; reflexivity.
Qed.

Lemma calculate_moments_frame w ms w1 :
  calculate_moments w = (Ok ms, w1) ->
  self w1 = set_moments (self w) ms /\ mem w1 = mem w.
Proof.
  unfold calculate_moments. intros H. repeat step.
  match goal with
  | H : match ?o with Some _ => _ | None => _ end _ = _ |- _ =>
      destruct o; repeat step; cbn [self mem]; split; try reflexivity
  end.
  destruct w as [s m]; destruct s; reflexivity.
Qed.

Lemma calculate_effective_depth_spec w dd w1 :
  calculate_effective_depth w = (Ok dd, w1) ->
  exists hh,
    h (self w) = Some hh /\
    effective_depth_of hh (cover (material (self w)))
      (diameter (main_bar (self w))) = Ok dd /\
    self w1 = set_d (self w) dd /\ mem w1 = mem w.
Proof.
  unfold calculate_effective_depth. intros H. repeat step.
  eexists. repeat split; eauto.
Qed.

(** With the effective depth already set, the flexural sizer reads the
    object and leaves it untouched. *)
Lemma calculate_required_steel_pure Mu location w dd :
  d (self w) = Some dd ->
  snd (calculate_required_steel Mu location w) = w.
Proof.
  intros Hd. unfold calculate_required_steel, bind, attr, need, lift, ret.
  cbv beta iota. rewrite Hd. cbv beta iota.
  destruct (Py.le Mu (Int 0)); [reflexivity|]. rewrite Hd. cbv beta iota.
  destruct (required_steel_of _ _ _ _ _ _); reflexivity.
Qed.

Lemma design_loop_frame items : forall w dd u w1,
  d (self w) = Some dd ->
  design_loop items w = (Ok u, w1) ->
  self w1 = set_reinforcement (self w) (reinforcement (self w1)) /\
  mem w1 = mem w.
Proof.
  induction items as [|[location Mu] rest IH]; intros w dd u w1 Hd H.
  - cbn [design_loop] in H. step. now rewrite set_reinforcement_same.
  - cbn [design_loop] in H. step.
    pose proof (calculate_required_steel_pure Mu location w dd Hd) as Hp.
    rewrite H0 in Hp. cbn [snd] in Hp. subst w0.
    step. destruct a as [st|]; step.
    + apply (IH _ dd) in H2; [|exact Hd].
      destruct H2 as [E1 E2]. cbn [self mem] in *.
      split; [|exact E2]. rewrite E1. reflexivity.
    + exact (IH _ dd _ _ Hd H2).
Qed.

Ltac bind_inv H a w1 Hc :=
  apply bind_Ok in H; destruct H as (a & w1 & Hc & H).

Ltac attr_inv H a w1 :=
  let Hc := fresh "Hc" in
  bind_inv H a w1 Hc; apply attr_Ok in Hc; destruct Hc as [-> ->].

Ltac modify_inv H :=
  let Hc := fresh "Hc" in
  let u := fresh "u" in
  let w1 := fresh "w" in
  bind_inv H u w1 Hc; apply modify_Ok in Hc; subst w1.

Ltac need_inv H a Ha :=
  let w1 := fresh "w" in
  bind_inv H a w1 Ha; apply need_Ok in Ha; destruct Ha as [Ha ->].

(** The stages design() went through when it returned. *)
Lemma design_stages (w : world) (r : DesignResult) (w' : world) :
  design w = (Ok r, w') ->
  exists wa : world,
    calculate_initial_thickness (clear_span (self w))
      (support_condition (self w)) (user_h (self w)) w
      = (Ok (thickness r), wa) /\
    effective_depth_of (thickness r) (cover (material (self w)))
      (diameter (main_bar (self w))) = Ok (effective_depth r) /\
    shrinkage_steel_of (thickness r) (material (self w))
      (shrinkage_bar (self w)) = Ok (r_shrinkage r) /\
    h (self w') = Some (thickness r) /\
    d (self w') = Some (effective_depth r) /\
    mem w' = mem wa /\
    r_notes r = notes (self w).
Proof.
  unfold design. intros H.
  attr_inv H span w0. attr_inv H support w0. attr_inv H uh w0.
  bind_inv H hh w1 Hh.
  pose proof (calculate_initial_thickness_frame _ _ _ _ _ _ Hh) as F1.
  bind_inv H x w2 Hl. destruct x as [[wv td] sw].
  destruct (calculate_factored_load_frame _ _ _ Hl) as (wv' & F2 & M2).
  bind_inv H ms w3 Hm.
  destruct (calculate_moments_frame _ _ _ Hm) as (F3 & M3).
  bind_inv H dd w4 Hd.
  destruct (calculate_effective_depth_spec _ _ _ Hd)
    as (h4 & Hh4 & Hd4 & F4 & M4).
  modify_inv H. attr_inv H items w0.
  bind_inv H u5 w5 Hloop.
  assert (Hd5 : d (self {| self := set_reinforcement (self w4) [];
                            mem := mem w4 |}) = Some dd)
    by (cbn [self]; rewrite F4; reflexivity).
  destruct (design_loop_frame _ _ dd _ _ Hd5 Hloop) as (F5 & M5).
  cbn [self mem] in F5, M5.
  bind_inv H shr6 w6 Hs.
  unfold calculate_shrinkage_steel in Hs.
  need_inv Hs h6 Hh6. attr_inv Hs mat6 w0. attr_inv Hs bar6 w0.
  apply lift_Ok in Hs. destruct Hs as [Hs ->].
  modify_inv H.
  bind_inv H shc w7 Hc. rewrite check_shear_eq in Hc.
  inversion Hc; subst w7; clear Hc.
  modify_inv H.
  need_inv H h8 Hh8. need_inv H d8 Hd8. need_inv H wu8 Hwu8.
  attr_inv H ms8 w0. attr_inv H rf8 w0. attr_inv H nt8 w0.
  apply ret_Ok in H. destruct H as [-> ->].
  cbn [self mem thickness effective_depth r_shrinkage r_notes] in *.
  exists w1.
  rewrite F5 in *. rewrite F4 in *. rewrite F3 in *. rewrite F2 in *.
  rewrite F1 in *. cbn in Hh4, Hh6, Hh8, Hd8, Hs, Hd4 |- *.
  inversion Hh4; subst h4. inversion Hh6; subst h6.
  inversion Hh8; subst h8. inversion Hd8; subst d8.
  rewrite M5, M4, M3, M2.
  repeat split; assumption.
Qed.

(** ** Effective depth *)

(** C1, as amended.  design() does not check the effective depth: whenever
    it returns a result, the result's effective depth is the thickness
    minus the cover minus half the main-bar diameter as computed, and that
    value is what the object keeps in [d], whatever its sign. *)
Theorem design_effective_depth_unchecked
    (w : world) (r : DesignResult) (w' : world) :
  design w = (Ok r, w') ->
  effective_depth_of (thickness r) (cover (material (self w)))
    (diameter (main_bar (self w))) = Ok (effective_depth r) /\
  d (self w') = Some (effective_depth r).
Proof.
  intros H. destruct (design_stages w r w' H) as (wa & _ & Hd & _ & _ & Hd' & _).
  split; assumption.
Qed.

Lemma design_effective_depth_unchecked_witness :
  exists r w',
    design scenario_D = (Ok r, w') /\
    effective_depth_of (thickness r) (Int 40) (Float 25.4)
      = Ok (effective_depth r) /\
    d (self w') = Some (effective_depth r).
Proof.
  eexists. eexists. split; [vm_compute; reflexivity|].
  apply (design_effective_depth_unchecked scenario_D).
  vm_compute. reflexivity.
Defined.

(** C1 as stated fails: on Scenario D the effective depth is negative and
    design() returns a complete result carrying it. *)
Lemma scenario_D_returns_negative_depth :
  effective_depth_of (Int 50) (Int 40) (Float 25.4)
    = Ok (Float (-2.6999999999999993)) /\
  Py.le (Float (-2.6999999999999993)) (Int 0) = true /\
  exists r, fst (design scenario_D) = Ok r /\
    thickness r = Int 50 /\
    effective_depth r = Float (-2.6999999999999993) /\
    status (r_shear r) = FAIL.
Proof.
  split; [vm_compute; reflexivity|]. split; [vm_compute; reflexivity|].
  eexists. split; [vm_compute; reflexivity|]. repeat split.
Qed.

(** ** Input validation *)



(** ** Reuse of one object *)

(** C9 fails when one object is designed twice: design() clears
    [self.reinforcement] but not [self.notes], so the second call, on the
    same seven inputs, returns two advisory notes where the first returned
    one; the first result, which holds the same list object, now shows two
    as well. *)
Theorem design_twice_accumulates_notes :
  exists r1 w1 r2 w2,
    design scenario_C = (Ok r1, w1) /\
    design w1 = (Ok r2, w2) /\
    same_inputs (self scenario_C) (self w1) /\
    read_notes r1 w1 = [WarningBelowMinimum (Int 150) 180] /\
    read_notes r2 w2 = [WarningBelowMinimum (Int 150) 180;
                        WarningBelowMinimum (Int 150) 180] /\
    read_notes r1 w2 = read_notes r2 w2 /\
    thickness r1 = thickness r2 /\
    r_moments r1 = r_moments r2 /\
    r_reinforcement r1 = r_reinforcement r2 /\
    r_shrinkage r1 = r_shrinkage r2 /\
    r_shear r1 = r_shear r2.
Proof.
  eexists. eexists. eexists. eexists.
  split; [vm_compute; reflexivity|].
  split; [vm_compute; reflexivity|].
  split; [repeat split|].
  repeat split.
Qed.

(** ** A valid input on which the shrinkage sizer divides by zero *)

(** C10. There is an input meeting every stated precondition (positive
    span, f'c and fy, catalog bars, positive effective depth) whose required
    shrinkage spacing 1000 * 71 / 3000 is below 25 mm: the final spacing is
    floor(23.67 / 25) * 25 = 0, the provided area 1000 * 71 / 0 divides by
    zero, and design() raises ZeroDivisionError instead of returning. *)
Theorem shrinkage_spacing_zero_raises :
  let s := self scenario_thick in
  Py.gt (clear_span s) (Int 0) = true /\
  Py.gt (fc_prime (material s)) (Int 0) = true /\
  Py.gt (fy (material s)) (Int 0) = true /\
  BarProperties_init "#13" = Ok (main_bar s) /\
  BarProperties_init "#10" = Ok (shrinkage_bar s) /\
  h (self (snd (design scenario_thick))) = Some (Int 1500) /\
  d (self (snd (design scenario_thick))) = Some (Float 1473.65) /\
  Py.gt (Float 1473.65) (Int 0) = true /\
  As_sh_req_of (Int 400) (Int 1500000) = Ok (Float 3000) /\
  Py.truediv (Int 71000) (Float 3000) = Ok (Float 23.666666666666668) /\
  (q <- Py.truediv (Float 23.666666666666668) (Int 25) ;; Py.floor q)%res
    = Ok 0 /\
  Py.truediv (Int 71000) (Int (0 * 25)) = Raise ZeroDivisionError /\
  calculate_shrinkage_steel (snd (design scenario_thick))
    = (Raise ZeroDivisionError, snd (design scenario_thick)) /\
  fst (design scenario_thick) = Raise ZeroDivisionError.
Proof.
  cbv zeta. repeat split; vm_compute; reflexivity.
Qed.

(** ** Binary64 rounding, from the SpecFloat definitions *)

Module Rounding.

Lemma fexp_eq (e : Z) : fexp prec emax e = Z.max (e - 53) (-1074).
Proof. reflexivity. Qed.

Lemma digits2_pos_bounds (p : positive) :
  2 ^ (Zpos (digits2_pos p) - 1) <= Zpos p < 2 ^ Zpos (digits2_pos p).
Proof.
  induction p as [p IH|p IH|]; cbn [digits2_pos].
  - rewrite Pos2Z.inj_succ. replace (Z.succ (Zpos (digits2_pos p)) - 1)
      with (Z.succ (Zpos (digits2_pos p) - 1)) by lia.
    rewrite !Z.pow_succ_r by lia. lia.
  - rewrite Pos2Z.inj_succ. replace (Z.succ (Zpos (digits2_pos p)) - 1)
      with (Z.succ (Zpos (digits2_pos p) - 1)) by lia.
    rewrite !Z.pow_succ_r by lia. lia.
  - simpl. lia.
Qed.

Lemma Zdigits2_pos_le (p : positive) (k : Z) :
  Zpos p < 2 ^ k -> 0 <= k -> Zpos (digits2_pos p) <= k.
Proof.
  intros Hp Hk. destruct (digits2_pos_bounds p) as [Hlo _].
  destruct (Z_le_gt_dec (Zpos (digits2_pos p)) k) as [|Hgt]; [assumption|].
  exfalso. assert (2 ^ k <= 2 ^ (Zpos (digits2_pos p) - 1))
    by (apply Z.pow_le_mono_r; lia). lia.
Qed.

Lemma Zdigits2_le (z k : Z) :
  0 <= z < 2 ^ k -> 0 <= k -> Zdigits2 z <= k.
Proof.
  intros Hz Hk. destruct z as [|p|p]; cbn [Zdigits2]; [lia| |lia].
  apply Zdigits2_pos_le; lia.
Qed.

Lemma Zdigits2_nonneg (z : Z) : 0 <= z -> 0 <= Zdigits2 z.
Proof. destruct z; cbn [Zdigits2]; lia. Qed.

(** One right shift of a non-negative mantissa. *)
Lemma shr_1_nonneg (m : Z) (r s : bool) :
  0 <= m ->
  shr_1 {| shr_m := m; shr_r := r; shr_s := s |} =
    {| shr_m := m / 2; shr_r := Z.odd m; shr_s := r || s |}.
Proof.
  intros Hm. destruct m as [|p|p]; [reflexivity| |lia].
  destruct p as [p|p|]; cbn [shr_1 Z.odd]; f_equal.
  - apply Z.div_unique with (r := 1); lia.
  - apply Z.div_unique with (r := 0); lia.
Qed.

Lemma shr_1_m_nonneg (mrs : shr_record) :
  0 <= shr_m mrs -> 0 <= shr_m (shr_1 mrs).
Proof.
  destruct mrs as [m r s]. cbn [shr_m]. intros Hm.
  rewrite shr_1_nonneg by assumption. cbn [shr_m].
  apply Z.div_pos; lia.
Qed.

Lemma iter_shr_1_m_nonneg (p : positive) : forall mrs,
  0 <= shr_m mrs -> 0 <= shr_m (iter_pos shr_1 p mrs).
Proof.
  induction p as [p IH|p IH|]; intros mrs Hm; cbn [iter_pos].
  - apply IH, IH, shr_1_m_nonneg, Hm.
  - apply IH, IH, Hm.
  - apply shr_1_m_nonneg, Hm.
Qed.

Lemma shr_m_nonneg (mrs : shr_record) (e n : Z) :
  0 <= shr_m mrs -> 0 <= shr_m (fst (shr mrs e n)).
Proof.
  intros Hm. destruct n; cbn [shr fst]; try assumption.
  now apply iter_shr_1_m_nonneg.
Qed.

Lemma shr_record_of_loc_m (m : Z) (l : location) :
  shr_m (shr_record_of_loc m l) = m.
Proof. destruct l as [|[| |]]; reflexivity. Qed.

Lemma loc_of_shr_record_of_loc (m : Z) (l : location) :
  loc_of_shr_record (shr_record_of_loc m l) = l.
Proof. destruct l as [|[| |]]; reflexivity. Qed.

Lemma round_nearest_even_bounds (m : Z) (l : location) :
  m <= round_nearest_even m l <= m + 1.
Proof.
  destruct l as [|[| |]]; cbn [round_nearest_even]; try lia.
  destruct (Z.even m); lia.
Qed.

(** The result of rounding has the sign it was given, and is never a NaN
    when the mantissa is not negative. *)
Lemma binary_round_aux_shape (sx : bool) (mx ex : Z) (lx : location) :
  0 <= mx ->
  let y := binary_round_aux prec emax sx mx ex lx in
  y = S754_zero sx \/ y = S754_infinity sx \/
  exists m e, y = S754_finite sx m e.
Proof.
  intros Hm. cbv zeta. unfold binary_round_aux.
  destruct (shr_fexp prec emax mx ex lx) as [mrs' e'] eqn:E1.
  destruct (shr_fexp prec emax _ e' loc_Exact) as [mrs'' e''] eqn:E2.
  assert (H1 : 0 <= shr_m mrs').
  { unfold shr_fexp in E1.
    pose proof (shr_m_nonneg (shr_record_of_loc mx lx) ex
                  (fexp prec emax (Zdigits2 mx + ex) - ex)) as Hs.
    rewrite E1 in Hs. cbn [fst] in Hs. apply Hs.
    now rewrite shr_record_of_loc_m. }
  assert (H2 : 0 <= shr_m mrs'').
  { unfold shr_fexp in E2.
    match type of E2 with
    | shr ?a ?b ?c = _ => pose proof (shr_m_nonneg a b c) as Hs
    end.
    rewrite E2 in Hs. cbn [fst] in Hs. apply Hs.
    rewrite shr_record_of_loc_m.
    pose proof (round_nearest_even_bounds (shr_m mrs') (loc_of_shr_record mrs')).
    lia. }
  destruct (shr_m mrs'') as [|p|p]; [auto| |lia].
  destruct (e'' <=? emax - prec); eauto.
Qed.

Lemma Zdigits2_lt_pow (z k : Z) :
  0 <= z -> Zdigits2 z <= k -> 0 <= k -> z < 2 ^ k.
Proof.
  intros Hz Hd Hk. destruct z as [|p|p]; cbn [Zdigits2] in Hd.
  - apply Z.pow_pos_nonneg; lia.
  - destruct (digits2_pos_bounds p) as [_ Hhi].
    assert (2 ^ Zpos (digits2_pos p) <= 2 ^ k)
      by (apply Z.pow_le_mono_r; lia). lia.
  - lia.
Qed.

(** A shift by at most one place. *)
Lemma shr_at_most_one (mrs : shr_record) (e n : Z) :
  n <= 1 ->
  (n <= 0 /\ shr mrs e n = (mrs, e)) \/
  (n = 1 /\ shr mrs e n = (shr_1 mrs, e + 1)).
Proof.
  intros Hn. destruct n as [|p|p]; cbn [shr].
  - left. split; [lia|reflexivity].
  - right. assert (p = 1%positive) as -> by lia. split; reflexivity.
  - left. split; [lia|reflexivity].
Qed.

(** Rounding a mantissa of at most 54 bits shifts it by at most one place
    at each of its two steps, and never ends above [mz + 1] units of the
    input exponent. *)
Lemma binary_round_aux_upper
    (sx : bool) (mz ez : Z) (lz : location)
    (s3 : bool) (m3 : positive) (e3 : Z) :
  0 <= mz < 2 ^ 54 -> -1074 <= ez ->
  binary_round_aux prec emax sx mz ez lz = S754_finite s3 m3 e3 ->
  s3 = sx /\ ez <= e3 <= ez + 2 /\ Zpos m3 * 2 ^ (e3 - ez) <= mz + 1.
Proof.
  intros Hmz Hez. unfold binary_round_aux, shr_fexp.
  rewrite !fexp_eq.
  pose proof (Zdigits2_le mz 54 Hmz ltac:(lia)) as Hd.
  pose proof (Zdigits2_nonneg mz ltac:(lia)) as Hd0.
  destruct (shr_at_most_one (shr_record_of_loc mz lz) ez
              (Z.max (Zdigits2 mz + ez - 53) (-1074) - ez) ltac:(lia))
    as [[Hn1 ->]|[Hn1 ->]].
  - (* no first shift *)
    cbv beta iota.
    rewrite shr_record_of_loc_m, loc_of_shr_record_of_loc.
    pose proof (round_nearest_even_bounds mz lz) as Hr.
    set (m2 := round_nearest_even mz lz) in *.
    assert (Hmz53 : mz < 2 ^ 53)
      by (apply Zdigits2_lt_pow; lia).
    assert (Hm2 : 0 <= m2 < 2 ^ 54) by lia.
    pose proof (Zdigits2_le m2 54 Hm2 ltac:(lia)) as Hd2.
    rewrite ?fexp_eq.
    destruct (shr_at_most_one (shr_record_of_loc m2 loc_Exact) ez
                (Z.max (Zdigits2 m2 + ez - 53) (-1074) - ez) ltac:(lia))
      as [[Hn2 ->]|[Hn2 ->]]; cbv beta iota.
    + cbn [shr_record_of_loc shr_m].
      destruct m2 as [|p|p]; try discriminate.
      destruct (ez <=? emax - prec); [|discriminate].
      intros H. inversion H; subst. split; [reflexivity|].
      replace (e3 - e3) with 0 by lia. cbn. lia.
    + cbn [shr_record_of_loc]. rewrite shr_1_nonneg by lia. cbn [shr_m].
      destruct (m2 / 2) as [|p|p] eqn:Eq; try discriminate.
      destruct (ez + 1 <=? emax - prec); [|discriminate].
      intros H. inversion H; subst. split; [reflexivity|].
      replace (ez + 1 - ez) with 1 by lia. cbn.
      pose proof (Z.mul_div_le m2 2 ltac:(lia)). lia.
  - (* first shift by one place *)
    assert (Hrec : exists r0 s0,
               shr_record_of_loc mz lz =
                 {| shr_m := mz; shr_r := r0; shr_s := s0 |})
      by (destruct lz as [|[| |]]; cbn; eauto).
    destruct Hrec as (r0 & s0 & ->).
    rewrite shr_1_nonneg by lia. cbv beta iota. cbn [shr_m].
    set (l1 := loc_of_shr_record _).
    pose proof (round_nearest_even_bounds (mz / 2) l1) as Hr.
    assert (Hhalf : 2 * round_nearest_even (mz / 2) l1 <= mz + 1).
    { pose proof (Z.div_mod mz 2 ltac:(lia)) as Hdm.
      pose proof (Z.mod_pos_bound mz 2 ltac:(lia)) as Hmod.
      subst l1. cbn [loc_of_shr_record].
      destruct (Z.odd mz) eqn:Hodd.
      - rewrite Zmod_odd, Hodd in Hdm.
        pose proof (round_nearest_even_bounds (mz / 2)
                      (if r0 || s0 then loc_Inexact Gt else loc_Inexact Eq)).
        destruct (r0 || s0); lia.
      - destruct (r0 || s0); cbn [round_nearest_even]; lia. }
    set (m2 := round_nearest_even (mz / 2) l1) in *.
    assert (Hdiv : 0 <= mz / 2) by (apply Z.div_pos; lia).
    assert (Hm2 : 0 <= m2 < 2 ^ 54) by lia.
    pose proof (Zdigits2_le m2 54 Hm2 ltac:(lia)) as Hd2.
    pose proof (Zdigits2_nonneg m2 ltac:(lia)) as Hd20.
    rewrite ?fexp_eq.
    destruct (shr_at_most_one (shr_record_of_loc m2 loc_Exact) (ez + 1)
                (Z.max (Zdigits2 m2 + (ez + 1) - 53) (-1074) - (ez + 1))
                ltac:(lia))
      as [[Hn2 ->]|[Hn2 ->]]; cbv beta iota.
    + cbn [shr_record_of_loc shr_m].
      destruct m2 as [|p|p]; try discriminate.
      destruct (ez + 1 <=? emax - prec); [|discriminate].
      intros H. inversion H; subst. split; [reflexivity|].
      replace (ez + 1 - ez) with 1 by lia. cbn. lia.
    + cbn [shr_record_of_loc]. rewrite shr_1_nonneg by lia. cbn [shr_m].
      destruct (m2 / 2) as [|p|p] eqn:Eq; try discriminate.
      destruct (ez + 1 + 1 <=? emax - prec); [|discriminate].
      intros H. inversion H; subst. split; [reflexivity|].
      replace (ez + 1 + 1 - ez) with 2 by lia. cbn.
      pose proof (Z.mul_div_le m2 2 ltac:(lia)). lia.
Qed.

(** A valid binary64 value: at most 53 bits, exponent at least -1074, and
    exactly 53 bits above the subnormal exponent. *)
Lemma valid_finite (s : bool) (m : positive) (e : Z) :
  valid_binary (S754_finite s m e) = true ->
  Z.max (Zpos (digits2_pos m) + e - 53) (-1074) = e.
Proof.
  cbn [SpecFloat.valid_binary]. unfold bounded, canonical_mantissa.
  rewrite fexp_eq. intros H. apply andb_prop in H. destruct H as [H _].
  now apply Z.eqb_eq in H.
Qed.

Lemma Prim2SF_25 :
  Py.to_float (Int 25) = Ok 25%float /\
  Prim2SF 25 = S754_finite false m25 (-48).
Proof. split; vm_compute; reflexivity. Qed.

(** Floor of the rounded quotient by 25: *)
Lemma floor_SFdiv_25 (mx : positive) (ex : Z)
    (s3 : bool) (m3 : positive) (e3 k : Z) :
  Z.max (Zpos (digits2_pos mx) + ex - 53) (-1074) = ex ->
  ex <= 0 ->
  SFdiv prec emax (S754_finite false mx ex) (S754_finite false m25 (-48))
    = S754_finite s3 m3 e3 ->
  Py.SF_floor (S754_finite s3 m3 e3) = Ok k ->
  k * 25 * 2 ^ (- ex) <= Zpos mx.
Proof.
  intros Hval Hex. cbn [SFdiv]. unfold SFdiv_core_binary.
  change (Zdigits2 (Zpos m25)) with 53.
  change (Zdigits2 (Zpos mx)) with (Zpos (digits2_pos mx)).
  rewrite fexp_eq.
  set (d1 := Zpos (digits2_pos mx)) in *.
  assert (Hd1 : 1 <= d1) by (subst d1; lia).
  set (ez := Z.min (Z.max (d1 + ex - (53 + -48) - 53) (-1074)) (ex - -48)).
  set (sh := ex - -48 - ez).
  assert (Hsh : 0 <= sh) by lia.
  assert (Hm' : match sh with
                | 0 => Zpos mx
                | Zpos _ => Z.shiftl (Zpos mx) sh
                | Zneg _ => 0
                end = Zpos mx * 2 ^ sh).
  { destruct sh as [|p|p] eqn:Es; [cbn; lia| |lia].
    apply Z.shiftl_mul_pow2. lia. }
  rewrite Hm'. clear Hm'.
  destruct (Z.div_eucl (Zpos mx * 2 ^ sh) (Zpos m25)) as [q r] eqn:Ediv.
  assert (Hq : q = Zpos mx * 2 ^ sh / Zpos m25)
    by (unfold Z.div; now rewrite Ediv).
  pose proof (digits2_pos_bounds mx) as Hmx. fold d1 in Hmx.
  assert (Hpow : 0 < 2 ^ sh) by (apply Z.pow_pos_nonneg; lia).
  assert (Hq0 : 0 <= q) by (subst q; apply Z.div_pos; lia).
  assert (Hqle : q * Zpos m25 <= Zpos mx * 2 ^ sh).
  { subst q. rewrite Z.mul_comm. apply Z.mul_div_le. lia. }
  assert (Hq54 : q < 2 ^ 54).
  { subst q. apply Z.div_lt_upper_bound; [lia|].
    assert (Zpos mx * 2 ^ sh < 2 ^ d1 * 2 ^ sh) by nia.
    rewrite <- Z.pow_add_r in H by lia.
    assert (2 ^ (d1 + sh) <= 2 ^ 106) by (apply Z.pow_le_mono_r; lia).
    assert (2 ^ 106 <= Zpos m25 * 2 ^ 54) by (vm_compute; discriminate).
    lia. }
  intros Hround Hfloor.
  apply binary_round_aux_upper in Hround; [|lia|lia].
  destruct Hround as (-> & He3 & Hm3).
  change (xorb false false) with false in Hfloor.
  unfold Py.SF_floor, Py.signed in Hfloor.
  assert (Hkdef : k = if 0 <=? e3 then Zpos m3 * 2 ^ e3
                      else Zpos m3 / 2 ^ (- e3)) by congruence.
  clear Hfloor.
  assert (Hez0 : ez <= 0) by lia.
  (* the floor, in units of the quotient's exponent *)
  assert (Hk : k * 2 ^ (- ez) <= q + 1).
  { destruct (0 <=? e3) eqn:E0; subst k.
    - apply Z.leb_le in E0.
      replace (Zpos m3 * 2 ^ e3 * 2 ^ (- ez))
        with (Zpos m3 * 2 ^ (e3 - ez)); [exact Hm3|].
      replace (e3 - ez) with (e3 + - ez) by lia.
      rewrite Z.pow_add_r by lia. ring.
    - apply Z.leb_gt in E0.
      assert (Hp3 : 0 < 2 ^ (- e3)) by (apply Z.pow_pos_nonneg; lia).
      assert (Hp : 0 <= 2 ^ (e3 - ez)) by (apply Z.pow_nonneg; lia).
      replace (- ez) with (- e3 + (e3 - ez)) by lia.
      rewrite Z.pow_add_r by lia.
      pose proof (Z.mul_div_le (Zpos m3) (2 ^ (- e3)) Hp3) as Hfl.
      nia. }
  assert (HP : 0 < 2 ^ (- ex)) by (apply Z.pow_pos_nonneg; lia).
  destruct (Z_le_gt_dec 53 sh) as [Hs53|Hs53].
  - assert (HT : 32 <= 2 ^ (sh - 48)).
    { change 32 with (2 ^ 5). apply Z.pow_le_mono_r; lia. }
    assert (E1 : 2 ^ (- ez) = 2 ^ (sh - 48) * 2 ^ (- ex)).
    { rewrite <- Z.pow_add_r by lia. f_equal. lia. }
    assert (E2 : 2 ^ sh = 2 ^ (sh - 48) * 2 ^ 48).
    { rewrite <- Z.pow_add_r by lia. f_equal. lia. }
    rewrite E1 in Hk. rewrite E2 in Hqle.
    change (Zpos m25) with (25 * 2 ^ 48) in Hqle.
    assert (Hq25 : q * 25 <= Zpos mx * 2 ^ (sh - 48)).
    { assert (0 < 2 ^ 48) by (vm_compute; reflexivity). nia. }
    nia.
  - assert (Hez : ez = -1074) by lia. rewrite Hez in Hk.
    assert (k <= 0).
    { destruct (Z_le_gt_dec k 0); [assumption|]. exfalso.
      assert (2 ^ 54 < 2 ^ (- -1074)) by (apply Z.pow_lt_mono_r; lia).
      nia. }
    nia.
Qed.

End Rounding.

(** ** Flooring a spacing to a multiple of 25 *)

Lemma floor_div25_below_upto_450 :
  forallb floor_div25_below (map Z.of_nat (seq 0 451)) = true.
Proof. vm_compute. reflexivity. Qed.

Lemma floor_div25_le_int (z k : Z) :
  0 <= z <= 450 -> floor_div25 (Int z) = Ok k -> k * 25 <= z.
Proof.
  intros Hz Hk. pose proof floor_div25_below_upto_450 as Hall.
  rewrite forallb_forall in Hall.
  assert (Hin : In z (map Z.of_nat (seq 0 451))).
  { apply in_map_iff. exists (Z.to_nat z). split; [lia|].
    apply in_seq. lia. }
  specialize (Hall z Hin). unfold floor_div25_below in Hall.
  rewrite Hk in Hall. now apply Z.leb_le.
Qed.

Lemma floor_div25_le_float (x : float) (k : Z) :
  small_nonneg (Float x) = true ->
  floor_div25 (Float x) = Ok k ->
  Py.le (Int (k * 25)) (Float x) = true.
Proof.
  unfold small_nonneg, floor_div25, Py.truediv.
  destruct Rounding.Prim2SF_25 as [-> E25]. cbn [Py.to_float rbind].
  rewrite E25. cbn [Py.is_zero_SF rbind Py.floor].
  rewrite div_spec, E25. unfold SF64div.
  pose proof (Prim2SF_valid x) as Hvalid.
  unfold Py.le, Py.compare.
  destruct (Prim2SF x) as [s| | |s mx ex] eqn:Ex; try discriminate.
  - intros _. cbn [SFdiv Py.SF_floor]. intros H. inversion H. reflexivity.
  - destruct s; [discriminate|]. intros Hex. apply Z.leb_le in Hex.
    apply Rounding.valid_finite in Hvalid.
    destruct (SFdiv prec emax (S754_finite false mx ex)
                (S754_finite false m25 (-48)))
      as [s3| | |s3 m3 e3] eqn:Ediv; cbn [Py.SF_floor];
      try discriminate.
    + intros H. inversion H; subst k. cbn [Py.Z_SF_compare Py.signed].
      change (0 * 25) with 0.
      destruct (0 <=? ex) eqn:E0; [|reflexivity].
      apply Z.leb_le in E0.
      assert (0 < Zpos mx * 2 ^ ex) as Hp
        by (apply Z.mul_pos_pos; [lia|apply Z.pow_pos_nonneg; lia]).
      apply Z.compare_lt_iff in Hp. now rewrite Hp.
    + intros Hfl.
      pose proof (Rounding.floor_SFdiv_25 mx ex s3 m3 e3 k Hvalid Hex Ediv Hfl)
        as Hle.
      cbn [Py.Z_SF_compare Py.signed].
      destruct (0 <=? ex) eqn:E0.
      * apply Z.leb_le in E0. assert (ex = 0) by lia. subst ex.
        change (2 ^ (- 0)) with 1 in Hle. change (2 ^ 0) with 1.
        destruct (Z.compare_spec (k * 25) (Zpos mx * 1)); try reflexivity; lia.
      * destruct (Z.compare_spec (k * 25 * 2 ^ (- ex)) (Zpos mx));
          try reflexivity; lia.
Qed.

(** [floor(x / 25) * 25 <= x] for a small non-negative [x]. *)
Lemma floor_div25_le (x : num) (k : Z) :
  small_nonneg x = true ->
  floor_div25 x = Ok k ->
  Py.le (Int (k * 25)) x = true.
Proof.
  destruct x as [z|f].
  - intros Hs Hk. cbn [small_nonneg] in Hs.
    apply andb_prop in Hs. destruct Hs as [H0 H1].
    apply Z.leb_le in H0, H1.
    pose proof (floor_div25_le_int z k ltac:(lia) Hk) as Hle.
    unfold Py.le, Py.compare.
    destruct (Z.compare_spec (k * 25) z); try reflexivity; lia.
  - apply floor_div25_le_float.
Qed.

(** A number between 75 and 450 is small and non-negative. *)
Lemma between_75_450_small (x : num) :
  Py.le (Int 75) x = true -> Py.le x (Int 450) = true ->
  small_nonneg x = true.
Proof.
  unfold Py.le, Py.compare. destruct x as [z|f]; cbn [small_nonneg].
  - intros H1 H2.
    destruct (Z.compare_spec 75 z); try discriminate;
      destruct (Z.compare_spec z 450); try discriminate;
      apply andb_true_intro; split; apply Z.leb_le; lia.
  - pose proof (Prim2SF_valid f) as Hvalid.
    destruct (Prim2SF f) as [s|s| |s m e]; cbn [Py.Z_SF_compare option_map].
    + discriminate.
    + destruct s; discriminate.
    + discriminate.
    + apply Rounding.valid_finite in Hvalid.
      pose proof (Rounding.digits2_pos_bounds m) as Hm.
      destruct s; cbn [Py.signed].
      * destruct (0 <=? e) eqn:E0; intros H1; exfalso.
        -- apply Z.leb_le in E0.
           assert (0 < 2 ^ e) by (apply Z.pow_pos_nonneg; lia).
           destruct (Z.compare_spec 75 (Zneg m * 2 ^ e));
             try discriminate; nia.
        -- apply Z.leb_gt in E0.
           assert (0 < 2 ^ (- e)) by (apply Z.pow_pos_nonneg; lia).
           destruct (Z.compare_spec (75 * 2 ^ (- e)) (Zneg m));
             try discriminate; nia.
      * intros _. destruct (0 <=? e) eqn:E0.
        -- apply Z.leb_le in E0. intros H2.
           destruct (Z.eq_dec e 0) as [->|Hne]; [reflexivity|].
           exfalso.
           assert (Zpos (digits2_pos m) = 53) as Hd by lia.
           rewrite Hd in Hm.
           assert (2 ^ 1 <= 2 ^ e) by (apply Z.pow_le_mono_r; lia).
           assert (2 ^ 52 = 4503599627370496) by reflexivity.
           destruct (Z.compare_spec 450 (Zpos m * 2 ^ e));
             try discriminate; nia.
        -- intros _. apply Z.leb_le. apply Z.leb_gt in E0. lia.
Qed.

(** ** Flexural reinforcement sizer *)

(** The spacing part of a flexural design that returned. *)
Lemma required_steel_of_spacing
    (hopt : option num) (dd : num) (mat : MaterialProperties)
    (bar : BarProperties) (Mu : num) (location : string) (st : steel) :
  required_steel_of hopt dd mat bar Mu location = Ok st ->
  exists (hh h3 n : num) (k : Z),
    hopt = Some hh /\
    Py.mul (Int 1000) (area bar) = Ok n /\
    Py.truediv n (st_As_final st) = Ok (st_spacing_req st) /\
    Py.mul (Int 3) hh = Ok h3 /\
    st_spacing_max st = Py.min (st_spacing_req st) (Py.min h3 (Int 450)) /\
    floor_div25 (st_spacing_max st) = Ok k /\
    st_spacing_final st = Z.max 75 (k * 25).
Proof.
  unfold required_steel_of. intros H. repeat step.
  destruct hopt as [hh|]; [|discriminate].
  cbn [Py.bound] in *. repeat step.
  cbn [st_As_final st_spacing_req st_spacing_max st_spacing_final].
  match goal with
  | Hn : Py.mul (Int 1000) (area bar) = Ok ?n,
    Hr : Py.truediv ?n (Py.max _ _) = Ok ?sr,
    H3 : Py.mul (Int 3) ?hv = Ok ?h3,
    Hq : Py.truediv (Py.min ?sr _) (Int 25) = Ok ?q,
    Hf : Py.floor ?q = Ok ?k |- _ =>
      exists hv, h3, n, k; repeat split; try assumption;
      unfold floor_div25; rewrite Hq; exact Hf
  end.
Qed.

Lemma calculate_required_steel_Some
    (w : world) (Mu : num) (location : string) (st : steel) :
  fst (calculate_required_steel Mu location w) = Ok (Some st) ->
  Py.le Mu (Int 0) = false /\
  exists dd,
    required_steel_of (h (self w)) dd (material (self w))
      (main_bar (self w)) Mu location = Ok st.
Proof.
  destruct (calculate_required_steel Mu location w) as [r w'] eqn:E.
  cbn [fst]. intros ->. unfold calculate_required_steel in E.
  attr_inv E dopt w0. bind_inv E u w1 Hpre.
  assert (Hsame : h (self w1) = h (self w) /\
                  material (self w1) = material (self w) /\
                  main_bar (self w1) = main_bar (self w)).
  { destruct (d (self w)).
    - apply ret_Ok in Hpre. destruct Hpre as [_ ->]. auto.
    - bind_inv Hpre x w2 Hd. apply ret_Ok in Hpre. destruct Hpre as [_ ->].
      destruct (calculate_effective_depth_spec _ _ _ Hd) as (? & _ & _ & F & _).
      rewrite F. auto. }
  destruct Hsame as (Eh & Em & Eb).
  destruct (Py.le Mu (Int 0)).
  - apply ret_Ok in E. destruct E as [E _]. discriminate.
  - split; [reflexivity|].
    need_inv E dd Hd. attr_inv E hopt w0. attr_inv E mat w0.
    attr_inv E bar w0. bind_inv E r w2 Hr.
    apply lift_Ok in Hr. destruct Hr as [Hr ->].
    apply ret_Ok in E. destruct E as [E _]. inversion E; subst r.
    exists dd. rewrite <- Eh, <- Em, <- Eb. exact Hr.
Qed.

(** C3, as amended.  For every flexural result the sizer produces (which it
    does only for a moment that is not <= 0), the final spacing is a
    multiple of 25, is at least 75, and equals max(75, floor(m / 25) * 25)
    where m = min(spacing_req, 3 * thickness, 450) and spacing_req =
    1000 * bar_area / As_final; it is at most m whenever m lies between 75
    and 450. *)
Theorem flexural_spacing_final
    (w : world) (Mu : num) (location : string) (st : steel) :
  fst (calculate_required_steel Mu location w) = Ok (Some st) ->
  Py.le Mu (Int 0) = false /\
  (25 | st_spacing_final st) /\
  75 <= st_spacing_final st /\
  (exists (hh h3 n : num) (k : Z),
     h (self w) = Some hh /\
     Py.mul (Int 1000) (area (main_bar (self w))) = Ok n /\
     Py.truediv n (st_As_final st) = Ok (st_spacing_req st) /\
     Py.mul (Int 3) hh = Ok h3 /\
     st_spacing_max st = Py.min (st_spacing_req st) (Py.min h3 (Int 450)) /\
     floor_div25 (st_spacing_max st) = Ok k /\
     st_spacing_final st = Z.max 75 (k * 25)) /\
  (Py.le (Int 75) (st_spacing_max st) = true ->
   Py.le (st_spacing_max st) (Int 450) = true ->
   Py.le (Int (st_spacing_final st)) (st_spacing_max st) = true).
Proof.
  intros H. destruct (calculate_required_steel_Some _ _ _ _ H) as (HMu & dd & Hr).
  destruct (required_steel_of_spacing _ _ _ _ _ _ _ Hr)
    as (hh & h3 & n & k & Hh & Hn & Hsr & H3 & Hmax & Hk & Hfin).
  split; [exact HMu|]. split; [|split; [|split]].
  - rewrite Hfin. destruct (Z.max_spec 75 (k * 25)) as [[_ ->]|[_ ->]].
    + exists k. reflexivity.
    + exists 3. reflexivity.
  - rewrite Hfin. lia.
  - exists hh, h3, n, k. repeat split; assumption.
  - intros H75 H450. rewrite Hfin.
    pose proof (floor_div25_le _ _ (between_75_450_small _ H75 H450) Hk) as Hle.
    destruct (Z.max_spec 75 (k * 25)) as [[_ ->]|[_ ->]]; assumption.
Qed.

Lemma flexural_spacing_final_witness :
  exists st,
    fst (calculate_required_steel (Float 18.375) "Positive Moment (Midspan)"
           (snd (design scenario_A))) = Ok (Some st) /\
    (Py.le (Float 18.375) (Int 0) = false /\
     (25 | st_spacing_final st) /\
     75 <= st_spacing_final st /\
     (exists (hh h3 n : num) (k : Z),
        h (self (snd (design scenario_A))) = Some hh /\
        Py.mul (Int 1000) (area (main_bar (self (snd (design scenario_A)))))
          = Ok n /\
        Py.truediv n (st_As_final st) = Ok (st_spacing_req st) /\
        Py.mul (Int 3) hh = Ok h3 /\
        st_spacing_max st
          = Py.min (st_spacing_req st) (Py.min h3 (Int 450)) /\
        floor_div25 (st_spacing_max st) = Ok k /\
        st_spacing_final st = Z.max 75 (k * 25)) /\
     (Py.le (Int 75) (st_spacing_max st) = true ->
      Py.le (st_spacing_max st) (Int 450) = true ->
      Py.le (Int (st_spacing_final st)) (st_spacing_max st) = true)).
Proof.
  eexists. split; [vm_compute; reflexivity|].
  apply (flexural_spacing_final (snd (design scenario_A)) (Float 18.375)
           "Positive Moment (Midspan)").
  vm_compute. reflexivity.
Defined.

(** C3 as stated fails: under a heavy load the required spacing is 32.48 mm,
    below the 75 mm floor, and the final spacing 75 exceeds
    min(spacing_req, 3 * thickness, 450). *)
Lemma flexural_spacing_above_required :
  exists r st,
    fst (design scenario_heavy) = Ok r /\
    r_moments r = [("Positive Moment (Midspan)", Float 211.5)] /\
    Py.gt (Float 211.5) (Int 0) = true /\
    r_reinforcement r = [("Positive Moment (Midspan)", st)] /\
    thickness r = Int 300 /\
    st_spacing_req st = Float 32.479954865729972 /\
    st_spacing_max st
      = Py.min (st_spacing_req st) (Py.min (Int (3 * 300)) (Int 450)) /\
    st_spacing_final st = 75 /\
    Py.le (Int (st_spacing_final st)) (st_spacing_max st) = false /\
    Py.gt (Int (st_spacing_final st)) (st_spacing_req st) = true.
Proof.
  eexists. eexists. split; [vm_compute; reflexivity|].
  repeat split; vm_compute; reflexivity.
Qed.

(** ** Signs of binary64 results *)

Module SignFacts.
Import Sign.

Lemma nonneg_nn (v : spec_float) : nonneg v = true -> nn v = true.
Proof. destruct v; cbn; auto. Qed.

Lemma round_nonneg (mx ex : Z) (lx : location) :
  0 <= mx -> nonneg (binary_round_aux prec emax false mx ex lx) = true.
Proof.
  intros Hm.
  destruct (Rounding.binary_round_aux_shape false mx ex lx Hm)
    as [->|[->|(m & e & ->)]]; reflexivity.
Qed.

Lemma binary_round_nonneg (m : positive) (e : Z) :
  nonneg (binary_round prec emax false m e) = true.
Proof.
  unfold binary_round. destruct (shl_align _ _ _) as [mz ez].
  apply round_nonneg. lia.
Qed.

Lemma binary_normalize_nonneg (z e : Z) :
  0 <= z -> nonneg (binary_normalize prec emax z e false) = true.
Proof.
  intros Hz. destruct z as [|p|p]; cbn [binary_normalize];
    [reflexivity|apply binary_round_nonneg|lia].
Qed.

Lemma SFmul_nn (a b : spec_float) :
  nn a = true -> nn b = true -> nn (SFmul prec emax a b) = true.
Proof.
  destruct a as [sa|sa| |sa ma ea], b as [sb|sb| |sb mb eb];
    cbn [nn nonneg SFmul]; try reflexivity; try discriminate;
    destruct sa, sb; try discriminate; try reflexivity.
  intros _ _. apply nonneg_nn, round_nonneg. lia.
Qed.

Lemma SFdiv_nn (a b : spec_float) :
  nn a = true -> nn b = true -> Py.is_zero_SF b = false ->
  nn (SFdiv prec emax a b) = true.
Proof.
  destruct a as [sa|sa| |sa ma ea], b as [sb|sb| |sb mb eb];
    cbn [nn nonneg SFdiv Py.is_zero_SF]; try reflexivity; try discriminate;
    destruct sa, sb; try discriminate; try reflexivity.
  intros _ _ _. destruct (SFdiv_core_binary _ _ _ _ _ _) as [[mz ez] lz] eqn:E.
  apply nonneg_nn, round_nonneg.
  unfold SFdiv_core_binary in E.
  match type of E with
  | (let '(q, r) := Z.div_eucl ?a ?b in _) = _ =>
      pose proof (Z.div_pos a b) as Hq; unfold Z.div in Hq;
      destruct (Z.div_eucl a b) as [q r] eqn:Ed
  end.
  inversion E; subst. apply Hq; [|lia].
  match goal with
  | |- 0 <= match ?s with _ => _ end =>
      destruct s; [lia| |lia]
  end.
  apply Z.shiftl_nonneg. lia.
Qed.

(** Converting back from the specification keeps the sign. *)
Lemma Prim2SF_of_uint63_nonneg (n : int) :
  nonneg (Prim2SF (of_uint63 n)) = true.
Proof.
  rewrite of_uint63_spec. apply binary_normalize_nonneg.
  apply Uint63.to_Z_bounded.
Qed.

Lemma SFldexp_nonneg (v : spec_float) (e : Z) :
  nonneg v = true -> nonneg (SFldexp prec emax v e) = true.
Proof.
  destruct v as [s|s| |s m ex]; cbn [SFldexp]; auto.
  cbn [nonneg]. destruct s; [discriminate|]. intros _.
  apply binary_round_nonneg.
Qed.

Lemma Prim2SF_SF2Prim_nonneg (v : spec_float) :
  nonneg v = true -> match v with S754_zero true => False | _ => True end ->
  nonneg (Prim2SF (SF2Prim v)) = true.
Proof.
  destruct v as [s|s| |s m e]; cbn [nonneg SF2Prim].
  - destruct s; [contradiction|]. intros _ _. reflexivity.
  - destruct s; [discriminate|]. intros _ _. reflexivity.
  - discriminate.
  - destruct s; [discriminate|]. intros _ _.
    unfold Z.ldexp. rewrite ldshiftexp_spec.
    apply SFldexp_nonneg, Prim2SF_of_uint63_nonneg.
Qed.

End SignFacts.

(** ** Numbers that are not negative *)

Lemma int_to_float_nonneg (z : Z) (f : float) :
  0 <= z -> Py.int_to_float z = Ok f -> Sign.nonneg (Prim2SF f) = true.
Proof.
  unfold Py.int_to_float, Py.Z2SF. intros Hz.
  destruct (Py.is_inf_SF _); [discriminate|]. intros H. inversion H.
  apply SignFacts.Prim2SF_SF2Prim_nonneg.
  - now apply SignFacts.binary_normalize_nonneg.
  - destruct z as [|p|p]; cbn [binary_normalize]; [exact I| |lia].
    unfold binary_round. destruct (shl_align _ _ _) as [mz ez].
    destruct (Rounding.binary_round_aux_shape false (Zpos mz) ez loc_Exact
                ltac:(lia)) as [->|[->|(m & e & ->)]]; exact I.
Qed.

Lemma to_float_nn (a : num) (f : float) :
  nnum a = true -> Py.to_float a = Ok f -> Sign.nn (Prim2SF f) = true.
Proof.
  destruct a as [z|g]; cbn [nnum Py.to_float].
  - intros Hz H. apply Z.leb_le in Hz.
    apply SignFacts.nonneg_nn. now apply (int_to_float_nonneg z).
  - intros Hg H. now inversion H; subst.
Qed.

Lemma mul_floats_nn (a b : num) (c : num) :
  nnum a = true -> nnum b = true ->
  (fa <- Py.to_float a ;; fb <- Py.to_float b ;;
   Ok (Float (fa * fb)%float))%res = Ok c ->
  nnum c = true.
Proof.
  intros Ha Hb H.
  destruct (Py.to_float a) as [fa|] eqn:Ea; [|discriminate].
  cbn [rbind] in H.
  destruct (Py.to_float b) as [fb|] eqn:Eb; [|discriminate].
  cbn [rbind] in H. inversion H; subst c. cbn [nnum].
  rewrite mul_spec. apply SignFacts.SFmul_nn; eauto using to_float_nn.
Qed.

Lemma nnum_mul (a b c : num) :
  nnum a = true -> nnum b = true -> Py.mul a b = Ok c -> nnum c = true.
Proof.
  intros Ha Hb. unfold Py.mul, Py.arith.
  destruct a as [x|f], b as [y|g]; try now apply mul_floats_nn.
  cbn [nnum] in Ha, Hb. apply Z.leb_le in Ha. apply Z.leb_le in Hb.
  intros H. inversion H. cbn [nnum]. apply Z.leb_le. nia.
Qed.

Lemma truediv_is_float (a b c : num) :
  Py.truediv a b = Ok c -> exists f, c = Float f.
Proof.
  unfold Py.truediv. destruct a as [x|f], b as [y|g]; intros H;
    repeat match type of H with
           | rbind ?r _ = _ => destruct r; cbn [rbind] in H; [|discriminate]
           | (if ?b then _ else _) = _ => destruct b; [discriminate|]
           end; inversion H; eauto.
Qed.

Lemma Ok_Float_inv (f : float) (c : num) :
  Ok (Float f) = Ok c -> c = Float f.
Proof. intros H. now inversion H. Qed.

Lemma nnum_truediv (a b c : num) :
  nnum a = true -> nnum b = true -> Py.truediv a b = Ok c -> nnum c = true.
Proof.
  intros Ha Hb. unfold Py.truediv.
  destruct a as [x|f], b as [y|g].
  - cbn [nnum] in Ha, Hb. apply Z.leb_le in Ha. apply Z.leb_le in Hb.
    unfold Py.int_truediv.
    destruct (y =? 0); [discriminate|].
    destruct (x =? 0) eqn:Ex.
    + assert ((y <? 0) = false) as -> by (apply Z.ltb_ge; lia).
      intros H. inversion H. reflexivity.
    + apply Z.eqb_neq in Ex.
      assert ((x <? 0) = false) as -> by (apply Z.ltb_ge; lia).
      assert ((y <? 0) = false) as -> by (apply Z.ltb_ge; lia).
      cbn [SFdiv].
      destruct (SFdiv_core_binary _ _ _ _ _ _) as [[mz ez] lz] eqn:E.
      assert (Hmz : 0 <= mz).
      { unfold SFdiv_core_binary in E.
        match type of E with
        | (let '(q, r) := Z.div_eucl ?a ?b in _) = _ =>
            pose proof (Z.div_pos a b) as Hq; unfold Z.div in Hq;
            destruct (Z.div_eucl a b) as [q r] eqn:Ed
        end.
        inversion E; subst. apply Hq; [|lia].
        match goal with
        | |- 0 <= match ?s with _ => _ end => destruct s; [lia| |lia]
        end.
        apply Z.shiftl_nonneg. lia. }
      cbn [xorb].
      destruct (Rounding.binary_round_aux_shape false mz ez lz Hmz)
        as [->|[->|(m & e & ->)]]; cbn [Py.is_inf_SF rbind];
        try discriminate; intros H; apply Ok_Float_inv in H; subst c;
        cbn [nnum];
        apply SignFacts.nonneg_nn, SignFacts.Prim2SF_SF2Prim_nonneg;
        try reflexivity; exact I.
  - intros H. change (Py.to_float (Float g)) with (Ok g) in H.
    destruct (Py.to_float (Int x)) as [fa|] eqn:Ea;
      cbn [rbind] in H; [|discriminate].
    destruct (Py.is_zero_SF (Prim2SF g)) eqn:Ez; [discriminate|].
    inversion H; subst c. cbn [nnum]. rewrite div_spec.
    apply SignFacts.SFdiv_nn; eauto using to_float_nn.
  - intros H. change (Py.to_float (Float f)) with (Ok f) in H.
    cbn [rbind] in H.
    destruct (Py.to_float (Int y)) as [fb|] eqn:Eb;
      cbn [rbind] in H; [|discriminate].
    destruct (Py.is_zero_SF (Prim2SF fb)) eqn:Ez; [discriminate|].
    inversion H; subst c. cbn [nnum]. rewrite div_spec.
    apply SignFacts.SFdiv_nn; eauto using to_float_nn.
  - intros H. cbn [Py.to_float rbind] in H.
    destruct (Py.is_zero_SF (Prim2SF g)) eqn:Ez; [discriminate|].
    inversion H; subst c. cbn [nnum]. rewrite div_spec.
    apply SignFacts.SFdiv_nn; assumption.
Qed.

(** A number above zero: a positive int, or a float that is positive and
    finite or is +infinity. *)
Lemma gt_zero_cases (a : num) :
  Py.gt a (Int 0) = true ->
  match a with
  | Int z => 0 < z
  | Float f =>
      match Prim2SF f with
      | S754_finite false _ _ | S754_infinity false => True
      | _ => False
      end
  end.
Proof.
  unfold Py.gt, Py.compare. destruct a as [z|f].
  - destruct (Z.compare_spec z 0); try discriminate. lia.
  - destruct (Prim2SF f) as [s|s| |s m e];
      cbn [Py.Z_SF_compare option_map CompOpp]; try discriminate.
    + destruct s; [discriminate|trivial].
    + destruct s; [|trivial]. cbn [Py.signed].
      destruct (0 <=? e) eqn:E0; intros H; exfalso.
      * apply Z.leb_le in E0.
        assert (0 < 2 ^ e) by (apply Z.pow_pos_nonneg; lia).
        destruct (Z.compare_spec 0 (Zneg m * 2 ^ e)); try discriminate; nia.
      * destruct (Z.compare_spec (0 * 2 ^ (- e)) (Zneg m));
          try discriminate; lia.
Qed.

Lemma gt_zero_nnum (a : num) : Py.gt a (Int 0) = true -> nnum a = true.
Proof.
  intros H. apply gt_zero_cases in H. destruct a as [z|f]; cbn [nnum].
  - apply Z.leb_le. lia.
  - destruct (Prim2SF f) as [s|s| |s m e]; try contradiction;
      destruct s; try contradiction; reflexivity.
Qed.

(** ** Shrinkage reinforcement sizer *)

(** A valid finite float with a positive exponent is at least 2^53. *)
Lemma valid_positive_exponent (s : bool) (m : positive) (e : Z) :
  valid_binary (S754_finite s m e) = true -> 1 <= e ->
  2 ^ 53 <= Zpos m * 2 ^ e.
Proof.
  intros Hv He. apply Rounding.valid_finite in Hv.
  pose proof (Rounding.digits2_pos_bounds m) as Hm.
  assert (Zpos (digits2_pos m) = 53) as Hd by lia. rewrite Hd in Hm.
  assert (2 ^ 1 <= 2 ^ e) by (apply Z.pow_le_mono_r; lia).
  change (2 ^ 53) with (2 ^ 52 * 2 ^ 1). change (53 - 1) with 52 in Hm.
  nia.
Qed.

Lemma Ok_inj {A} (a b : A) : Ok a = Ok b -> a = b.
Proof. intros H. now injection H. Qed.

(** min(5 * h, 450) for a thickness above zero. *)
Lemma code_max_small (hh h5 : num) :
  Py.gt hh (Int 0) = true -> Py.mul (Int 5) hh = Ok h5 ->
  small_nonneg (Py.min h5 (Int 450)) = true.
Proof.
  intros Hgt Hmul. apply gt_zero_cases in Hgt.
  unfold Py.mul, Py.arith in Hmul. destruct hh as [z|f].
  - apply Ok_inj in Hmul. subst h5. unfold Py.min, Py.lt, Py.compare.
    destruct (Z.compare_spec 450 (5 * z)); cbn [small_nonneg];
      apply andb_true_intro; split; apply Z.leb_le; lia.
  - change (Py.to_float (Int 5)) with (Ok 5%float) in Hmul.
    cbn [Py.to_float rbind] in Hmul. apply Ok_inj in Hmul. subst h5.
    unfold Py.min, Py.lt, Py.compare.
    pose proof (Prim2SF_valid (5 * f)) as Hvalid.
    assert (Hshape : Sign.nonneg (Prim2SF (5 * f)) = true).
    { rewrite mul_spec. change (Prim2SF 5) with
        (S754_finite false 5629499534213120 (-50)).
      destruct (Prim2SF f) as [s|s| |s m e]; try contradiction;
        destruct s; try contradiction; cbn [SF64mul SFmul].
      - reflexivity.
      - apply SignFacts.round_nonneg. lia. }
    destruct (Prim2SF (5 * f)) as [s|s| |s m e] eqn:E;
      cbn [Py.Z_SF_compare Sign.nonneg] in *; try discriminate.
    + change (450 ?= 0) with Gt. cbn [small_nonneg]. now rewrite E.
    + destruct s; [discriminate|]. reflexivity.
    + destruct s; [discriminate|]. cbn [Py.signed].
      destruct (0 <=? e) eqn:E0.
      * apply Z.leb_le in E0.
        destruct (Z.compare_spec 450 (Zpos m * 2 ^ e)); try reflexivity;
          cbn [small_nonneg]; rewrite E; apply Z.leb_le;
          destruct (Z_le_gt_dec e 0); try assumption; exfalso;
          pose proof (valid_positive_exponent _ _ _ Hvalid ltac:(lia));
          assert (450 < 2 ^ 53) by reflexivity; lia.
      * apply Z.leb_gt in E0.
        destruct (Z.compare_spec (450 * 2 ^ (- e)) (Zpos m)); try reflexivity;
          cbn [small_nonneg]; rewrite E; apply Z.leb_le; lia.
Qed.

(** floor(x / 25) raises on a NaN and on an infinity. *)
Lemma floor_div25_finite (s : float) (k : Z) :
  floor_div25 (Float s) = Ok k ->
  match Prim2SF s with
  | S754_nan | S754_infinity _ => False
  | _ => True
  end.
Proof.
  unfold floor_div25, Py.truediv.
  destruct Rounding.Prim2SF_25 as [-> E25]. cbn [Py.to_float rbind].
  rewrite E25. cbn [Py.is_zero_SF rbind Py.floor].
  rewrite div_spec, E25. unfold SF64div.
  destruct (Prim2SF s) as [s0|s0| |s0 m e]; cbn [SFdiv Py.SF_floor];
    try discriminate; trivial.
Qed.

(** min(spacing_req, code_max) when it could be floored. *)
Lemma spacing_max_small (sr : float) (c : num) (k : Z) :
  small_nonneg c = true -> nnum (Float sr) = true ->
  floor_div25 (Py.min (Float sr) c) = Ok k ->
  small_nonneg (Py.min (Float sr) c) = true.
Proof.
  intros Hc Hsr. unfold Py.min.
  destruct (Py.lt c (Float sr)) eqn:Hlt; [intros _; exact Hc|].
  intros Hk. apply floor_div25_finite in Hk.
  cbn [nnum] in Hsr. cbn [small_nonneg].
  pose proof (Prim2SF_valid sr) as Hvalid.
  destruct (Prim2SF sr) as [s|s| |s m e] eqn:E; try contradiction;
    [reflexivity|].
  cbn [Sign.nn Sign.nonneg] in Hsr. destruct s; [discriminate|].
  apply Z.leb_le. destruct (Z_le_gt_dec e 0) as [|He]; [assumption|].
  exfalso. unfold Py.lt, Py.compare in Hlt.
  destruct c as [cz|g].
  - cbn [small_nonneg] in Hc. apply andb_prop in Hc. destruct Hc as [_ Hc].
    apply Z.leb_le in Hc. rewrite E in Hlt.
    cbn [Py.Z_SF_compare Py.signed] in Hlt.
    assert ((0 <=? e) = true) as E0 by (apply Z.leb_le; lia).
    rewrite E0 in Hlt.
    pose proof (valid_positive_exponent _ _ _ Hvalid ltac:(lia)).
    assert (450 < 2 ^ 53) by reflexivity.
    destruct (Z.compare_spec cz (Zpos m * 2 ^ e)); try discriminate; lia.
  - cbn [small_nonneg] in Hc. rewrite E in Hlt.
    destruct (Prim2SF g) as [sg|sg| |sg mg eg]; try discriminate.
    destruct sg; [discriminate|]. apply Z.leb_le in Hc.
    cbn [SFcompare] in Hlt.
    destruct (Z.compare_spec eg e); try discriminate; lia.
Qed.

Lemma catalog_area_nnum (name : string) (bar : BarProperties) :
  BarProperties_init name = Ok bar -> nnum (area bar) = true.
Proof.
  unfold BarProperties_init, BAR_DATA. cbn [dict_get].
  repeat match goal with
         | |- context [String.eqb name ?k] =>
             destruct (String.eqb name k);
             [intros H; apply Ok_inj in H; subst bar; reflexivity|]
         end.
  discriminate.
Qed.

Lemma As_sh_req_nnum (fy_ Ag As : num) :
  nnum fy_ = true -> nnum Ag = true ->
  As_sh_req_of fy_ Ag = Ok As -> nnum As = true.
Proof.
  intros Hfy HAg. unfold As_sh_req_of.
  destruct (Py.lt fy_ (Int 420)).
  - apply nnum_mul; [vm_compute; reflexivity|assumption].
  - intros H.
    destruct (Py.mul (Float 0.0018) (Int 420)) as [k|] eqn:Ek;
      cbn [rbind] in H; [|discriminate].
    destruct (Py.truediv k fy_) as [r|] eqn:Er;
      cbn [rbind] in H; [|discriminate].
    assert (Nc : nnum (Float 0.0018) = true) by (vm_compute; reflexivity).
    assert (Nk : nnum k = true)
      by (apply (nnum_mul (Float 0.0018) (Int 420) k Nc eq_refl Ek)).
    assert (nnum r = true) by (apply (nnum_truediv _ _ _ Nk Hfy Er)).
    now apply (nnum_mul r Ag).
Qed.

Lemma calculate_shrinkage_steel_eq (w : world) (hh : num) :
  h (self w) = Some hh ->
  calculate_shrinkage_steel w =
    (shrinkage_steel_of hh (material (self w)) (shrinkage_bar (self w)), w).
Proof.
  intros Hh. unfold calculate_shrinkage_steel, bind, need, attr, lift.
  cbv beta iota. rewrite Hh. reflexivity.
Qed.

(** C8. For every valid input (thickness, fy above zero, a catalog bar) on
    which the shrinkage sizer returns, the area is 0.0020 * Ag when
    fy < 420 and 0.0018 * 420 / fy * Ag otherwise, with Ag = 1000 * h; the
    final spacing is floor(m / 25) * 25 where m = min(1000 * bar_area /
    As_req, 5 * h, 450), with no 75 mm floor: a multiple of 25 that is
    at most m. *)
Theorem shrinkage_spacing_final
    (w : world) (hh : num) (name : string) (r : shrink) :
  h (self w) = Some hh ->
  Py.gt hh (Int 0) = true ->
  Py.gt (fy (material (self w))) (Int 0) = true ->
  BarProperties_init name = Ok (shrinkage_bar (self w)) ->
  fst (calculate_shrinkage_steel w) = Ok r ->
  exists (Ag h5 n : num) (k : Z),
    Py.mul (Int 1000) hh = Ok Ag /\
    (Py.lt (fy (material (self w))) (Int 420) = true ->
     Py.mul (Float 0.0020) Ag = Ok (sh_As_req r)) /\
    (Py.lt (fy (material (self w))) (Int 420) = false ->
     exists c q, Py.mul (Float 0.0018) (Int 420) = Ok c /\
                 Py.truediv c (fy (material (self w))) = Ok q /\
                 Py.mul q Ag = Ok (sh_As_req r)) /\
    Py.mul (Int 1000) (area (shrinkage_bar (self w))) = Ok n /\
    Py.truediv n (sh_As_req r) = Ok (sh_spacing_req r) /\
    Py.mul (Int 5) hh = Ok h5 /\
    sh_spacing_max r = Py.min (sh_spacing_req r) (Py.min h5 (Int 450)) /\
    floor_div25 (sh_spacing_max r) = Ok k /\
    sh_spacing_final r = k * 25 /\
    (25 | sh_spacing_final r) /\
    sh_spacing_final r <> 0 /\
    Py.le (Int (sh_spacing_final r)) (sh_spacing_max r) = true.
Proof.
  intros Hh Hhpos Hfy Hbar Hr.
  rewrite (calculate_shrinkage_steel_eq w hh Hh) in Hr. cbn [fst] in Hr.
  set (mat := material (self w)) in *.
  set (bar := shrinkage_bar (self w)) in *.
  unfold shrinkage_steel_of in Hr.
  destruct (Py.mul (Int 1000) hh) as [Ag|] eqn:EAg;
    cbn [rbind] in Hr; [|discriminate].
  destruct (As_sh_req_of (fy mat) Ag) as [As|] eqn:EAs;
    cbn [rbind] in Hr; [|discriminate].
  destruct (Py.mul (Int 1000) (area bar)) as [n|] eqn:En;
    cbn [rbind] in Hr; [|discriminate].
  destruct (Py.truediv n As) as [sr|] eqn:Esr;
    cbn [rbind] in Hr; [|discriminate].
  destruct (Py.mul (Int 5) hh) as [h5|] eqn:Eh5;
    cbn [rbind] in Hr; [|discriminate].
  destruct (Py.truediv (Py.min sr (Py.min h5 (Int 450))) (Int 25))
    as [q|] eqn:Eq; cbn [rbind] in Hr; [|discriminate].
  destruct (Py.floor q) as [k|] eqn:Ek; cbn [rbind] in Hr; [|discriminate].
  destruct (Py.truediv n (Int (k * 25))) as [prov|] eqn:Eprov;
    cbn [rbind] in Hr; [|discriminate].
  apply Ok_inj in Hr. subst r.
  cbn [sh_As_req sh_spacing_req sh_spacing_max sh_spacing_final].
  assert (Hfloor : floor_div25 (Py.min sr (Py.min h5 (Int 450))) = Ok k)
    by (unfold floor_div25; rewrite Eq; exact Ek).
  (* signs *)
  pose proof (gt_zero_nnum _ Hhpos) as Nh.
  pose proof (gt_zero_nnum _ Hfy) as Nfy.
  pose proof (nnum_mul (Int 1000) hh Ag eq_refl Nh EAg) as NAg.
  pose proof (As_sh_req_nnum _ _ _ Nfy NAg EAs) as NAs.
  pose proof (nnum_mul (Int 1000) (area bar) n eq_refl
                (catalog_area_nnum _ _ Hbar) En) as Nn.
  pose proof (nnum_truediv _ _ _ Nn NAs Esr) as Nsr.
  destruct (truediv_is_float _ _ _ Esr) as [fsr ->].
  pose proof (code_max_small _ _ Hhpos Eh5) as Hc.
  pose proof (spacing_max_small _ _ _ Hc Nsr Hfloor) as Hsmall.
  exists Ag, h5, n, k.
  split; [reflexivity|]. unfold As_sh_req_of in EAs.
  split; [intros Hlt; now rewrite Hlt in EAs|].
  split.
  { intros Hlt. rewrite Hlt in EAs.
    destruct (Py.mul (Float 0.0018) (Int 420)) as [c|] eqn:Ec;
      cbn [rbind] in EAs; [|discriminate].
    destruct (Py.truediv c (fy mat)) as [qq|] eqn:Eqq;
      cbn [rbind] in EAs; [|discriminate].
    exists c, qq. auto. }
  repeat (split; [first [reflexivity | assumption]|]).
  split; [exists k; reflexivity|]. split.
  - intros Hz. rewrite Hz in Eprov.
    destruct n; cbn in Eprov; discriminate.
  - now apply floor_div25_le.
Qed.

Lemma shrinkage_spacing_final_witness :
  exists r,
    fst (calculate_shrinkage_steel (snd (design scenario_deep))) = Ok r /\
    sh_spacing_final r = 25 /\
    exists (Ag h5 n : num) (k : Z),
      Py.mul (Int 1000) (Int 1000) = Ok Ag /\
      (Py.lt (fy (material (self (snd (design scenario_deep))))) (Int 420)
         = true ->
       Py.mul (Float 0.0020) Ag = Ok (sh_As_req r)) /\
      (Py.lt (fy (material (self (snd (design scenario_deep))))) (Int 420)
         = false ->
       exists c q, Py.mul (Float 0.0018) (Int 420) = Ok c /\
                   Py.truediv c
                     (fy (material (self (snd (design scenario_deep)))))
                     = Ok q /\
                   Py.mul q Ag = Ok (sh_As_req r)) /\
      Py.mul (Int 1000)
        (area (shrinkage_bar (self (snd (design scenario_deep))))) = Ok n /\
      Py.truediv n (sh_As_req r) = Ok (sh_spacing_req r) /\
      Py.mul (Int 5) (Int 1000) = Ok h5 /\
      sh_spacing_max r = Py.min (sh_spacing_req r) (Py.min h5 (Int 450)) /\
      floor_div25 (sh_spacing_max r) = Ok k /\
      sh_spacing_final r = k * 25 /\
      (25 | sh_spacing_final r) /\
      sh_spacing_final r <> 0 /\
      Py.le (Int (sh_spacing_final r)) (sh_spacing_max r) = true.
Proof.
  eexists. split; [vm_compute; reflexivity|]. split; [reflexivity|].
  apply (shrinkage_spacing_final (snd (design scenario_deep)) (Int 1000) "#10");
    vm_compute; reflexivity.
Defined.

Module RoundingBelow.
Import Rounding.

(** Rounding a mantissa of at most 54 bits never ends below the mantissa
    truncated to the exponent of the result, and overflows only from an
    exponent above 969. *)
Lemma binary_round_aux_lower
    (sx : bool) (mz ez : Z) (lz : location) :
  0 <= mz < 2 ^ 54 -> -1074 <= ez ->
  match binary_round_aux prec emax sx mz ez lz with
  | S754_zero _ => mz / 4 = 0
  | S754_finite _ m3 e3 =>
      ez <= e3 <= ez + 2 /\ mz / 2 ^ (e3 - ez) <= Zpos m3
  | S754_infinity _ => 969 < ez
  | S754_nan => False
  end.
Proof.
  intros Hmz Hez. unfold binary_round_aux, shr_fexp.
  rewrite !fexp_eq.
  pose proof (Zdigits2_le mz 54 Hmz ltac:(lia)) as Hd.
  pose proof (Zdigits2_nonneg mz ltac:(lia)) as Hd0.
  destruct (shr_at_most_one (shr_record_of_loc mz lz) ez
              (Z.max (Zdigits2 mz + ez - 53) (-1074) - ez) ltac:(lia))
    as [[Hn1 ->]|[Hn1 ->]].
  - cbv beta iota.
    rewrite shr_record_of_loc_m, loc_of_shr_record_of_loc.
    pose proof (round_nearest_even_bounds mz lz) as Hr.
    set (m2 := round_nearest_even mz lz) in *.
    assert (Hmz53 : mz < 2 ^ 53)
      by (apply Zdigits2_lt_pow; lia).
    assert (Hm2 : 0 <= m2 < 2 ^ 54) by lia.
    pose proof (Zdigits2_le m2 54 Hm2 ltac:(lia)) as Hd2.
    rewrite ?fexp_eq.
    destruct (shr_at_most_one (shr_record_of_loc m2 loc_Exact) ez
                (Z.max (Zdigits2 m2 + ez - 53) (-1074) - ez) ltac:(lia))
      as [[Hn2 ->]|[Hn2 ->]]; cbv beta iota.
    + cbn [shr_record_of_loc shr_m].
      destruct m2 as [|p|p]; [| |lia].
      * assert (mz = 0) by lia. subst mz. reflexivity.
      * destruct (Z.leb_spec (ez) (emax - prec)) as [Hle|Hgt];
          [|change (emax - prec) with 971 in Hgt; lia].
        split; [lia|]. replace (ez - ez) with 0 by lia.
        change (2 ^ 0) with 1. rewrite Z.div_1_r. lia.
    + cbn [shr_record_of_loc]. rewrite shr_1_nonneg by lia. cbn [shr_m].
      assert (Hmono : mz / 2 <= m2 / 2) by (apply Z.div_le_mono; lia).
      destruct (m2 / 2) as [|p|p] eqn:Eq.
      * assert (0 <= mz / 2) by (apply Z.div_pos; lia).
        assert (mz / 2 = 0) as Hz by lia.
        replace 4 with (2 * 2) by reflexivity.
        rewrite <- Z.div_div by lia. rewrite Hz. reflexivity.
      * destruct (Z.leb_spec (ez + 1) (emax - prec)) as [Hle|Hgt];
          [|change (emax - prec) with 971 in Hgt; lia].
        split; [lia|]. replace (ez + 1 - ez) with 1 by lia.
        change (2 ^ 1) with 2. lia.
      * assert (0 <= m2 / 2) by (apply Z.div_pos; lia). lia.
  - assert (Hrec : exists r0 s0,
               shr_record_of_loc mz lz =
                 {| shr_m := mz; shr_r := r0; shr_s := s0 |})
      by (destruct lz as [|[| |]]; cbn; eauto).
    destruct Hrec as (r0 & s0 & ->).
    rewrite shr_1_nonneg by lia. cbv beta iota. cbn [shr_m].
    set (l1 := loc_of_shr_record _).
    pose proof (round_nearest_even_bounds (mz / 2) l1) as Hr.
    assert (Hhalf : 2 * round_nearest_even (mz / 2) l1 <= mz + 1).
    { pose proof (Z.div_mod mz 2 ltac:(lia)) as Hdm.
      pose proof (Z.mod_pos_bound mz 2 ltac:(lia)) as Hmod.
      subst l1. cbn [loc_of_shr_record].
      destruct (Z.odd mz) eqn:Hodd.
      - rewrite Zmod_odd, Hodd in Hdm.
        pose proof (round_nearest_even_bounds (mz / 2)
                      (if r0 || s0 then loc_Inexact Gt else loc_Inexact Eq)).
        destruct (r0 || s0); lia.
      - destruct (r0 || s0); cbn [round_nearest_even]; lia. }
    set (m2 := round_nearest_even (mz / 2) l1) in *.
    assert (Hdiv : 0 <= mz / 2) by (apply Z.div_pos; lia).
    assert (Hm2 : 0 <= m2 < 2 ^ 54) by lia.
    pose proof (Zdigits2_le m2 54 Hm2 ltac:(lia)) as Hd2.
    pose proof (Zdigits2_nonneg m2 ltac:(lia)) as Hd20.
    rewrite ?fexp_eq.
    destruct (shr_at_most_one (shr_record_of_loc m2 loc_Exact) (ez + 1)
                (Z.max (Zdigits2 m2 + (ez + 1) - 53) (-1074) - (ez + 1))
                ltac:(lia))
      as [[Hn2 ->]|[Hn2 ->]]; cbv beta iota.
    + cbn [shr_record_of_loc shr_m].
      destruct m2 as [|p|p]; [| |lia].
      * assert (mz / 2 = 0) as Hz by lia.
        replace 4 with (2 * 2) by reflexivity.
        rewrite <- Z.div_div by lia. rewrite Hz. reflexivity.
      * destruct (Z.leb_spec (ez + 1) (emax - prec)) as [Hle|Hgt];
          [|change (emax - prec) with 971 in Hgt; lia].
        split; [lia|]. replace (ez + 1 - ez) with 1 by lia.
        change (2 ^ 1) with 2. lia.
    + cbn [shr_record_of_loc]. rewrite shr_1_nonneg by lia. cbn [shr_m].
      assert (Hmono : mz / 2 / 2 <= m2 / 2) by (apply Z.div_le_mono; lia).
      rewrite Z.div_div in Hmono by lia. change (2 * 2) with 4 in Hmono.
      assert (0 <= mz / 4) by (apply Z.div_pos; lia).
      destruct (m2 / 2) as [|p|p] eqn:Eq.
      * lia.
      * destruct (Z.leb_spec (ez + 1 + 1) (emax - prec)) as [Hle|Hgt];
          [|change (emax - prec) with 971 in Hgt; lia].
        split; [lia|]. replace (ez + 1 + 1 - ez) with 2 by lia.
        change (2 ^ 2) with 4. lia.
      * assert (0 <= m2 / 2) by (apply Z.div_pos; lia). lia.
Qed.

End RoundingBelow.

Module FloorBelow.
Import Rounding.

(** Floor of the rounded quotient by 25: one more step of 25 is above the
    dividend. *)
Lemma floor_SFdiv_25_lower (mx : positive) (ex : Z) :
  Z.max (Zpos (digits2_pos mx) + ex - 53) (-1074) = ex ->
  ex <= 0 ->
  exists k,
    Py.SF_floor (SFdiv prec emax (S754_finite false mx ex)
                   (S754_finite false m25 (-48))) = Ok k /\
    0 <= k /\
    Zpos mx < (k + 1) * 25 * 2 ^ (- ex).
Proof.
  intros Hval Hex. cbn [SFdiv]. unfold SFdiv_core_binary.
  change (Zdigits2 (Zpos m25)) with 53.
  change (Zdigits2 (Zpos mx)) with (Zpos (digits2_pos mx)).
  rewrite fexp_eq.
  set (d1 := Zpos (digits2_pos mx)) in *.
  assert (Hd1 : 1 <= d1) by (subst d1; lia).
  set (ez := Z.min (Z.max (d1 + ex - (53 + -48) - 53) (-1074)) (ex - -48)).
  set (sh := ex - -48 - ez).
  assert (Hsh : 0 <= sh) by lia.
  assert (Hm' : match sh with
                | 0 => Zpos mx
                | Zpos _ => Z.shiftl (Zpos mx) sh
                | Zneg _ => 0
                end = Zpos mx * 2 ^ sh).
  { destruct sh as [|p|p] eqn:Es; [cbn; lia| |lia].
    apply Z.shiftl_mul_pow2. lia. }
  rewrite Hm'. clear Hm'.
  destruct (Z.div_eucl (Zpos mx * 2 ^ sh) (Zpos m25)) as [q r] eqn:Ediv.
  assert (Hq : q = Zpos mx * 2 ^ sh / Zpos m25)
    by (unfold Z.div; now rewrite Ediv).
  pose proof (digits2_pos_bounds mx) as Hmx. fold d1 in Hmx.
  assert (Hpow : 0 < 2 ^ sh) by (apply Z.pow_pos_nonneg; lia).
  assert (Hq0 : 0 <= q) by (subst q; apply Z.div_pos; lia).
  assert (Hqlt : Zpos mx * 2 ^ sh < (q + 1) * Zpos m25).
  { pose proof (Z.div_mod (Zpos mx * 2 ^ sh) (Zpos m25) ltac:(lia)) as Hdm.
    pose proof (Z.mod_pos_bound (Zpos mx * 2 ^ sh) (Zpos m25) ltac:(lia)).
    rewrite <- Hq in Hdm. lia. }
  assert (Hq54 : q < 2 ^ 54).
  { subst q. apply Z.div_lt_upper_bound; [lia|].
    assert (Zpos mx * 2 ^ sh < 2 ^ d1 * 2 ^ sh) by nia.
    rewrite <- Z.pow_add_r in H by lia.
    assert (2 ^ (d1 + sh) <= 2 ^ 106) by (apply Z.pow_le_mono_r; lia).
    assert (2 ^ 106 <= Zpos m25 * 2 ^ 54) by (vm_compute; discriminate).
    lia. }
  assert (Hez5 : ez <= -5) by lia.
  assert (Hez : -1074 <= ez) by lia.
  pose proof (RoundingBelow.binary_round_aux_lower (xorb false false) q ez
                (new_location (Zpos m25) r) ltac:(lia) Hez) as Hlow.
  set (t := - ez) in *.
  assert (Ht : 5 <= t) by lia.
  assert (HT : 0 < 2 ^ t) by (apply Z.pow_pos_nonneg; lia).
  (* the floor is at least the quotient's integer part *)
  assert (Hn : exists kk, Py.SF_floor
                (binary_round_aux prec emax (xorb false false) q ez
                   (new_location (Zpos m25) r)) = Ok kk /\
              q / 2 ^ t <= kk).
  { destruct (binary_round_aux prec emax (xorb false false) q ez
                (new_location (Zpos m25) r))
      as [s3|s3| |s3 m3 e3] eqn:Er; cbn [Py.SF_floor];
      [|lia|contradiction|].
    - exists 0. split; [reflexivity|].
      assert (2 ^ 2 <= 2 ^ t) by (apply Z.pow_le_mono_r; lia).
      change (2 ^ 2) with 4 in *.
      assert (q < 4).
      { destruct (Z_lt_ge_dec q 4); [assumption|]. exfalso.
        assert (1 <= q / 4) by (apply Z.div_le_lower_bound; lia). lia. }
      rewrite Z.div_small by lia. lia.
    - destruct Hlow as [He3 Hm3].
      pose proof (binary_round_aux_upper _ _ _ _ _ _ _
                    (conj Hq0 Hq54) Hez Er) as (-> & _ & _).
      cbn [xorb Py.signed].
      assert ((0 <=? e3) = false) as E0 by (apply Z.leb_gt; lia).
      rewrite E0. eexists. split; [reflexivity|].
      replace t with ((e3 - ez) + - e3) by lia.
      rewrite Z.pow_add_r by lia.
      rewrite <- Z.div_div;
        [|apply Z.pow_nonzero; lia|apply Z.pow_pos_nonneg; lia].
      apply Z.div_le_mono; [apply Z.pow_pos_nonneg; lia|exact Hm3]. }
  destruct Hn as (k & Hfloor & Hn). exists k. split; [exact Hfloor|].
  assert (Hk0 : 0 <= k).
  { assert (0 <= q / 2 ^ t) by (apply Z.div_pos; lia). lia. }
  split; [exact Hk0|].
  (* q < (k + 1) * 2^t *)
  assert (Hqk : q < (k + 1) * 2 ^ t).
  { pose proof (Z.div_mod q (2 ^ t) ltac:(lia)) as Hdm.
    pose proof (Z.mod_pos_bound q (2 ^ t) HT). nia. }
  assert (HP : 0 < 2 ^ (- ex)) by (apply Z.pow_pos_nonneg; lia).
  assert (E48 : Zpos m25 = 25 * 2 ^ 48) by reflexivity.
  assert (Esh : 2 ^ sh * 2 ^ (- ex) = 2 ^ 48 * 2 ^ t).
  { rewrite <- !Z.pow_add_r by lia. f_equal. lia. }
  assert (0 < 2 ^ 48) by reflexivity.
  (* mx * 2^sh < (q+1) * 25 * 2^48 <= (k+1) * 2^t * 25 * 2^48 *)
  assert (H1 : Zpos mx * 2 ^ sh < (k + 1) * 2 ^ t * (25 * 2 ^ 48)).
  { rewrite E48 in Hqlt. nia. }
  assert (H2 : Zpos mx * (2 ^ sh * 2 ^ (- ex))
               < (k + 1) * 25 * 2 ^ (- ex) * (2 ^ 48 * 2 ^ t)).
  { rewrite Esh.
    replace (Zpos mx * (2 ^ 48 * 2 ^ t))
      with (Zpos mx * (2 ^ sh * 2 ^ (- ex))) by (now rewrite Esh).
    nia. }
  rewrite Esh in H2. nia.
Qed.

End FloorBelow.

(** ** The floor to a multiple of 25 is exact *)

Lemma floor_div25_exact_upto_450 :
  forallb (fun z => match floor_div25 (Int z) with
                    | Ok k => (0 <=? k) && (k * 25 <=? z) && (z <? k * 25 + 25)
                    | Raise _ => false
                    end) (map Z.of_nat (seq 0 451)) = true.
Proof. vm_compute. reflexivity. Qed.

Lemma floor_div25_exact_int (z : Z) :
  0 <= z <= 450 ->
  exists k, floor_div25 (Int z) = Ok k /\ 0 <= k /\
            k * 25 <= z < k * 25 + 25.
Proof.
  intros Hz. pose proof floor_div25_exact_upto_450 as Hall.
  rewrite forallb_forall in Hall.
  assert (Hin : In z (map Z.of_nat (seq 0 451))).
  { apply in_map_iff. exists (Z.to_nat z). split; [lia|].
    apply in_seq. lia. }
  specialize (Hall z Hin). cbv beta in Hall.
  destruct (floor_div25 (Int z)) as [k|]; [|discriminate].
  apply andb_prop in Hall. destruct Hall as [Hall H3].
  apply andb_prop in Hall. destruct Hall as [H1 H2].
  exists k. split; [reflexivity|]. lia.
Qed.

Lemma floor_div25_exact_float (x : float) :
  small_nonneg (Float x) = true ->
  exists k, floor_div25 (Float x) = Ok k /\ 0 <= k /\
            Py.le (Int (k * 25)) (Float x) = true /\
            Py.lt (Float x) (Int (k * 25 + 25)) = true.
Proof.
  intros Hs.
  assert (Htot : exists k, floor_div25 (Float x) = Ok k /\ 0 <= k /\
                   Py.lt (Float x) (Int (k * 25 + 25)) = true).
  { revert Hs. unfold small_nonneg, floor_div25, Py.truediv.
    destruct Rounding.Prim2SF_25 as [-> E25]. cbn [Py.to_float rbind].
    rewrite E25. cbn [Py.is_zero_SF rbind Py.floor].
    rewrite div_spec, E25. unfold SF64div.
    pose proof (Prim2SF_valid x) as Hvalid.
    unfold Py.lt, Py.compare.
    destruct (Prim2SF x) as [s| | |s mx ex] eqn:Ex; try discriminate.
    - intros _. cbn [SFdiv Py.SF_floor]. exists 0.
      split; [reflexivity|]. split; [lia|]. reflexivity.
    - destruct s; [discriminate|]. intros Hex. apply Z.leb_le in Hex.
      apply Rounding.valid_finite in Hvalid.
      destruct (FloorBelow.floor_SFdiv_25_lower mx ex Hvalid Hex)
        as (k & Hk & Hk0 & Hlt).
      exists k. split; [exact Hk|]. split; [exact Hk0|].
      cbn [Py.Z_SF_compare Py.signed option_map].
      replace (k * 25 + 25) with ((k + 1) * 25) by lia.
      destruct (0 <=? ex) eqn:E0.
      + apply Z.leb_le in E0. assert (ex = 0) by lia. subst ex.
        change (2 ^ (- 0)) with 1 in Hlt. change (2 ^ 0) with 1.
        destruct (Z.compare_spec ((k + 1) * 25) (Zpos mx * 1));
          try reflexivity; lia.
      + destruct (Z.compare_spec ((k + 1) * 25 * 2 ^ (- ex)) (Zpos mx));
          try reflexivity; lia. }
  destruct Htot as (k & Hk & Hk0 & Hlt).
  exists k. repeat split; try assumption.
  now apply floor_div25_le_float.
Qed.

(** For a number between 0 and 450, [math.floor(x / 25) * 25] is the
    largest multiple of 25 that is not above [x]. *)
Lemma floor_div25_exact (x : num) :
  small_nonneg x = true ->
  exists k, floor_div25 x = Ok k /\ 0 <= k /\
            Py.le (Int (k * 25)) x = true /\
            Py.lt x (Int (k * 25 + 25)) = true.
Proof.
  destruct x as [z|f]; [|apply floor_div25_exact_float].
  intros Hs. cbn [small_nonneg] in Hs.
  apply andb_prop in Hs. destruct Hs as [H0 H1].
  apply Z.leb_le in H0, H1.
  destruct (floor_div25_exact_int z ltac:(lia)) as (k & Hk & Hk0 & Hb).
  exists k. split; [exact Hk|]. split; [exact Hk0|].
  unfold Py.le, Py.lt, Py.compare.
  destruct (Z.compare_spec (k * 25) z); try lia;
    destruct (Z.compare_spec z (k * 25 + 25)); try lia; auto.
Qed.

(** ** Comparison is the order of the values *)

Lemma CompOpp_option_invol (c : option comparison) :
  option_map CompOpp (option_map CompOpp c) = c.
Proof. destruct c as [[| |]|]; reflexivity. Qed.

Lemma SFcompare_antisym (x y : spec_float) :
  SFcompare y x = option_map CompOpp (SFcompare x y).
Proof.
  destruct x as [sx|sx| |sx mx ex], y as [sy|sy| |sy my ey];
    cbn [SFcompare option_map]; try reflexivity;
    try (destruct sx; reflexivity); try (destruct sy; reflexivity);
    try (destruct sx, sy; reflexivity).
  change (PosDef.Pos.compare_cont Eq my mx) with (Pos.compare my mx).
  change (PosDef.Pos.compare_cont Eq mx my) with (Pos.compare mx my).
  destruct sx, sy; try reflexivity.
  - rewrite (Z.compare_antisym ex ey).
    destruct (ex ?= ey) eqn:E; cbn [CompOpp option_map]; try reflexivity.
    rewrite (Pos.compare_antisym mx my).
    destruct (mx ?= my)%positive; reflexivity.
  - rewrite (Z.compare_antisym ex ey).
    destruct (ex ?= ey) eqn:E; cbn [CompOpp option_map]; try reflexivity.
    rewrite (Pos.compare_antisym mx my).
    destruct (mx ?= my)%positive; reflexivity.
Qed.

(** [b ? a] is the mirror image of [a ? b], for every pair of numbers. *)
Lemma num_compare_antisym (a b : num) :
  Py.compare b a = option_map CompOpp (Py.compare a b).
Proof.
  destruct a as [x|f], b as [y|g]; cbn [Py.compare].
  - cbn [option_map]. now rewrite Z.compare_antisym.
  - reflexivity.
  - now rewrite CompOpp_option_invol.
  - apply SFcompare_antisym.
Qed.

Lemma valid_exponent (s : bool) (m : positive) (e : Z) :
  valid_binary (S754_finite s m e) = true -> -1074 <= e.
Proof. intros H. apply Rounding.valid_finite in H. lia. Qed.

Lemma valid_bits (s : bool) (m : positive) (e : Z) :
  valid_binary (S754_finite s m e) = true ->
  Zpos m < 2 ^ 53 /\ (-1074 < e -> 2 ^ 52 <= Zpos m).
Proof.
  intros H. apply Rounding.valid_finite in H.
  pose proof (Rounding.digits2_pos_bounds m) as Hb.
  split.
  - assert (2 ^ Zpos (digits2_pos m) <= 2 ^ 53)
      by (apply Z.pow_le_mono_r; lia). lia.
  - intros He. assert (Zpos (digits2_pos m) = 53) as Hd by lia.
    rewrite Hd in Hb. change (53 - 1) with 52 in Hb. lia.
Qed.

(** Two valid positive floats compare as their values do. *)
Lemma finite_compare_pos (m1 m2 : positive) (e1 e2 : Z) :
  valid_binary (S754_finite false m1 e1) = true ->
  valid_binary (S754_finite false m2 e2) = true ->
  match e1 ?= e2 with
  | Lt => Lt
  | Eq => (m1 ?= m2)%positive
  | Gt => Gt
  end = (Zpos m1 * 2 ^ (e1 + 1074) ?= Zpos m2 * 2 ^ (e2 + 1074)).
Proof.
  intros V1 V2.
  pose proof (valid_exponent _ _ _ V1) as E1.
  pose proof (valid_exponent _ _ _ V2) as E2.
  destruct (valid_bits _ _ _ V1) as [B1 N1].
  destruct (valid_bits _ _ _ V2) as [B2 N2].
  destruct (Z.compare_spec e1 e2) as [->|Hlt|Hgt].
  - assert (0 < 2 ^ (e2 + 1074)) by (apply Z.pow_pos_nonneg; lia).
    rewrite <- Zmult_compare_compat_r by lia. reflexivity.
  - symmetry. apply Z.compare_lt_iff.
    specialize (N2 ltac:(lia)).
    replace (e2 + 1074) with ((e2 - e1) + (e1 + 1074)) by lia.
    rewrite (Z.pow_add_r 2 (e2 - e1) (e1 + 1074)) by lia.
    assert (HP : 0 < 2 ^ (e1 + 1074)) by (apply Z.pow_pos_nonneg; lia).
    assert (HA : 2 ^ 1 <= 2 ^ (e2 - e1)) by (apply Z.pow_le_mono_r; lia).
    change (2 ^ 1) with 2 in HA.
    set (P := 2 ^ (e1 + 1074)) in *. set (A := 2 ^ (e2 - e1)) in *.
    change (2 ^ 53) with 9007199254740992 in *.
    change (2 ^ 52) with 4503599627370496 in *.
    assert (Zpos m1 * P < 9007199254740992 * P)
      by (apply Z.mul_lt_mono_pos_r; lia).
    assert (9007199254740992 <= Zpos m2 * A) by nia.
    assert (9007199254740992 * P <= Zpos m2 * A * P)
      by (apply Z.mul_le_mono_nonneg_r; lia).
    lia.
  - symmetry. apply Z.compare_gt_iff.
    specialize (N1 ltac:(lia)).
    replace (e1 + 1074) with ((e1 - e2) + (e2 + 1074)) by lia.
    rewrite (Z.pow_add_r 2 (e1 - e2) (e2 + 1074)) by lia.
    assert (HP : 0 < 2 ^ (e2 + 1074)) by (apply Z.pow_pos_nonneg; lia).
    assert (HA : 2 ^ 1 <= 2 ^ (e1 - e2)) by (apply Z.pow_le_mono_r; lia).
    change (2 ^ 1) with 2 in HA.
    set (P := 2 ^ (e2 + 1074)) in *. set (A := 2 ^ (e1 - e2)) in *.
    change (2 ^ 53) with 9007199254740992 in *.
    change (2 ^ 52) with 4503599627370496 in *.
    assert (Zpos m2 * P < 9007199254740992 * P)
      by (apply Z.mul_lt_mono_pos_r; lia).
    assert (9007199254740992 <= Zpos m1 * A) by nia.
    assert (9007199254740992 * P <= Zpos m1 * A * P)
      by (apply Z.mul_le_mono_nonneg_r; lia).
    lia.
Qed.

Lemma SFcompare_scaled (f g : float) :
  Py.is_finite_SF (Prim2SF f) = true ->
  Py.is_finite_SF (Prim2SF g) = true ->
  SFcompare (Prim2SF f) (Prim2SF g)
    = Some (scaled (Float f) ?= scaled (Float g)).
Proof.
  cbn [scaled].
  pose proof (Prim2SF_valid f) as Vf. pose proof (Prim2SF_valid g) as Vg.
  destruct (Prim2SF f) as [sf|sf| |sf mf ef];
    destruct (Prim2SF g) as [sg|sg| |sg mg eg];
    cbn [Py.is_finite_SF]; try discriminate; intros _ _;
    cbn [SFcompare].
  - reflexivity.
  - pose proof (valid_exponent _ _ _ Vg).
    assert (0 < 2 ^ (eg + 1074)) by (apply Z.pow_pos_nonneg; lia).
    destruct sg; cbn [Py.signed]; f_equal; symmetry;
      [apply Z.compare_gt_iff | apply Z.compare_lt_iff]; nia.
  - pose proof (valid_exponent _ _ _ Vf).
    assert (0 < 2 ^ (ef + 1074)) by (apply Z.pow_pos_nonneg; lia).
    destruct sf; cbn [Py.signed]; f_equal; symmetry;
      [apply Z.compare_lt_iff | apply Z.compare_gt_iff]; nia.
  - pose proof (valid_exponent _ _ _ Vf). pose proof (valid_exponent _ _ _ Vg).
    assert (0 < 2 ^ (ef + 1074)) by (apply Z.pow_pos_nonneg; lia).
    assert (0 < 2 ^ (eg + 1074)) by (apply Z.pow_pos_nonneg; lia).
    change (PosDef.Pos.compare_cont Eq mf mg) with (Pos.compare mf mg).
    destruct sf, sg; cbn [Py.signed]; f_equal.
    + (* both negative *)
      assert (Vf' : valid_binary (S754_finite false mf ef) = true) by exact Vf.
      assert (Vg' : valid_binary (S754_finite false mg eg) = true) by exact Vg.
      pose proof (finite_compare_pos mf mg ef eg Vf' Vg') as Hc.
      assert (Hneg : (Zneg mf * 2 ^ (ef + 1074) ?= Zneg mg * 2 ^ (eg + 1074))
                     = CompOpp (Zpos mf * 2 ^ (ef + 1074)
                                  ?= Zpos mg * 2 ^ (eg + 1074))).
      { replace (Zneg mf * 2 ^ (ef + 1074))
          with (- (Zpos mf * 2 ^ (ef + 1074))) by lia.
        replace (Zneg mg * 2 ^ (eg + 1074))
          with (- (Zpos mg * 2 ^ (eg + 1074))) by lia.
        rewrite Z.compare_opp. apply Z.compare_antisym. }
      rewrite Hneg, <- Hc.
      destruct (ef ?= eg); reflexivity.
    + symmetry. apply Z.compare_lt_iff. nia.
    + symmetry. apply Z.compare_gt_iff. nia.
    + apply (finite_compare_pos mf mg ef eg Vf Vg).
Qed.

Lemma Z_SF_compare_scaled (z : Z) (g : float) :
  Py.is_finite_SF (Prim2SF g) = true ->
  Py.Z_SF_compare z (Prim2SF g)
    = Some (scaled (Int z) ?= scaled (Float g)).
Proof.
  cbn [scaled]. pose proof (Prim2SF_valid g) as Vg.
  assert (0 < 2 ^ 1074) by (apply Z.pow_pos_nonneg; lia).
  destruct (Prim2SF g) as [sg|sg| |sg mg eg];
    cbn [Py.is_finite_SF]; try discriminate; intros _;
    cbn [Py.Z_SF_compare].
  - f_equal. change 0 with (0 * 2 ^ 1074) at 2.
    apply Zmult_compare_compat_r. lia.
  - pose proof (valid_exponent _ _ _ Vg) as He. f_equal.
    destruct (0 <=? eg) eqn:E0.
    + apply Z.leb_le in E0.
      rewrite Z.pow_add_r by lia. rewrite Z.mul_assoc.
      apply Zmult_compare_compat_r. lia.
    + apply Z.leb_gt in E0.
      replace 1074 with (- eg + (eg + 1074)) at 1 by lia.
      rewrite Z.pow_add_r by lia. rewrite Z.mul_assoc.
      assert (0 < 2 ^ (eg + 1074)) by (apply Z.pow_pos_nonneg; lia).
      apply Zmult_compare_compat_r. lia.
Qed.

(** On finite numbers, comparison is the order of the exact values. *)
Lemma compare_scaled (a b : num) :
  finite_num a = true -> finite_num b = true ->
  Py.compare a b = Some (scaled a ?= scaled b).
Proof.
  destruct a as [x|f], b as [y|g]; cbn [finite_num Py.compare]; intros Ha Hb.
  - cbn [scaled]. f_equal.
    assert (0 < 2 ^ 1074) by (apply Z.pow_pos_nonneg; lia).
    apply Zmult_compare_compat_r. lia.
  - now apply Z_SF_compare_scaled.
  - rewrite (Z_SF_compare_scaled y f Ha). cbn [option_map]. f_equal.
    symmetry. apply Z.compare_antisym.
  - now apply SFcompare_scaled.
Qed.

Lemma le_scaled (a b : num) :
  finite_num a = true -> finite_num b = true ->
  Py.le a b = true <-> scaled a <= scaled b.
Proof.
  intros Ha Hb. unfold Py.le. rewrite (compare_scaled a b Ha Hb).
  destruct (Z.compare_spec (scaled a) (scaled b)); split;
    intros; try reflexivity; try discriminate; lia.
Qed.

Lemma lt_scaled (a b : num) :
  finite_num a = true -> finite_num b = true ->
  Py.lt a b = true <-> scaled a < scaled b.
Proof.
  intros Ha Hb. unfold Py.lt. rewrite (compare_scaled a b Ha Hb).
  destruct (Z.compare_spec (scaled a) (scaled b)); split;
    intros; try reflexivity; try discriminate; lia.
Qed.

Lemma gt_scaled (a b : num) :
  finite_num a = true -> finite_num b = true ->
  Py.gt a b = true <-> scaled b < scaled a.
Proof.
  intros Ha Hb. unfold Py.gt. rewrite (compare_scaled a b Ha Hb).
  destruct (Z.compare_spec (scaled a) (scaled b)); split;
    intros; try reflexivity; try discriminate; lia.
Qed.

Lemma small_nonneg_finite (x : num) :
  small_nonneg x = true -> finite_num x = true.
Proof.
  destruct x as [z|f]; cbn [small_nonneg finite_num]; [reflexivity|].
  destruct (Prim2SF f) as [s|s| |s m e]; try discriminate; reflexivity.
Qed.

(** ** design() stage by stage *)

(** With the effective depth set, the flexural sizer is a function of the
    attributes it reads. *)
Lemma calculate_required_steel_eq (Mu : num) (location : string)
    (w : world) (dd : num) :
  d (self w) = Some dd ->
  calculate_required_steel Mu location w =
    (if Py.le Mu (Int 0) then Ok None
     else match required_steel_of (h (self w)) dd (material (self w))
                  (main_bar (self w)) Mu location with
          | Ok st => Ok (Some st)
          | Raise e => Raise e
          end, w).
Proof.
  intros Hd. unfold calculate_required_steel, bind, attr, need, lift, ret.
  cbv beta iota. rewrite Hd. cbv beta iota.
  destruct (Py.le Mu (Int 0)); [reflexivity|]. rewrite Hd. cbv beta iota.
  destruct (required_steel_of _ _ _ _ _ _); reflexivity.
Qed.

Lemma design_loop_eq (items : dict num) : forall (w : world) (dd : num),
  d (self w) = Some dd ->
  design_loop items w =
    (fst (reinforcement_of (h (self w)) dd (material (self w))
            (main_bar (self w)) items (reinforcement (self w))),
     {| self := set_reinforcement (self w)
                  (snd (reinforcement_of (h (self w)) dd (material (self w))
                          (main_bar (self w)) items (reinforcement (self w))));
        mem := mem w |}).
Proof.
  induction items as [|[location Mu] rest IH]; intros w dd Hd.
  - cbn [design_loop reinforcement_of fst snd]. unfold ret.
    rewrite set_reinforcement_same. destruct w; reflexivity.
  - cbn [design_loop reinforcement_of]. unfold bind at 1.
    rewrite (calculate_required_steel_eq Mu location w dd Hd).
    destruct (Py.le Mu (Int 0)).
    + unfold bind, ret. cbv beta iota. apply (IH w dd Hd).
    + destruct (required_steel_of _ _ _ _ _ _) as [st|e].
      * unfold bind, modify. cbv beta iota.
        rewrite (IH _ dd) by (cbn [self]; destruct w as [s m]; destruct s; exact Hd).
        destruct w as [s m]; destruct s; reflexivity.
      * cbn [fst snd]. rewrite set_reinforcement_same.
        destruct w; reflexivity.
Qed.

Lemma calculate_moments_eq (w : world) (wv : num) :
  wu (self w) = Some wv ->
  calculate_moments w =
    match rbind (base_moment_of wv (clear_span (self w)))
            (moments_of (support_condition (self w))) with
    | Raise e => (Raise e, w)
    | Ok (Some ms) =>
        (Ok ms, {| self := set_moments (self w) ms; mem := mem w |})
    | Ok None => (Ok (moments (self w)), w)
    end.
Proof.
  intros Hw. unfold calculate_moments, base_moment_of, bind, attr, need,
    lift, modify, ret. cbv beta iota. rewrite Hw.
  destruct (span_squared_of (clear_span (self w))) as [sq|e];
    cbn [rbind]; [|reflexivity]. cbv beta iota.
  destruct (Py.mul wv sq) as [bm|e]; cbn [rbind]; [|reflexivity].
  destruct (moments_of (support_condition (self w)) bm) as [[ms|]|e];
    reflexivity.
Qed.

Lemma calculate_effective_depth_eq (w : world) (hh : num) :
  h (self w) = Some hh ->
  calculate_effective_depth w =
    match effective_depth_of hh (cover (material (self w)))
            (diameter (main_bar (self w))) with
    | Ok dd => (Ok dd, {| self := set_d (self w) dd; mem := mem w |})
    | Raise e => (Raise e, w)
    end.
Proof.
  intros Hh. unfold calculate_effective_depth, bind, attr, need, lift,
    modify, ret. cbv beta iota. rewrite Hh.
  destruct (effective_depth_of _ _ _); reflexivity.
Qed.

Lemma calculate_initial_thickness_raise
    (span : num) (support : string) (uh : option num) (e : exn) (w : world) :
  h_rounded_of span support = Raise e ->
  calculate_initial_thickness span support uh w = (Raise e, w).
Proof.
  intros Hr. unfold calculate_initial_thickness, bind, lift.
  now rewrite Hr.
Qed.

(** design() in closed form: every stage as a function of the attributes,
    with the state the object is left in at each point it can raise. *)
Lemma design_eq (s : OneWaySlab) (m : store) :
  design {| self := s; mem := m |} =
  match h_rounded_of (clear_span s) (support_condition s) with
  | Raise e => (Raise e, {| self := s; mem := m |})
  | Ok hr =>
    let hh := match supplied (user_h s) with
              | Some u => u
              | None => Int hr
              end in
    let m1 := match supplied (user_h s) with
              | Some u =>
                  if Py.lt u (Int hr)
                  then store_append m (notes s) (WarningBelowMinimum u hr)
                  else m
              | None => m
              end in
    let s1 := set_h s hh in
    match load_combination hh (concrete_density (material s))
            (superimposed_dead (loads s)) (live_load (loads s)) with
    | Raise e => (Raise e, {| self := s1; mem := m1 |})
    | Ok (wv, td, sw) =>
      let s2 := set_wu s1 wv in
      match rbind (base_moment_of wv (clear_span s))
              (moments_of (support_condition s)) with
      | Raise e => (Raise e, {| self := s2; mem := m1 |})
      | Ok mo =>
        let s3 := match mo with
                  | Some ms => set_moments s2 ms
                  | None => s2
                  end in
        match effective_depth_of hh (cover (material s))
                (diameter (main_bar s)) with
        | Raise e => (Raise e, {| self := s3; mem := m1 |})
        | Ok dd =>
          let lr := reinforcement_of (Some hh) dd (material s) (main_bar s)
                      (moments s3) [] in
          let s5 := set_reinforcement (set_d s3 dd) (snd lr) in
          match fst lr with
          | Raise e => (Raise e, {| self := s5; mem := m1 |})
          | Ok _ =>
            match shrinkage_steel_of hh (material s) (shrinkage_bar s) with
            | Raise e => (Raise e, {| self := s5; mem := m1 |})
            | Ok shr =>
              let s6 := set_shrinkage s5 shr in
              match shear_of (support_condition s) (clear_span s)
                      (Some wv) (Some dd) (fc_prime (material s)) with
              | Raise e => (Raise e, {| self := s6; mem := m1 |})
              | Ok shc =>
                  (Ok {| thickness := hh; effective_depth := dd;
                         factored_load := wv; self_weight := sw;
                         total_dead := td; r_moments := moments s3;
                         r_reinforcement := snd lr; r_shrinkage := shr;
                         r_shear := shc; r_notes := notes s |},
                   {| self := set_shear s6 shc; mem := m1 |})
              end
            end
          end
        end
      end
    end
  end.
Proof.
  unfold design. unfold bind at 1, attr at 1. cbv beta iota.
  unfold bind at 1, attr at 1. cbv beta iota.
  unfold bind at 1, attr at 1. cbv beta iota. cbn [self].
  unfold bind at 1.
  destruct (h_rounded_of (clear_span s) (support_condition s)) as [hr|e] eqn:Ehr.
  2:{ rewrite (calculate_initial_thickness_raise _ _ _ e _ Ehr). reflexivity. }
  rewrite (calculate_initial_thickness_eq _ _ _ hr _ Ehr).
  cbn [self mem]. cbv zeta.
  set (hh := match supplied (user_h s) with Some u => u | None => Int hr end).
  set (m1 := match supplied (user_h s) with
             | Some u => if Py.lt u (Int hr)
                         then store_append m (notes s) (WarningBelowMinimum u hr)
                         else m
             | None => m
             end).
  assert (E1 : match supplied (user_h s) with
               | Some u =>
                   (Ok u, {| self := set_h s u;
                             mem := if Py.lt u (Int hr)
                                    then store_append m (notes s)
                                           (WarningBelowMinimum u hr)
                                    else m |})
               | None => (Ok (Int hr), {| self := set_h s (Int hr); mem := m |})
               end = (Ok hh, {| self := set_h s hh; mem := m1 |})).
  { subst hh m1. destruct (supplied (user_h s)); reflexivity. }
  rewrite E1. clear E1. cbv beta iota.
  unfold bind at 1.
  rewrite (calculate_factored_load_eq _ hh) by (destruct s; reflexivity).
  replace (concrete_density (material (self {| self := set_h s hh; mem := m1 |})))
    with (concrete_density (material s)) by (destruct s; reflexivity).
  replace (superimposed_dead (loads (self {| self := set_h s hh; mem := m1 |})))
    with (superimposed_dead (loads s)) by (destruct s; reflexivity).
  replace (live_load (loads (self {| self := set_h s hh; mem := m1 |})))
    with (live_load (loads s)) by (destruct s; reflexivity).
  destruct (load_combination hh _ _ _) as [[[wv td] sw]|e]; [|reflexivity].
  cbv beta iota. cbn [self mem].
  unfold bind at 1.
  rewrite (calculate_moments_eq _ wv) by (destruct s; reflexivity).
  cbn [self mem].
  replace (clear_span (set_wu (set_h s hh) wv)) with (clear_span s)
    by (destruct s; reflexivity).
  replace (support_condition (set_wu (set_h s hh) wv))
    with (support_condition s) by (destruct s; reflexivity).
  destruct (rbind (base_moment_of wv (clear_span s))
              (moments_of (support_condition s))) as [mo|e]; [|reflexivity].
  set (s3 := match mo with
             | Some ms => set_moments (set_wu (set_h s hh) wv) ms
             | None => set_wu (set_h s hh) wv
             end).
  assert (E3 : match mo with
               | Some ms =>
                   (Ok ms, {| self := set_moments (set_wu (set_h s hh) wv) ms;
                              mem := m1 |})
               | None => (Ok (moments (set_wu (set_h s hh) wv)),
                          {| self := set_wu (set_h s hh) wv; mem := m1 |})
               end = (Ok (moments s3), {| self := s3; mem := m1 |})).
  { subst s3. destruct mo; destruct s; reflexivity. }
  rewrite E3. clear E3. cbv beta iota.
  assert (I3 : clear_span s3 = clear_span s /\ material s3 = material s /\
               support_condition s3 = support_condition s /\
               main_bar s3 = main_bar s /\ shrinkage_bar s3 = shrinkage_bar s /\
               h s3 = Some hh /\ wu s3 = Some wv /\ notes s3 = notes s)
    by (subst s3; destruct mo; destruct s; repeat split).
  destruct I3 as (Ispan & Imat & Isup & Imb & Isb & Ih & Iwu & Inotes).
  unfold bind at 1.
  rewrite (calculate_effective_depth_eq _ hh) by exact Ih.
  cbn [self mem]. rewrite Imat, Imb.
  destruct (effective_depth_of hh (cover (material s)) (diameter (main_bar s)))
    as [dd|e]; [|reflexivity].
  unfold bind at 1, modify at 1. cbv beta iota. cbn [self mem].
  unfold bind at 1, attr at 1. cbv beta iota. cbn [self mem].
  unfold bind at 1.
  rewrite (design_loop_eq _ _ dd) by (destruct s3; reflexivity).
  cbn [self mem].
  replace (h (set_reinforcement (set_d s3 dd) [])) with (Some hh)
    by (rewrite <- Ih; destruct s3; reflexivity).
  replace (material (set_reinforcement (set_d s3 dd) [])) with (material s)
    by (rewrite <- Imat; destruct s3; reflexivity).
  replace (main_bar (set_reinforcement (set_d s3 dd) [])) with (main_bar s)
    by (rewrite <- Imb; destruct s3; reflexivity).
  replace (moments (set_reinforcement (set_d s3 dd) [])) with (moments s3)
    by (destruct s3; reflexivity).
  replace (reinforcement (set_reinforcement (set_d s3 dd) []))
    with (@nil (string * steel)) by (destruct s3; reflexivity).
  set (lr := reinforcement_of (Some hh) dd (material s) (main_bar s)
               (moments s3) []).
  replace (set_reinforcement (set_reinforcement (set_d s3 dd) []) (snd lr))
    with (set_reinforcement (set_d s3 dd) (snd lr))
    by (destruct s3; reflexivity).
  set (s5 := set_reinforcement (set_d s3 dd) (snd lr)).
  assert (I5 : clear_span s5 = clear_span s /\ material s5 = material s /\
               support_condition s5 = support_condition s /\
               shrinkage_bar s5 = shrinkage_bar s /\
               h s5 = Some hh /\ wu s5 = Some wv /\ d s5 = Some dd /\
               notes s5 = notes s /\ moments s5 = moments s3 /\
               reinforcement s5 = snd lr).
  { subst s5. rewrite <- Ispan, <- Imat, <- Isup, <- Isb, <- Ih, <- Iwu, <- Inotes.
    destruct s3; repeat split. }
  destruct I5 as (Jspan & Jmat & Jsup & Jsb & Jh & Jwu & Jd & Jnt & Jms & Jrf).
  destruct (fst lr) as [u|e]; [|reflexivity].
  cbv beta iota.
  unfold bind at 1.
  rewrite (calculate_shrinkage_steel_eq _ hh) by exact Jh.
  cbn [self mem]. rewrite Jmat, Jsb.
  destruct (shrinkage_steel_of hh (material s) (shrinkage_bar s)) as [shr|e];
    [|reflexivity].
  unfold bind at 1, modify at 1. cbv beta iota. cbn [self mem].
  unfold bind at 1. rewrite check_shear_eq. cbn [self mem].
  replace (support_condition (set_shrinkage s5 shr)) with (support_condition s)
    by (rewrite <- Jsup; destruct s5; reflexivity).
  replace (clear_span (set_shrinkage s5 shr)) with (clear_span s)
    by (rewrite <- Jspan; destruct s5; reflexivity).
  replace (wu (set_shrinkage s5 shr)) with (Some wv)
    by (rewrite <- Jwu; destruct s5; reflexivity).
  replace (d (set_shrinkage s5 shr)) with (Some dd)
    by (rewrite <- Jd; destruct s5; reflexivity).
  replace (fc_prime (material (set_shrinkage s5 shr)))
    with (fc_prime (material s))
    by (rewrite <- Jmat; destruct s5; reflexivity).
  destruct (shear_of (support_condition s) (clear_span s) (Some wv) (Some dd)
              (fc_prime (material s))) as [shc|e]; [|reflexivity].
  set (s7 := set_shear (set_shrinkage s5 shr) shc).
  assert (K : h s7 = Some hh /\ d s7 = Some dd /\ wu s7 = Some wv /\
              moments s7 = moments s3 /\ reinforcement s7 = snd lr /\
              notes s7 = notes s).
  { subst s7. rewrite <- Jh, <- Jd, <- Jwu, <- Jms, <- Jrf, <- Jnt.
    destruct s5; repeat split. }
  destruct K as (Kh & Kd & Kwu & Kms & Krf & Knt).
  unfold bind, modify, need, attr, ret. cbv beta iota. cbn [self mem].
  fold s7. rewrite Kh. cbv beta iota. cbn [self mem].
  rewrite Kd. cbv beta iota. cbn [self mem].
  rewrite Kwu. cbv beta iota. cbn [self mem].
  rewrite Kms, Krf, Knt.
  reflexivity.
Qed.

(** ** Support conditions *)

Lemma support_known_dec (support : string) :
  {In support support_conditions} + {~ In support support_conditions}.
Proof. apply in_dec, string_dec. Qed.

Lemma thickness_coefficient_known (support : string) :
  In support support_conditions <->
  exists c, dict_get THICKNESS_COEFFICIENTS support = Some c.
Proof.
  split.
  - intros Hin. simpl in Hin.
    destruct Hin as [<-|[<-|[<-|[<-|[]]]]]; eexists; reflexivity.
  - intros [c Hc]. unfold THICKNESS_COEFFICIENTS in Hc. cbn [dict_get] in Hc.
    cbn [support_conditions In].
    destruct (String.eqb_spec support "simply_supported"); [auto|].
    destruct (String.eqb_spec support "one_end_continuous"); [auto|].
    destruct (String.eqb_spec support "both_ends_continuous"); [auto 6|].
    destruct (String.eqb_spec support "cantilever"); [auto 6|].
    discriminate.
Qed.

Lemma h_rounded_of_unknown (span : num) (support : string) :
  ~ In support support_conditions ->
  h_rounded_of span support = Raise (KeyError support).
Proof.
  intros Hn. unfold h_rounded_of, dict_item.
  destruct (dict_get THICKNESS_COEFFICIENTS support) as [c|] eqn:E;
    [|reflexivity].
  exfalso. apply Hn. apply thickness_coefficient_known. eauto.
Qed.

Lemma h_rounded_of_known (span : num) (support : string) (hr : Z) :
  h_rounded_of span support = Ok hr -> In support support_conditions.
Proof.
  intros H. destruct (support_known_dec support) as [|Hn]; [assumption|].
  rewrite (h_rounded_of_unknown span support Hn) in H. discriminate.
Qed.

(** For a known support condition the moment solver never leaves the old
    moments in place. *)
Lemma moments_of_known (support : string) (bm : num) (mo : option (dict num)) :
  In support support_conditions ->
  moments_of support bm = Ok mo ->
  exists ms, mo = Some ms /\ ms <> [] /\ NoDup (dict_keys ms).
Proof.
  intros Hin. simpl in Hin. unfold moments_of.
  destruct Hin as [<-|[<-|[<-|[<-|[]]]]]; cbn [String.eqb Ascii.eqb Bool.eqb];
    intros H; repeat step; eexists; (split; [reflexivity|]);
    (split; [discriminate|]); cbn; repeat constructor; cbn;
    intuition discriminate.
Qed.

(** ** An unrecognised support condition *)

Lemma design_unknown_support_eq (w : world) :
  ~ In (support_condition (self w)) support_conditions ->
  design w = (Raise (KeyError (support_condition (self w))), w).
Proof.
  intros Hn. destruct w as [s m]. rewrite design_eq. cbn [self] in *.
  now rewrite (h_rounded_of_unknown _ _ Hn).
Qed.

(** ** Which exceptions each stage can raise *)

Lemma raises_only_rbind {A B} (P : exn -> Prop)
    (r : result A) (k : A -> result B) :
  raises_only P r ->
  (forall a, r = Ok a -> raises_only P (k a)) ->
  raises_only P (rbind r k).
Proof.
  unfold raises_only. destruct r as [a|e0]; cbn [rbind]; intros H1 H2 e He.
  - exact (H2 a eq_refl e He).
  - apply H1. inversion He. reflexivity.
Qed.

Lemma raises_only_Ok {A} (P : exn -> Prop) (a : A) : raises_only P (Ok a).
Proof. intros e He. discriminate. Qed.

Lemma raises_only_weaken {A} (P Q : exn -> Prop) (r : result A) :
  (forall e, P e -> Q e) -> raises_only P r -> raises_only Q r.
Proof. intros HPQ H e He. apply HPQ, H, He. Qed.

Lemma to_float_ro (P : exn -> Prop) (a : num) :
  P OverflowError -> raises_only P (Py.to_float a).
Proof. intros HP e He. apply to_float_raises in He. now subst. Qed.

Lemma arith_ro (P : exn -> Prop) fz ff (a b : num) :
  P OverflowError -> raises_only P (Py.arith fz ff a b).
Proof. intros HP e He. apply arith_raises in He. now subst. Qed.

Lemma truediv_ro (P : exn -> Prop) (a b : num) :
  P ZeroDivisionError -> P OverflowError -> raises_only P (Py.truediv a b).
Proof.
  intros HZ HO e. unfold Py.truediv, Py.int_truediv.
  destruct a as [x|f], b as [y|g]; cbn [Py.to_float rbind].
  - destruct (y =? 0); cbn [rbind]; [congruence|].
    destruct (x =? 0); cbn [rbind]; [discriminate|].
    destruct (Py.is_inf_SF _); cbn [rbind]; [congruence|discriminate].
  - unfold Py.int_to_float. destruct (Py.is_inf_SF _); cbn [rbind];
      [congruence|]. destruct (Py.is_zero_SF _); [congruence|discriminate].
  - unfold Py.int_to_float. destruct (Py.is_inf_SF _); cbn [rbind];
      [congruence|]. destruct (Py.is_zero_SF _); [congruence|discriminate].
  - destruct (Py.is_zero_SF _); [congruence|discriminate].
Qed.

Lemma pow2_ro (P : exn -> Prop) (a : num) :
  P OverflowError -> raises_only P (Py.pow2 a).
Proof.
  intros HO e. unfold Py.pow2. destruct a as [z|f]; [discriminate|].
  destruct (_ && _); [congruence|discriminate].
Qed.

Lemma floor_ro (P : exn -> Prop) (a : num) :
  P OverflowError ->
  P (ValueError "cannot convert float NaN to integer") ->
  raises_only P (Py.floor a).
Proof.
  intros HO HV e. destruct a as [z|f]; cbn [Py.floor]; [discriminate|].
  destruct (Prim2SF f); cbn [Py.SF_floor]; try discriminate; congruence.
Qed.

Lemma ceil_ro (P : exn -> Prop) (a : num) :
  P OverflowError ->
  P (ValueError "cannot convert float NaN to integer") ->
  raises_only P (Py.ceil a).
Proof.
  intros HO HV e. destruct a as [z|f]; cbn [Py.ceil]; [discriminate|].
  destruct (Prim2SF f); cbn [Py.SF_ceil]; try discriminate; congruence.
Qed.

(** [math.sqrt] raises its domain error only on a number below zero. *)
Lemma sqrt_ro (P : exn -> Prop) (a : num) :
  P OverflowError ->
  (Py.lt a (Int 0) = true -> P (ValueError "math domain error")) ->
  raises_only P (Py.sqrt a).
Proof.
  intros HO HV e. unfold Py.sqrt.
  destruct a as [z|f]; cbn [Py.to_float].
  - unfold Py.int_to_float.
    destruct (Py.is_inf_SF (Py.Z2SF z)) eqn:Einf; cbn [rbind]; [congruence|].
    destruct (Z_lt_ge_dec z 0) as [Hneg|Hpos].
    + assert (Py.lt (Int z) (Int 0) = true) as Hlt.
      { unfold Py.lt, Py.compare. apply Z.compare_lt_iff in Hneg.
        now rewrite Hneg. }
      destruct (Prim2SF (SF2Prim (Py.Z2SF z))) as [|[|]| |[|] ? ?];
        try discriminate; intros He; inversion He; auto.
    + assert (Hnn : Sign.nonneg (Prim2SF (SF2Prim (Py.Z2SF z))) = true).
      { apply (int_to_float_nonneg z); [lia|].
        unfold Py.int_to_float. now rewrite Einf. }
      destruct (Prim2SF (SF2Prim (Py.Z2SF z))) as [|[|]| |[|] ? ?];
        try discriminate.
  - cbn [rbind].
    destruct (Prim2SF f) as [|[|]| |[|] m ex] eqn:E; try discriminate;
      intros He; inversion He; apply HV;
      unfold Py.lt, Py.compare; rewrite E; cbn [Py.Z_SF_compare option_map];
      try reflexivity.
    cbn [Py.signed].
    assert (Hp : 0 < 2 ^ (Z.abs ex)) by (apply Z.pow_pos_nonneg; lia).
    destruct (0 <=? ex) eqn:E0.
    + apply Z.leb_le in E0. rewrite Z.abs_eq in Hp by lia.
      assert (Zneg m * 2 ^ ex < 0) by nia.
      assert ((0 ?= Zneg m * 2 ^ ex) = Gt) as -> by (apply Z.compare_gt_iff; lia).
      reflexivity.
    + reflexivity.
Qed.

Lemma dict_item_ro {V} (P : exn -> Prop) (dct : dict V) (k : string) :
  (dict_get dct k = None -> P (KeyError k)) ->
  raises_only P (dict_item dct k).
Proof.
  intros HP e. unfold dict_item.
  destruct (dict_get dct k); [discriminate|].
  intros He. inversion He. auto.
Qed.

Lemma arithmetic_Overflow : arithmetic_error OverflowError.
Proof. right; left; reflexivity. Qed.

Lemma arithmetic_ZeroDivision : arithmetic_error ZeroDivisionError.
Proof. left; reflexivity. Qed.

Lemma arithmetic_NaN :
  arithmetic_error (ValueError "cannot convert float NaN to integer").
Proof. right; right; reflexivity. Qed.

(** Splits a computation into its operations, for a class [P] of
    exceptions that holds the arithmetic ones. *)
Ltac ro_with tac :=
  repeat first
    [ apply raises_only_Ok
    | apply arith_ro; tac
    | apply truediv_ro; tac
    | apply pow2_ro; tac
    | apply floor_ro; tac
    | apply ceil_ro; tac
    | apply raises_only_rbind; [|intros ? ?] ].

Ltac ro := ro_with ltac:(first [ exact arithmetic_Overflow
                               | exact arithmetic_ZeroDivision
                               | exact arithmetic_NaN ]).

Lemma h_rounded_of_ro (span : num) (support : string) :
  raises_only
    (fun e => arithmetic_error e \/
              (e = KeyError support /\ ~ In support support_conditions))
    (h_rounded_of span support).
Proof.
  destruct (support_known_dec support) as [Hin|Hn].
  - apply raises_only_weaken with (P := arithmetic_error); [auto|].
    unfold h_rounded_of. apply raises_only_rbind.
    + apply dict_item_ro. intros Hnone.
      apply thickness_coefficient_known in Hin. destruct Hin as [c Hc].
      congruence.
    + intros c _. ro.
  - rewrite (h_rounded_of_unknown span support Hn).
    intros e He. inversion He. auto.
Qed.

Lemma load_combination_ro (hh density dead live : num) :
  raises_only arithmetic_error (load_combination hh density dead live).
Proof. unfold load_combination. ro. Qed.

Lemma effective_depth_of_ro (hh cov dia : num) :
  raises_only arithmetic_error (effective_depth_of hh cov dia).
Proof. unfold effective_depth_of. ro. Qed.

Lemma coeff_times_ro (key : string) (bm : num) :
  dict_get MOMENT_COEFFICIENT_VALUES key <> None ->
  raises_only arithmetic_error (coeff_times key bm).
Proof.
  intros Hk. unfold coeff_times. apply raises_only_rbind.
  - apply dict_item_ro. intros Hn. contradiction.
  - intros c _. ro.
Qed.

Lemma moments_stage_ro (wv span : num) (support : string) :
  raises_only arithmetic_error
    (rbind (base_moment_of wv span) (moments_of support)).
Proof.
  apply raises_only_rbind.
  - unfold base_moment_of, span_squared_of. ro.
  - intros bm _. unfold moments_of.
    repeat match goal with
           | |- raises_only _ (if ?c then _ else _) => destruct c
           end;
      repeat first
        [ apply raises_only_Ok
        | apply coeff_times_ro; discriminate
        | apply raises_only_rbind; [|intros ? ?] ].
Qed.

Lemma As_min_of_ro (fy_ Ag : num) :
  raises_only arithmetic_error (As_min_of fy_ Ag).
Proof. unfold As_min_of. destruct (Py.lt fy_ (Int 420)); ro. Qed.

Lemma As_sh_req_of_ro (fy_ Ag : num) :
  raises_only arithmetic_error (As_sh_req_of fy_ Ag).
Proof. unfold As_sh_req_of. destruct (Py.lt fy_ (Int 420)); ro. Qed.

(** The square root of the flexural sizer is guarded by [term < 0]: with
    the thickness set, the sizer raises only arithmetic exceptions. *)
Lemma required_steel_of_ro (hh dd : num) (mat : MaterialProperties)
    (bar : BarProperties) (Mu : num) (location : string) :
  raises_only arithmetic_error
    (required_steel_of (Some hh) dd mat bar Mu location).
Proof.
  unfold required_steel_of.
  repeat first
    [ apply raises_only_Ok
    | apply As_min_of_ro
    | apply arith_ro; exact arithmetic_Overflow
    | apply truediv_ro; [exact arithmetic_ZeroDivision|exact arithmetic_Overflow]
    | apply pow2_ro; exact arithmetic_Overflow
    | apply floor_ro; [exact arithmetic_Overflow|exact arithmetic_NaN]
    | match goal with
      | |- raises_only _ (if Py.lt ?t (Int 0) then _ else _) =>
          destruct (Py.lt t (Int 0)) eqn:?
      | |- raises_only _ (Py.sqrt _) =>
          apply sqrt_ro; [exact arithmetic_Overflow|congruence]
      | |- raises_only _ (Py.bound (Some _)) => apply raises_only_Ok
      end
    | apply raises_only_rbind; [|intros ? ?] ].
Qed.

Lemma reinforcement_of_ro (hh dd : num) (mat : MaterialProperties)
    (bar : BarProperties) (items : dict num) : forall acc,
  raises_only arithmetic_error
    (fst (reinforcement_of (Some hh) dd mat bar items acc)).
Proof.
  induction items as [|[location Mu] rest IH]; intros acc;
    cbn [reinforcement_of].
  - apply raises_only_Ok.
  - destruct (Py.le Mu (Int 0)); [apply IH|].
    destruct (required_steel_of (Some hh) dd mat bar Mu location)
      as [st|e] eqn:E; [apply IH|].
    cbn [fst]. intros e' He'. inversion He'; subst e'.
    exact (required_steel_of_ro _ _ _ _ _ _ _ E).
Qed.

Lemma shrinkage_steel_of_ro (hh : num) (mat : MaterialProperties)
    (bar : BarProperties) :
  raises_only arithmetic_error (shrinkage_steel_of hh mat bar).
Proof.
  unfold shrinkage_steel_of.
  repeat first
    [ apply raises_only_Ok
    | apply As_sh_req_of_ro
    | apply arith_ro; exact arithmetic_Overflow
    | apply truediv_ro; [exact arithmetic_ZeroDivision|exact arithmetic_Overflow]
    | apply floor_ro; [exact arithmetic_Overflow|exact arithmetic_NaN]
    | apply raises_only_rbind; [|intros ? ?] ].
Qed.

Lemma Vu_of_ro (support : string) (w L_n d_m : num) :
  raises_only arithmetic_error (Vu_of support w L_n d_m).
Proof.
  unfold Vu_of.
  repeat match goal with
         | |- raises_only _ (if ?c then _ else _) => destruct c
         end; ro.
Qed.

(** The shear check raises a domain error only on a negative f'c. *)
Lemma shear_of_ro (support : string) (span wv dd fc : num) :
  raises_only
    (fun e => arithmetic_error e \/
              (e = ValueError "math domain error" /\
               Py.lt fc (Int 0) = true))
    (shear_of support span (Some wv) (Some dd) fc).
Proof.
  set (P := fun e => arithmetic_error e \/
              (e = ValueError "math domain error" /\
               Py.lt fc (Int 0) = true)).
  assert (HO : P OverflowError) by (left; exact arithmetic_Overflow).
  assert (HZ : P ZeroDivisionError) by (left; exact arithmetic_ZeroDivision).
  unfold shear_of, phiVc_of, utilization_of. cbn [Py.bound].
  repeat first
    [ apply raises_only_Ok
    | apply (raises_only_weaken arithmetic_error P);
        [intros ? ?; left; assumption | apply Vu_of_ro]
    | apply arith_ro; exact HO
    | apply truediv_ro; [exact HZ|exact HO]
    | match goal with
      | |- raises_only _ (Py.sqrt _) =>
          apply sqrt_ro; [exact HO|intros Hlt; right; auto]
      | |- raises_only _ (if ?c then _ else _) => destruct c
      | |- raises_only _ (let '(_, _) := ?p in _) => destruct p
      end
    | apply raises_only_rbind; [|intros ? ?] ].
Qed.

(** ** The exceptions of design() *)

Lemma design_raises (w : world) (e : exn) :
  fst (design w) = Raise e ->
  arithmetic_error e \/
  (e = KeyError (support_condition (self w)) /\
   ~ In (support_condition (self w)) support_conditions) \/
  (e = ValueError "math domain error" /\
   Py.lt (fc_prime (material (self w))) (Int 0) = true).
Proof.
  destruct w as [s m]. rewrite design_eq. cbn [self].
  destruct (h_rounded_of (clear_span s) (support_condition s)) as [hr|e0] eqn:E0.
  2:{ cbn [fst]. intros He. inversion He; subst e0.
      destruct (h_rounded_of_ro _ _ _ E0) as [H|H]; auto. }
  cbv zeta.
  destruct (load_combination _ _ _ _) as [[[wv td] sw]|e1] eqn:E1.
  2:{ cbn [fst]. intros He. inversion He; subst e1.
      left. exact (load_combination_ro _ _ _ _ _ E1). }
  destruct (rbind (base_moment_of wv (clear_span s)) _) as [mo|e2] eqn:E2.
  2:{ cbn [fst]. intros He. inversion He; subst e2.
      left. exact (moments_stage_ro _ _ _ _ E2). }
  destruct (effective_depth_of _ _ _) as [dd|e3] eqn:E3.
  2:{ cbn [fst]. intros He. inversion He; subst e3.
      left. exact (effective_depth_of_ro _ _ _ _ E3). }
  destruct (fst (reinforcement_of _ _ _ _ _ _)) as [u|e4] eqn:E4.
  2:{ cbn [fst]. intros He. inversion He; subst e4.
      left. exact (reinforcement_of_ro _ _ _ _ _ _ _ E4). }
  destruct (shrinkage_steel_of _ _ _) as [shr|e5] eqn:E5.
  2:{ cbn [fst]. intros He. inversion He; subst e5.
      left. exact (shrinkage_steel_of_ro _ _ _ _ E5). }
  destruct (shear_of _ _ _ _ _) as [shc|e6] eqn:E6.
  2:{ cbn [fst]. intros He. inversion He; subst e6.
      destruct (shear_of_ro _ _ _ _ _ _ E6) as [H|H]; auto. }
  discriminate.
Qed.

(** ** Rounding a mantissa of any size *)

Module RoundingGeneral.
Import Rounding.

Lemma shr_1_m (mrs : shr_record) :
  0 <= shr_m mrs -> shr_m (shr_1 mrs) = shr_m mrs / 2.
Proof.
  destruct mrs as [m r s]. cbn [shr_m]. intros Hm.
  now rewrite shr_1_nonneg.
Qed.

Lemma iter_shr_1_m (p : positive) : forall mrs,
  0 <= shr_m mrs ->
  shr_m (iter_pos shr_1 p mrs) = shr_m mrs / 2 ^ Zpos p.
Proof.
  induction p as [p IH|p IH|]; intros mrs Hm; cbn [iter_pos].
  - assert (H1 : 0 <= shr_m (shr_1 mrs)) by now apply shr_1_m_nonneg.
    assert (H2 : 0 <= shr_m (iter_pos shr_1 p (shr_1 mrs)))
      by now apply iter_shr_1_m_nonneg.
    rewrite (IH _ H2), (IH _ H1), shr_1_m by assumption.
    rewrite !Z.div_div by (try apply Z.pow_pos_nonneg; lia).
    f_equal. replace (Zpos p~1) with (1 + Zpos p + Zpos p) by lia.
    rewrite !Z.pow_add_r by lia. change (2 ^ 1) with 2. ring.
  - assert (H2 : 0 <= shr_m (iter_pos shr_1 p mrs))
      by now apply iter_shr_1_m_nonneg.
    rewrite (IH _ H2), (IH _ Hm).
    rewrite !Z.div_div by (try apply Z.pow_pos_nonneg; lia).
    f_equal. replace (Zpos p~0) with (Zpos p + Zpos p) by lia.
    rewrite !Z.pow_add_r by lia. ring.
  - now rewrite shr_1_m.
Qed.

(** A right shift by [n] places divides the mantissa by [2 ^ n]. *)
Lemma shr_m_e (mrs : shr_record) (e n : Z) :
  0 <= shr_m mrs ->
  shr_m (fst (shr mrs e n)) = shr_m mrs / 2 ^ Z.max 0 n /\
  snd (shr mrs e n) = e + Z.max 0 n.
Proof.
  intros Hm. destruct n as [|p|p]; cbn [shr fst snd].
  - change (Z.max 0 0) with 0. rewrite Z.div_1_r. split; lia.
  - replace (Z.max 0 (Zpos p)) with (Zpos p) by lia.
    split; [now apply iter_shr_1_m|reflexivity].
  - replace (Z.max 0 (Zneg p)) with 0 by lia.
    change (2 ^ 0) with 1. rewrite Z.div_1_r. split; lia.
Qed.

(** Rounding to nearest: the mantissa of the result is the given mantissa
    shifted right by the places that precision takes away, or that plus
    one; the sign is the one given; the result is infinite only when the
    shifted exponent is beyond the largest one. *)
Lemma binary_round_aux_bounds (sx : bool) (mz ez : Z) (lz : location) :
  0 <= mz ->
  exists n : Z,
    Z.max 0 (fexp prec emax (Zdigits2 mz + ez) - ez) <= n
      <= Z.max 0 (fexp prec emax (Zdigits2 mz + ez) - ez) + 1 /\
    match binary_round_aux prec emax sx mz ez lz with
    | S754_zero s => s = sx /\ mz / 2 ^ n = 0
    | S754_infinity s => s = sx /\ emax - prec < ez + n
    | S754_nan => False
    | S754_finite s m3 e3 =>
        s = sx /\ e3 = ez + n /\
        mz / 2 ^ n <= Zpos m3 <= mz / 2 ^ n + 1
    end.
Proof.
  intros Hmz. unfold binary_round_aux, shr_fexp.
  set (n1 := fexp prec emax (Zdigits2 mz + ez) - ez).
  pose proof (shr_m_e (shr_record_of_loc mz lz) ez n1) as H1.
  rewrite shr_record_of_loc_m in H1. specialize (H1 Hmz).
  destruct (shr (shr_record_of_loc mz lz) ez n1) as [mrs1 e1].
  cbn [fst snd] in H1. destruct H1 as [Hm1 He1].
  set (m2 := round_nearest_even (shr_m mrs1) (loc_of_shr_record mrs1)).
  pose proof (round_nearest_even_bounds (shr_m mrs1) (loc_of_shr_record mrs1))
    as Hr. fold m2 in Hr.
  assert (Hpow1 : 0 < 2 ^ Z.max 0 n1) by (apply Z.pow_pos_nonneg; lia).
  assert (Hm1pos : 0 <= shr_m mrs1)
    by (rewrite Hm1; apply Z.div_pos; lia).
  assert (Hm2 : 0 <= m2) by lia.
  set (n2 := fexp prec emax (Zdigits2 m2 + e1) - e1).
  pose proof (shr_m_e (shr_record_of_loc m2 loc_Exact) e1 n2) as H2.
  rewrite shr_record_of_loc_m in H2. specialize (H2 Hm2).
  destruct (shr (shr_record_of_loc m2 loc_Exact) e1 n2) as [mrs2 e2].
  cbn [fst snd] in H2. destruct H2 as [Hm3 He2].
  assert (Hpow2 : 0 < 2 ^ Z.max 0 n2) by (apply Z.pow_pos_nonneg; lia).
  assert (Hn2 : n2 <= 1).
  { subst n2. rewrite fexp_eq.
    assert (Hm1lt : shr_m mrs1 < 2 ^ 53).
    { rewrite Hm1. subst n1. rewrite fexp_eq.
      pose proof (Zdigits2_nonneg mz Hmz) as Hd0.
      destruct (Z_le_gt_dec (Zdigits2 mz) 53) as [Hd|Hd].
      - assert (mz < 2 ^ 53) by (apply Zdigits2_lt_pow; lia).
        assert (mz / 2 ^ Z.max 0 (Z.max (Zdigits2 mz + ez - 53) (-1074) - ez)
                <= mz) by (apply Z.div_le_upper_bound; nia).
        lia.
      - set (k := Z.max 0 (Z.max (Zdigits2 mz + ez - 53) (-1074) - ez)) in *.
        assert (Hk : Zdigits2 mz - 53 <= k) by lia.
        assert (mz < 2 ^ Zdigits2 mz) by (apply Zdigits2_lt_pow; lia).
        apply Z.div_lt_upper_bound; [lia|].
        rewrite <- Z.pow_add_r by lia.
        assert (2 ^ Zdigits2 mz <= 2 ^ (k + 53))
          by (apply Z.pow_le_mono_r; lia). lia. }
    assert (Hd2 : Zdigits2 m2 <= 54).
    { apply Zdigits2_le; [|lia]. change (2 ^ 54) with (2 * 2 ^ 53). lia. }
    assert (He1' : -1074 <= e1).
    { rewrite He1. subst n1. rewrite fexp_eq. lia. }
    lia. }
  exists (Z.max 0 n1 + Z.max 0 n2). split; [lia|].
  assert (Epow : 2 ^ (Z.max 0 n1 + Z.max 0 n2)
                 = 2 ^ Z.max 0 n1 * 2 ^ Z.max 0 n2)
    by (apply Z.pow_add_r; lia).
  assert (Hlow : mz / 2 ^ (Z.max 0 n1 + Z.max 0 n2) <= shr_m mrs2).
  { rewrite Epow, <- Z.div_div by lia. rewrite <- Hm1, Hm3.
    apply Z.div_le_mono; lia. }
  assert (Hup : shr_m mrs2 <= mz / 2 ^ (Z.max 0 n1 + Z.max 0 n2) + 1).
  { rewrite Epow, <- Z.div_div by lia. rewrite <- Hm1, Hm3.
    set (P := 2 ^ Z.max 0 n2) in *.
    assert (m2 / P <= (shr_m mrs1 + 1) / P) by (apply Z.div_le_mono; lia).
    assert ((shr_m mrs1 + 1) / P <= shr_m mrs1 / P + 1).
    { destruct (Z.eq_dec P 1) as [->|HP1].
      - rewrite !Z.div_1_r. lia.
      - replace (shr_m mrs1 / P + 1) with ((shr_m mrs1 + 1 * P) / P)
          by (rewrite Z.div_add by lia; reflexivity).
        apply Z.div_le_mono; lia. }
    lia. }
  assert (Hpos3 : 0 <= mz / 2 ^ (Z.max 0 n1 + Z.max 0 n2))
    by (apply Z.div_pos; [lia|rewrite Epow; nia]).
  destruct (shr_m mrs2) as [|m3|m3] eqn:E3.
  - split; [reflexivity|lia].
  - destruct (e2 <=? emax - prec) eqn:Ee.
    + split; [reflexivity|]. split; [lia|lia].
    + apply Z.leb_gt in Ee. split; [reflexivity|lia].
  - lia.
Qed.

End RoundingGeneral.

Module Align.
Import Rounding.

Lemma iter_xO (k : positive) : forall p : positive,
  Zpos (Pos.iter xO p k) = Zpos p * 2 ^ Zpos k /\
  Zpos (digits2_pos (Pos.iter xO p k)) = Zpos (digits2_pos p) + Zpos k.
Proof.
  induction k as [|k IH] using Pos.peano_ind; intros p.
  - cbn [Pos.iter digits2_pos]. split; lia.
  - rewrite Pos.iter_succ. destruct (IH p) as [E1 E2].
    cbn [digits2_pos].
    assert (Ek : Zpos (Pos.succ k) = Zpos k + 1) by lia. rewrite Ek.
    assert (Ed : Zpos (Pos.succ (digits2_pos (Pos.iter xO p k)))
                 = Zpos (digits2_pos (Pos.iter xO p k)) + 1) by lia.
    rewrite Ed, E2.
    assert (Em : Zpos (Pos.iter xO p k)~0 = 2 * Zpos (Pos.iter xO p k))
      by lia.
    rewrite Em, E1, Z.pow_add_r by lia. change (2 ^ 1) with 2.
    split; lia.
Qed.

(** Aligning a mantissa to a lower exponent keeps the value and adds the
    shifted places to the number of bits. *)
Lemma shl_align_spec (mx : positive) (ex ex' : Z) :
  let '(mz, ez) := shl_align mx ex ex' in
  ez = Z.min ex ex' /\
  Zpos mz = Zpos mx * 2 ^ (ex - ez) /\
  Zpos (digits2_pos mz) = Zpos (digits2_pos mx) + (ex - ez).
Proof.
  unfold shl_align. destruct (ex' - ex) as [|k|k] eqn:E.
  - replace (Z.min ex ex') with ex by lia. replace (ex - ex) with 0 by lia.
    cbn. split; [reflexivity|]. split; lia.
  - replace (Z.min ex ex') with ex by lia. replace (ex - ex) with 0 by lia.
    cbn. split; [reflexivity|]. split; lia.
  - replace (Z.min ex ex') with ex' by lia.
    replace (ex - ex') with (Zpos k) by lia.
    destruct (iter_xO k mx) as [E1 E2]. auto.
Qed.

(** The float of a non-zero int is not a zero: it has the sign of the int
    and is finite or infinite. *)
Lemma binary_round_int (s : bool) (p : positive) :
  binary_round prec emax s p 0 = S754_infinity s \/
  exists m e, binary_round prec emax s p 0 = S754_finite s m e.
Proof.
  unfold binary_round. rewrite fexp_eq.
  pose proof (shl_align_spec p 0
                (Z.max (Zpos (digits2_pos p) + 0 - 53) (-1074))) as Hal.
  destruct (shl_align p 0 _) as [mz ez]. destruct Hal as (Hez & Hmz & Hdz).
  destruct (RoundingGeneral.binary_round_aux_bounds s (Zpos mz) ez loc_Exact
              ltac:(lia)) as (n & Hn & Hres).
  change (Zdigits2 (Zpos mz)) with (Zpos (digits2_pos mz)) in Hn.
  rewrite fexp_eq in Hn.
  destruct (binary_round_aux prec emax s (Zpos mz) ez loc_Exact)
    as [s'|s'| |s' m3 e3];
    [|left; destruct Hres as [-> _]; reflexivity|contradiction|].
  - exfalso. destruct Hres as [_ Hz].
    pose proof (digits2_pos_bounds mz) as Hb.
    set (dz := Zpos (digits2_pos mz)) in *.
    set (d0 := Zpos (digits2_pos p)) in *.
    assert (Hd0 : 1 <= d0) by (subst d0; lia).
    assert (Hn' : 0 <= n <= dz - 1) by lia.
    assert (2 ^ n <= 2 ^ (dz - 1)) by (apply Z.pow_le_mono_r; lia).
    assert (0 < 2 ^ n) by (apply Z.pow_pos_nonneg; lia).
    assert (1 <= Zpos mz / 2 ^ n)
      by (apply Z.div_le_lower_bound; lia).
    lia.
  - right. destruct Hres as (-> & _). eauto.
Qed.

End Align.

(** ** What design() leaves behind *)

Lemma same_inputs_refl (s : OneWaySlab) : same_inputs s s.
Proof. repeat split. Qed.

Lemma same_inputs_set (s : OneWaySlab) :
  (forall v, same_inputs s (set_h s v)) /\
  (forall v, same_inputs s (set_d s v)) /\
  (forall v, same_inputs s (set_wu s v)) /\
  (forall v, same_inputs s (set_moments s v)) /\
  (forall v, same_inputs s (set_reinforcement s v)) /\
  (forall v, same_inputs s (set_shrinkage s v)) /\
  (forall v, same_inputs s (set_shear s v)).
Proof. destruct s; repeat split. Qed.

Lemma same_inputs_trans (s1 s2 s3 : OneWaySlab) :
  same_inputs s1 s2 -> same_inputs s2 s3 -> same_inputs s1 s3.
Proof.
  unfold same_inputs. intros (A1 & A2 & A3 & A4 & A5 & A6 & A7)
    (B1 & B2 & B3 & B4 & B5 & B6 & B7).
  repeat split; congruence.
Qed.

Lemma assigned_same_inputs (s s' : OneWaySlab) :
  assigned s s' -> same_inputs s s' /\ notes s' = notes s.
Proof.
  induction 1 as [|s' v _ [IH1 IH2]|s' v _ [IH1 IH2]|s' v _ [IH1 IH2]
                  |s' v _ [IH1 IH2]|s' v _ [IH1 IH2]|s' v _ [IH1 IH2]
                  |s' v _ [IH1 IH2]];
    [split; [apply same_inputs_refl|reflexivity]|..];
    (split; [eapply same_inputs_trans; [exact IH1|apply same_inputs_set]
            |rewrite <- IH2; destruct s'; reflexivity]).
Qed.

(** The notes list after design(), whatever stage it stopped at. *)
Lemma design_state (s : OneWaySlab) (m : store) :
  exists s',
    snd (design {| self := s; mem := m |}) =
      {| self := s';
         mem := match h_rounded_of (clear_span s) (support_condition s),
                      supplied (user_h s) with
                | Ok hr, Some u =>
                    if Py.lt u (Int hr)
                    then store_append m (notes s) (WarningBelowMinimum u hr)
                    else m
                | _, _ => m
                end |} /\
    assigned s s'.
Proof.
  rewrite design_eq.
  destruct (h_rounded_of (clear_span s) (support_condition s)) as [hr|e0].
  2:{ eexists. split; [reflexivity|constructor]. }
  cbv zeta.
  set (hh := match supplied (user_h s) with Some u => u | None => Int hr end).
  set (m1 := match supplied (user_h s) with
             | Some u => if Py.lt u (Int hr)
                         then store_append m (notes s) (WarningBelowMinimum u hr)
                         else m
             | None => m
             end).
  destruct (load_combination _ _ _ _) as [[[wv td] sw]|e1];
    [|eexists; split; [reflexivity|repeat constructor]].
  destruct (rbind _ _) as [mo|e2];
    [|eexists; split; [reflexivity|repeat constructor]].
  set (s3 := match mo with
             | Some ms => set_moments (set_wu (set_h s hh) wv) ms
             | None => set_wu (set_h s hh) wv
             end).
  assert (A3 : assigned s s3) by (subst s3; destruct mo; repeat constructor).
  destruct (effective_depth_of _ _ _) as [dd|e3];
    [|eexists; split; [reflexivity|exact A3]].
  destruct (fst (reinforcement_of _ _ _ _ _ _)) as [u|e4];
    [|eexists; split; [reflexivity|repeat constructor; exact A3]].
  destruct (shrinkage_steel_of _ _ _) as [shr|e5];
    [|eexists; split; [reflexivity|repeat constructor; exact A3]].
  destruct (shear_of _ _ _ _ _) as [shc|e6];
    eexists; (split; [reflexivity|repeat constructor; exact A3]).
Qed.

(** ** Properties of design() as a whole *)

(** X1. design() raises KeyError exactly when the support condition is not
    one of the four known names; the key is that name, and the object and
    the store are left as they were. *)
Theorem design_key_error (w : world) (k : string) :
  (fst (design w) = Raise (KeyError k) <->
   ~ In (support_condition (self w)) support_conditions /\
   k = support_condition (self w)) /\
  (~ In (support_condition (self w)) support_conditions ->
   snd (design w) = w).
Proof.
  split; [split|].
  - intros H. apply design_raises in H.
    destruct H as [[H|[H|H]]|[[H Hn]|[H _]]]; try discriminate.
    inversion H. auto.
  - intros [Hn ->]. now rewrite (design_unknown_support_eq w Hn).
  - intros Hn. now rewrite (design_unknown_support_eq w Hn).
Qed.



(** [math.sqrt] of a float below zero never returns. *)
Lemma sqrt_negative_float (f : float) :
  Py.lt (Float f) (Int 0) = true ->
  Py.sqrt (Float f) = Raise (ValueError "math domain error").
Proof.
  unfold Py.lt, Py.compare, Py.sqrt. cbn [Py.to_float rbind].
  destruct (Prim2SF f) as [s|[|]| |[|] m e];
    cbn [Py.Z_SF_compare option_map Py.signed CompOpp];
    try discriminate; try reflexivity.
  destruct (0 <=? e) eqn:E0.
    + apply Z.leb_le in E0.
      assert (0 < Zpos m * 2 ^ e)
        by (apply Z.mul_pos_pos; [lia|apply Z.pow_pos_nonneg; lia]).
      assert ((0 ?= Zpos m * 2 ^ e) = Lt) as -> by (apply Z.compare_lt_iff; lia).
      cbn [CompOpp]. discriminate.
    + apply Z.leb_gt in E0.
      assert (0 < 2 ^ (- e)) by (apply Z.pow_pos_nonneg; lia).
      assert ((0 * 2 ^ (- e) ?= Zpos m) = Lt) as ->
        by (apply Z.compare_lt_iff; lia).
      cbn [CompOpp]. discriminate.
Qed.

Lemma shear_of_negative_fc (support : string) (span : num)
    (wopt dopt : option num) (f : float) :
  Py.lt (Float f) (Int 0) = true ->
  exists e, shear_of support span wopt dopt (Float f) = Raise e.
Proof.
  intros Hlt. unfold shear_of, phiVc_of.
  rewrite (sqrt_negative_float f Hlt).
  repeat match goal with
         | |- exists e, rbind ?r _ = Raise e =>
             destruct r; cbn [rbind]; [|eauto]
         end.
  cbn [rbind]. eauto.
Qed.

(** X3. design() never returns a result for a float f'c below zero: the
    square root in check_shear raises (after thickness, load, moments,
    depth, reinforcement and shrinkage have been computed and stored). *)
Theorem design_negative_fc (w : world) (f : float) :
  fc_prime (material (self w)) = Float f ->
  Py.lt (Float f) (Int 0) = true ->
  exists e, fst (design w) = Raise e.
Proof.
  intros Hfc Hlt. destruct w as [s m]. rewrite design_eq. cbn [self] in Hfc.
  rewrite Hfc.
  destruct (h_rounded_of _ _); [|cbn; eauto]. cbv zeta.
  destruct (load_combination _ _ _ _) as [[[wv td] sw]|]; [|cbn; eauto].
  destruct (rbind _ _); [|cbn; eauto].
  destruct (effective_depth_of _ _ _) as [dd|]; [|cbn; eauto].
  destruct (fst (reinforcement_of _ _ _ _ _ _)); [|cbn; eauto].
  destruct (shrinkage_steel_of _ _ _); [|cbn; eauto].
  destruct (shear_of_negative_fc (support_condition s) (clear_span s)
              (Some wv) (Some dd) f Hlt) as [e ->].
  cbn. eauto.
Qed.

Lemma design_negative_fc_witness :
  exists e, fst (design scenario_negative_fc) = Raise e.
Proof.
  apply (design_negative_fc scenario_negative_fc (-28)%float).
  - reflexivity.
  - vm_compute. reflexivity.
Defined.

(** X4. Whatever the outcome, design() leaves the inputs of the object as
    they were (span, material, loads, support condition, bars, override);
    when it returns, every computed attribute of the object holds the value
    that the result reports. *)
Theorem design_updates_attributes (w : world) :
  same_inputs (self w) (self (snd (design w))) /\
  forall r, fst (design w) = Ok r ->
    h (self (snd (design w))) = Some (thickness r) /\
    d (self (snd (design w))) = Some (effective_depth r) /\
    wu (self (snd (design w))) = Some (factored_load r) /\
    moments (self (snd (design w))) = r_moments r /\
    reinforcement (self (snd (design w))) = r_reinforcement r /\
    shrinkage (self (snd (design w))) = Some (r_shrinkage r) /\
    shear (self (snd (design w))) = Some (r_shear r).
Proof.
  destruct w as [s m]. split.
  - destruct (design_state s m) as (s' & -> & Ha). cbn [self].
    apply (assigned_same_inputs _ _ Ha).
  - rewrite design_eq.
    destruct (h_rounded_of _ _); [|discriminate]. cbv zeta.
    destruct (load_combination _ _ _ _) as [[[wv td] sw]|]; [|discriminate].
    destruct (rbind _ _) as [mo|]; [|discriminate].
    destruct (effective_depth_of _ _ _); [|discriminate].
    destruct (fst (reinforcement_of _ _ _ _ _ _)); [|discriminate].
    destruct (shrinkage_steel_of _ _ _); [|discriminate].
    destruct (shear_of _ _ _ _ _); [|discriminate].
    cbn [fst snd self]. intros r Hr. apply Ok_inj in Hr. subst r.
    cbn [thickness effective_depth factored_load r_moments r_reinforcement
         r_shrinkage r_shear].
    destruct mo; destruct s; repeat split.
Qed.

(** The notes list across a call of design(). *)
Lemma design_notes_frame (w : world) :
  (notes (self w) < List.length (mem w))%nat ->
  let w' := snd (design w) in
  let warning :=
    match h_rounded_of (clear_span (self w)) (support_condition (self w)),
          supplied (user_h (self w)) with
    | Ok hr, Some u =>
        if Py.lt u (Int hr) then [WarningBelowMinimum u hr] else []
    | _, _ => []
    end in
  notes (self w') = notes (self w) /\
  store_read (mem w') (notes (self w))
    = store_read (mem w) (notes (self w)) ++ warning /\
  (forall b, b <> notes (self w) ->
     store_read (mem w') b = store_read (mem w) b) /\
  (forall r, fst (design w) = Ok r -> r_notes r = notes (self w)).
Proof.
  destruct w as [s m]. cbn [self mem]. intros Haddr. cbv zeta.
  destruct (design_state s m) as (s' & E & Ha). rewrite E. cbn [self mem].
  destruct (assigned_same_inputs _ _ Ha) as [_ Hn].
  split; [exact Hn|].
  assert (Hres : forall r, fst (design {| self := s; mem := m |}) = Ok r ->
                           r_notes r = notes s).
  { rewrite design_eq.
    destruct (h_rounded_of _ _); [|discriminate]. cbv zeta.
    destruct (load_combination _ _ _ _) as [[[wv td] sw]|]; [|discriminate].
    destruct (rbind _ _) as [mo|]; [|discriminate].
    destruct (effective_depth_of _ _ _); [|discriminate].
    destruct (fst (reinforcement_of _ _ _ _ _ _)); [|discriminate].
    destruct (shrinkage_steel_of _ _ _); [|discriminate].
    destruct (shear_of _ _ _ _ _); [|discriminate].
    cbn [fst]. intros r Hr. apply Ok_inj in Hr. now subst r. }
  destruct (h_rounded_of (clear_span s) (support_condition s)) as [hr|e0].
  - destruct (supplied (user_h s)) as [u|].
    + destruct (Py.lt u (Int hr)).
      * destruct (store_append_read m (notes s)
                    (WarningBelowMinimum u hr) Haddr) as [R1 R2].
        repeat split; auto.
      * rewrite app_nil_r. repeat split; auto.
    + rewrite app_nil_r. repeat split; auto.
  - rewrite app_nil_r. repeat split; auto.
Qed.



(** ** design() is a function of the inputs *)

Lemma moments_stage_known (span : num) (support : string) (hr : Z)
    (wv : num) (mo : option (dict num)) :
  h_rounded_of span support = Ok hr ->
  rbind (base_moment_of wv span) (moments_of support) = Ok mo ->
  exists ms, mo = Some ms /\ ms <> [] /\ NoDup (dict_keys ms).
Proof.
  intros Hh Hm. apply h_rounded_of_known in Hh.
  destruct (base_moment_of wv span) as [bm|]; cbn [rbind] in Hm;
    [|discriminate].
  exact (moments_of_known support bm mo Hh Hm).
Qed.

(** X6. Everything design() computes depends on the inputs alone: two
    objects with the same inputs, whatever their computed attributes and
    notes held before, either both raise the same exception or both return,
    with the same thickness, effective depth, load, self-weight, dead load,
    moments, reinforcement, shrinkage steel and shear check.  Only the
    notes list can differ. *)
Theorem design_depends_on_inputs_only (w w' : world) :
  same_inputs (self w) (self w') ->
  match fst (design w), fst (design w') with
  | Ok r, Ok r' =>
      thickness r' = thickness r /\
      effective_depth r' = effective_depth r /\
      factored_load r' = factored_load r /\
      self_weight r' = self_weight r /\
      total_dead r' = total_dead r /\
      r_moments r' = r_moments r /\
      r_reinforcement r' = r_reinforcement r /\
      r_shrinkage r' = r_shrinkage r /\
      r_shear r' = r_shear r
  | Raise e, Raise e' => e' = e
  | _, _ => False
  end.
Proof.
  destruct w as [s m], w' as [s' m']. cbn [self].
  intros (E1 & E2 & E3 & E4 & E5 & E6 & E7).
  rewrite !design_eq. rewrite E1, E2, E3, E4, E5, E6, E7.
  destruct (h_rounded_of (clear_span s) (support_condition s)) as [hr|e0] eqn:Eh;
    [|reflexivity].
  cbv zeta.
  set (hh := match supplied (user_h s) with Some u => u | None => Int hr end).
  destruct (load_combination _ _ _ _) as [[[wv td] sw]|e1]; [|reflexivity].
  destruct (rbind (base_moment_of wv (clear_span s)) _) as [mo|e2] eqn:Em;
    [|reflexivity].
  destruct (moments_stage_known _ _ _ _ _ Eh Em) as (ms & -> & _ & _).
  replace (moments (set_moments (set_wu (set_h s' hh) wv) ms)) with ms
    by (destruct s'; reflexivity).
  replace (moments (set_moments (set_wu (set_h s hh) wv) ms)) with ms
    by (destruct s; reflexivity).
  destruct (effective_depth_of _ _ _) as [dd|e3]; [|reflexivity].
  destruct (fst (reinforcement_of _ _ _ _ _ _)) as [u|e4]; [|reflexivity].
  destruct (shrinkage_steel_of _ _ _) as [shr|e5]; [|reflexivity].
  destruct (shear_of _ _ _ _ _) as [shc|e6]; [|reflexivity].
  cbn [fst thickness effective_depth factored_load self_weight total_dead
       r_moments r_reinforcement r_shrinkage r_shear].
  repeat split.
Qed.

(** The object of scenario C, reused for a second design, against a new
    object with the same inputs. *)
Lemma design_depends_on_inputs_only_witness :
  match fst (design (snd (design scenario_C))), fst (design scenario_C) with
  | Ok r, Ok r' =>
      thickness r' = thickness r /\
      effective_depth r' = effective_depth r /\
      factored_load r' = factored_load r /\
      self_weight r' = self_weight r /\
      total_dead r' = total_dead r /\
      r_moments r' = r_moments r /\
      r_reinforcement r' = r_reinforcement r /\
      r_shrinkage r' = r_shrinkage r /\
      r_shear r' = r_shear r
  | Raise e, Raise e' => e' = e
  | _, _ => False
  end.
Proof.
  apply (design_depends_on_inputs_only (snd (design scenario_C)) scenario_C).
  vm_compute. repeat split.
Defined.

(** ** One flexural design per moment above zero *)

Lemma dict_get_set_same {V} (dct : dict V) (k : string) (v : V) :
  dict_get (dict_set dct k v) k = Some v.
Proof.
  induction dct as [|[k' v'] rest IH]; cbn [dict_set dict_get].
  - now rewrite String.eqb_refl.
  - destruct (String.eqb k k') eqn:E; cbn [dict_get]; rewrite E; auto.
Qed.

Lemma dict_get_set_other {V} (dct : dict V) (k k0 : string) (v : V) :
  k0 <> k -> dict_get (dict_set dct k v) k0 = dict_get dct k0.
Proof.
  intros Hne. induction dct as [|[k' v'] rest IH]; cbn [dict_set dict_get].
  - destruct (String.eqb_spec k0 k); [contradiction|reflexivity].
  - destruct (String.eqb_spec k k') as [->|Hk]; cbn [dict_get].
    + destruct (String.eqb_spec k0 k'); [contradiction|reflexivity].
    + destruct (String.eqb k0 k'); [reflexivity|exact IH].
Qed.

Lemma dict_keys_set_new {V} (dct : dict V) (k : string) (v : V) :
  ~ In k (dict_keys dct) ->
  dict_keys (dict_set dct k v) = dict_keys dct ++ [k].
Proof.
  unfold dict_keys. induction dct as [|[k' v'] rest IH];
    cbn [dict_set map fst app In]; intros Hn; [reflexivity|].
  destruct (String.eqb_spec k k') as [->|Hk]; [tauto|].
  cbn [map fst]. f_equal. apply IH. tauto.
Qed.

Lemma dict_get_In {V} (dct : dict V) (k : string) (v : V) :
  dict_get dct k = Some v -> In k (dict_keys dct).
Proof.
  unfold dict_keys. induction dct as [|[k' v'] rest IH];
    cbn [dict_get map fst In]; [discriminate|].
  destruct (String.eqb_spec k k') as [->|Hk]; auto.
Qed.

Lemma required_steel_of_fields
    (hopt : option num) (dd : num) (mat : MaterialProperties)
    (bar : BarProperties) (Mu : num) (location : string) (st : steel) :
  required_steel_of hopt dd mat bar Mu location = Ok st ->
  st_location st = location /\ st_Mu st = Mu /\
  st_bar_size st = bar_size bar /\ st_bar_area st = area bar.
Proof.
  unfold required_steel_of. intros H. repeat step. repeat split.
Qed.

(** The moments that get a flexural design. *)
Lemma reinforcement_of_spec (hopt : option num) (dd : num)
    (mat : MaterialProperties) (bar : BarProperties) (items : dict num) :
  forall (acc : dict steel) (u : unit) (rf : dict steel),
  NoDup (dict_keys items) ->
  (forall k, In k (dict_keys items) -> ~ In k (dict_keys acc)) ->
  reinforcement_of hopt dd mat bar items acc = (Ok u, rf) ->
  dict_keys rf
    = dict_keys acc
      ++ dict_keys (filter (fun '(_, Mu) => negb (Py.le Mu (Int 0))) items) /\
  (forall k, ~ In k (dict_keys items) -> dict_get rf k = dict_get acc k) /\
  (forall k Mu, dict_get items k = Some Mu ->
     if Py.le Mu (Int 0) then dict_get rf k = dict_get acc k
     else exists st, dict_get rf k = Some st /\
                     required_steel_of hopt dd mat bar Mu k = Ok st).
Proof.
  induction items as [|[location Mu] rest IH]; intros acc u rf Hnd Hfresh H.
  - cbn [reinforcement_of] in H. inversion H; subst rf.
    cbn [filter dict_keys map]. rewrite app_nil_r.
    split; [reflexivity|]. split; [reflexivity|]. discriminate.
  - cbn [reinforcement_of] in H.
    cbn [dict_keys map fst] in Hnd, Hfresh. fold (dict_keys rest) in *.
    inversion Hnd as [|? ? Hnotin Hnd']; subst.
    cbn [filter].
    destruct (Py.le Mu (Int 0)) eqn:Ele; cbn [negb].
    + destruct (IH acc u rf Hnd'
                  (fun k Hk => Hfresh k (or_intror Hk)) H) as (K1 & K2 & K3).
      split; [exact K1|]. split.
      * intros k Hk. apply K2. cbn [dict_keys map fst In] in Hk.
        fold (dict_keys rest) in Hk. tauto.
      * intros k Mu'. cbn [dict_get].
        destruct (String.eqb_spec k location) as [->|Hk].
        -- intros E. inversion E; subst Mu'. rewrite Ele.
           apply K2. exact Hnotin.
        -- apply K3.
    + destruct (required_steel_of hopt dd mat bar Mu location) as [st|e] eqn:Er;
        [|discriminate].
      assert (Hloc : ~ In location (dict_keys acc))
        by (apply Hfresh; left; reflexivity).
      assert (Hfresh' : forall k, In k (dict_keys rest) ->
                ~ In k (dict_keys (dict_set acc location st))).
      { intros k Hk. rewrite (dict_keys_set_new acc location st Hloc).
        intros Hin. apply in_app_or in Hin. destruct Hin as [Hin|[<-|[]]].
        - exact (Hfresh k (or_intror Hk) Hin).
        - exact (Hnotin Hk). }
      destruct (IH _ u rf Hnd' Hfresh' H) as (K1 & K2 & K3).
      split; [|split].
      * rewrite K1, (dict_keys_set_new acc location st Hloc).
        cbn [dict_keys map fst]. rewrite <- app_assoc. reflexivity.
      * intros k Hk. cbn [dict_keys map fst In] in Hk.
        fold (dict_keys rest) in Hk.
        rewrite (K2 k ltac:(tauto)).
        apply dict_get_set_other. intros ->. tauto.
      * intros k Mu'. cbn [dict_get].
        destruct (String.eqb_spec k location) as [->|Hk].
        -- intros E. inversion E; subst Mu'. rewrite Ele.
           exists st. split; [|exact Er].
           rewrite (K2 location Hnotin). apply dict_get_set_same.
        -- intros E. specialize (K3 k Mu' E).
           destruct (Py.le Mu' (Int 0)); [|exact K3].
           rewrite K3. now apply dict_get_set_other.
Qed.

(** X7. In a result of design() the reinforcement dict has one entry for
    each moment that is not <= 0, under the moment's location and in the
    order of the moments, and none for the others; the entry records that
    location, that moment and the main bar. *)
Theorem design_reinforcement_keys (w : world) (r : DesignResult) :
  fst (design w) = Ok r ->
  dict_keys (r_reinforcement r)
    = dict_keys (filter (fun '(_, Mu) => negb (Py.le Mu (Int 0)))
                   (r_moments r)) /\
  (forall location, ~ In location (dict_keys (r_moments r)) ->
     dict_get (r_reinforcement r) location = None) /\
  (forall location Mu,
     dict_get (r_moments r) location = Some Mu ->
     if Py.le Mu (Int 0)
     then dict_get (r_reinforcement r) location = None
     else exists st,
       dict_get (r_reinforcement r) location = Some st /\
       st_location st = location /\ st_Mu st = Mu /\
       st_bar_size st = bar_size (main_bar (self w)) /\
       st_bar_area st = area (main_bar (self w))).
Proof.
  destruct w as [s m]. rewrite design_eq. cbn [self].
  destruct (h_rounded_of _ _) as [hr|] eqn:Eh; [|discriminate]. cbv zeta.
  destruct (load_combination _ _ _ _) as [[[wv td] sw]|]; [|discriminate].
  destruct (rbind _ _) as [mo|] eqn:Em; [|discriminate].
  destruct (moments_stage_known _ _ _ _ _ Eh Em) as (ms & -> & _ & Hnd).
  destruct (effective_depth_of _ _ _) as [dd|]; [|discriminate].
  replace (moments (set_moments (set_wu (set_h s
             match supplied (user_h s) with Some u => u | None => Int hr end)
             wv) ms)) with ms by (destruct s; reflexivity).
  destruct (reinforcement_of _ dd (material s) (main_bar s) ms [])
    as [lr rf] eqn:Er. cbn [fst snd].
  destruct lr as [u|]; [|discriminate].
  destruct (shrinkage_steel_of _ _ _); [|discriminate].
  destruct (shear_of _ _ _ _ _); [|discriminate].
  intros Hr. apply Ok_inj in Hr. subst r. cbn [r_reinforcement r_moments].
  destruct (reinforcement_of_spec _ _ _ _ ms [] u rf Hnd
              (fun k _ Hin => Hin) Er) as (K1 & K2 & K3).
  split; [exact K1|]. split; [exact K2|].
  intros location Mu E. specialize (K3 location Mu E).
  destruct (Py.le Mu (Int 0)); [exact K3|].
  destruct K3 as (st & Hst & Hreq). exists st. split; [exact Hst|].
  exact (required_steel_of_fields _ _ _ _ _ _ _ Hreq).
Qed.

Lemma design_reinforcement_keys_witness :
  exists r,
    fst (design scenario_A) = Ok r /\
    (dict_keys (r_reinforcement r)
       = dict_keys (filter (fun '(_, Mu) => negb (Py.le Mu (Int 0)))
                      (r_moments r)) /\
     (forall location, ~ In location (dict_keys (r_moments r)) ->
        dict_get (r_reinforcement r) location = None) /\
     (forall location Mu,
        dict_get (r_moments r) location = Some Mu ->
        if Py.le Mu (Int 0)
        then dict_get (r_reinforcement r) location = None
        else exists st,
          dict_get (r_reinforcement r) location = Some st /\
          st_location st = location /\ st_Mu st = Mu /\
          st_bar_size st = bar_size (main_bar (self scenario_A)) /\
          st_bar_area st = area (main_bar (self scenario_A)))).
Proof.
  eexists. split; [vm_compute; reflexivity|].
  apply (design_reinforcement_keys scenario_A).
  vm_compute. reflexivity.
Defined.

(** ** The spacing the sizers floor *)

Lemma min_scaled_le_right (a b : num) :
  finite_num (Py.min a b) = true -> finite_num b = true ->
  scaled (Py.min a b) <= scaled b.
Proof.
  unfold Py.min. destruct (Py.lt b a) eqn:E; intros Hm Hb; [lia|].
  destruct (Z_le_gt_dec (scaled a) (scaled b)) as [|Hgt]; [assumption|].
  assert (Hlt : scaled b < scaled a) by lia.
  apply (lt_scaled b a Hb Hm) in Hlt. congruence.
Qed.

Lemma min_scaled_le_left (a b : num) :
  finite_num (Py.min a b) = true -> finite_num a = true ->
  scaled (Py.min a b) <= scaled a.
Proof.
  unfold Py.min. destruct (Py.lt b a) eqn:E; intros Hm Ha; [|lia].
  apply (lt_scaled b a Hm Ha) in E. lia.
Qed.

Lemma scaled_Int (z : Z) : scaled (Int z) = z * 2 ^ 1074.
Proof. reflexivity. Qed.

Lemma two_1074_pos : 0 < 2 ^ 1074.
Proof. apply Z.pow_pos_nonneg; lia. Qed.

(** The code maximum [min(c * h, 450)] is at most 450 when it is a
    number. *)
Lemma code_max_le_450 (hc : num) :
  finite_num (Py.min hc (Int 450)) = true ->
  scaled (Py.min hc (Int 450)) <= 450 * 2 ^ 1074.
Proof.
  intros Hf. rewrite <- scaled_Int. now apply min_scaled_le_right.
Qed.

Lemma catalog_area_int (name : string) (bar : BarProperties) :
  BarProperties_init name = Ok bar -> exists a, area bar = Int a /\ 0 < a.
Proof.
  unfold BarProperties_init, BAR_DATA. cbn [dict_get].
  repeat match goal with
         | |- context [String.eqb name ?k] =>
             destruct (String.eqb name k);
             [intros H; apply Ok_inj in H; subst bar; eexists;
              split; [reflexivity|lia]|]
         end.
  discriminate.
Qed.

(** A float that is not negative and is not below 2^53 is not below 25. *)
Lemma not_small_not_below_25 (f : float) :
  nnum (Float f) = true -> small_nonneg (Float f) = false ->
  Py.lt (Float f) (Int 25) = false.
Proof.
  cbn [nnum small_nonneg]. unfold Py.lt, Py.compare.
  pose proof (Prim2SF_valid f) as Hv.
  destruct (Prim2SF f) as [s|s| |s m e];
    cbn [Sign.nn Sign.nonneg Py.Z_SF_compare option_map]; try discriminate;
    try reflexivity.
  - destruct s; [discriminate|reflexivity].
  - destruct s; [discriminate|]. intros _ He. apply Z.leb_gt in He.
    cbn [Py.signed].
    assert ((0 <=? e) = true) as -> by (apply Z.leb_le; lia).
    pose proof (valid_positive_exponent _ _ _ Hv ltac:(lia)) as Hbig.
    assert (25 < 2 ^ 53) by reflexivity.
    assert ((25 ?= Zpos m * 2 ^ e) = Lt) as -> by (apply Z.compare_lt_iff; lia).
    reflexivity.
Qed.

Lemma floor_div25_no_zero_division (x : num) :
  floor_div25 x <> Raise ZeroDivisionError.
Proof.
  unfold floor_div25. intros H.
  destruct (Py.truediv x (Int 25)) as [q|e] eqn:E; cbn [rbind] in H.
  - destruct q as [z|f]; cbn [Py.floor] in H; [discriminate|].
    destruct (Prim2SF f); discriminate.
  - inversion H; subst e.
    exact (truediv_by_literal x 25 ltac:(lia) E).
Qed.

(** The stages of the shrinkage sizer up to the spacing it floors, for a
    thickness and fy above zero and a catalog bar. *)
Lemma shrinkage_spacing_stage
    (hh : num) (mat : MaterialProperties) (bar : BarProperties)
    (name : string) (Ag As n sr h5 : num) :
  Py.gt hh (Int 0) = true ->
  Py.gt (fy mat) (Int 0) = true ->
  BarProperties_init name = Ok bar ->
  Py.mul (Int 1000) hh = Ok Ag ->
  As_sh_req_of (fy mat) Ag = Ok As ->
  Py.mul (Int 1000) (area bar) = Ok n ->
  Py.truediv n As = Ok sr ->
  Py.mul (Int 5) hh = Ok h5 ->
  let m := Py.min sr (Py.min h5 (Int 450)) in
  (exists a, n = Int a /\ 0 < a) /\
  shrinkage_steel_of hh mat bar =
    (k <- floor_div25 m ;;
     As_provided <- Py.truediv n (Int (k * 25)) ;;
     Ok {| sh_As_req := As; sh_As_prov := As_provided;
           sh_spacing_req := sr; sh_spacing_max := m;
           sh_spacing_final := k * 25;
           sh_bar_size := bar_size bar; sh_bar_area := area bar |})%res /\
  (small_nonneg m = true /\ scaled m <= 450 * 2 ^ 1074 \/
   (exists e, floor_div25 m = Raise e) /\ Py.lt m (Int 25) = false).
Proof.
  intros Hh Hfy Hbar EAg EAs En Esr Eh5 m.
  destruct (catalog_area_int _ _ Hbar) as (a & Ha & Hapos).
  assert (Hn : n = Int (1000 * a)).
  { rewrite Ha in En. cbn in En. now apply Ok_inj in En. }
  split; [exists (1000 * a); split; [exact Hn|lia]|].
  split.
  { unfold shrinkage_steel_of, floor_div25.
    rewrite EAg. cbn [rbind]. rewrite EAs. cbn [rbind].
    rewrite En. cbn [rbind]. rewrite Esr. cbn [rbind].
    rewrite Eh5. cbn [rbind]. fold m.
    destruct (Py.truediv m (Int 25)) as [q|]; cbn [rbind]; [|reflexivity].
    destruct (Py.floor q) as [k|]; cbn [rbind]; reflexivity. }
  pose proof (gt_zero_nnum _ Hh) as Nh.
  pose proof (gt_zero_nnum _ Hfy) as Nfy.
  pose proof (nnum_mul (Int 1000) hh Ag eq_refl Nh EAg) as NAg.
  pose proof (As_sh_req_nnum _ _ _ Nfy NAg EAs) as NAs.
  pose proof (nnum_mul (Int 1000) (area bar) n eq_refl
                (catalog_area_nnum _ _ Hbar) En) as Nn.
  pose proof (nnum_truediv _ _ _ Nn NAs Esr) as Nsr.
  destruct (truediv_is_float _ _ _ Esr) as [fsr ->].
  pose proof (code_max_small _ _ Hh Eh5) as Hc.
  pose proof (code_max_le_450 h5 (small_nonneg_finite _ Hc)) as Hc450.
  destruct (floor_div25 m) as [k|e] eqn:Ek.
  - left. pose proof (spacing_max_small _ _ _ Hc Nsr Ek) as Hs.
    split; [exact Hs|].
    pose proof (min_scaled_le_right (Float fsr) (Py.min h5 (Int 450))
                  (small_nonneg_finite _ Hs) (small_nonneg_finite _ Hc)).
    fold m in H. lia.
  - right. split; [eauto|].
    destruct (small_nonneg m) eqn:Hs.
    + destruct (floor_div25_exact m Hs) as (k & Hk & _). congruence.
    + subst m. set (c := Py.min h5 (Int 450)) in *.
      unfold Py.min in Hs |- *.
      destruct (Py.lt c (Float fsr)); [congruence|].
      now apply not_small_not_below_25.
Qed.

(** X8. For a thickness and fy above zero and a catalog bar, the final
    shrinkage spacing that calculate_shrinkage_steel returns is exactly the
    largest multiple of 25 that is not above
    spacing_max = min(spacing_req, 5 * thickness, 450): binary64 rounding
    in [spacing_max / 25] never moves the floor.  It lies between 25 and
    450. *)
Theorem shrinkage_spacing_exact
    (w : world) (hh : num) (name : string) (r : shrink) :
  h (self w) = Some hh ->
  Py.gt hh (Int 0) = true ->
  Py.gt (fy (material (self w))) (Int 0) = true ->
  BarProperties_init name = Ok (shrinkage_bar (self w)) ->
  fst (calculate_shrinkage_steel w) = Ok r ->
  (25 | sh_spacing_final r) /\
  25 <= sh_spacing_final r <= 450 /\
  Py.le (Int (sh_spacing_final r)) (sh_spacing_max r) = true /\
  Py.lt (sh_spacing_max r) (Int (sh_spacing_final r + 25)) = true.
Proof.
  intros Hh Hhpos Hfy Hbar.
  rewrite (calculate_shrinkage_steel_eq w hh Hh). cbn [fst].
  set (mat := material (self w)) in *. set (bar := shrinkage_bar (self w)) in *.
  intros Hr.
  assert (Hst := Hr). unfold shrinkage_steel_of in Hst.
  destruct (Py.mul (Int 1000) hh) as [Ag|] eqn:EAg;
    cbn [rbind] in Hst; [|discriminate].
  destruct (As_sh_req_of (fy mat) Ag) as [As|] eqn:EAs;
    cbn [rbind] in Hst; [|discriminate].
  destruct (Py.mul (Int 1000) (area bar)) as [n|] eqn:En;
    cbn [rbind] in Hst; [|discriminate].
  destruct (Py.truediv n As) as [sr|] eqn:Esr;
    cbn [rbind] in Hst; [|discriminate].
  destruct (Py.mul (Int 5) hh) as [h5|] eqn:Eh5;
    cbn [rbind] in Hst; [|discriminate].
  clear Hst.
  destruct (shrinkage_spacing_stage hh mat bar name Ag As n sr h5
              Hhpos Hfy Hbar EAg EAs En Esr Eh5)
    as ((a & -> & Ha) & Heq & Hcases).
  rewrite Heq in Hr. cbv zeta in Hcases.
  set (m := Py.min sr (Py.min h5 (Int 450))) in *.
  destruct Hcases as [[Hs H450]|[[e He] _]];
    [|rewrite He in Hr; discriminate].
  destruct (floor_div25_exact m Hs) as (k & Hk & Hk0 & Hle & Hlt).
  rewrite Hk in Hr. cbn [rbind] in Hr.
  destruct (Py.truediv (Int a) (Int (k * 25))) as [prov|] eqn:Eprov;
    cbn [rbind] in Hr; [|discriminate].
  apply Ok_inj in Hr. subst r. cbn [sh_spacing_final sh_spacing_max].
  assert (Hk1 : k <> 0).
  { intros ->. cbn in Eprov. discriminate. }
  split; [exists k; reflexivity|].
  split; [|split; assumption].
  split; [lia|].
  apply (le_scaled (Int (k * 25)) m eq_refl (small_nonneg_finite _ Hs)) in Hle.
  rewrite scaled_Int in Hle. pose proof two_1074_pos. nia.
Qed.

Lemma shrinkage_spacing_exact_witness :
  exists r,
    fst (calculate_shrinkage_steel (snd (design scenario_A))) = Ok r /\
    ((25 | sh_spacing_final r) /\
     25 <= sh_spacing_final r <= 450 /\
     Py.le (Int (sh_spacing_final r)) (sh_spacing_max r) = true /\
     Py.lt (sh_spacing_max r) (Int (sh_spacing_final r + 25)) = true).
Proof.
  eexists. split; [vm_compute; reflexivity|].
  apply (shrinkage_spacing_exact (snd (design scenario_A)) (Int 180) "#13").
  - vm_compute. reflexivity.
  - vm_compute. reflexivity.
  - vm_compute. reflexivity.
  - vm_compute. reflexivity.
  - vm_compute. reflexivity.
Defined.

(** X9. For a thickness and fy above zero and a catalog bar whose stages
    up to the spacing have been computed, the shrinkage sizer raises
    ZeroDivisionError exactly when
    spacing_max = min(spacing_req, 5 * thickness, 450) is below 25: the
    floor to a multiple of 25 is then 0, and [As_provided] divides by it. *)
Theorem shrinkage_zero_division_iff
    (hh : num) (mat : MaterialProperties) (bar : BarProperties)
    (name : string) (Ag As n sr h5 : num) :
  Py.gt hh (Int 0) = true ->
  Py.gt (fy mat) (Int 0) = true ->
  BarProperties_init name = Ok bar ->
  Py.mul (Int 1000) hh = Ok Ag ->
  As_sh_req_of (fy mat) Ag = Ok As ->
  Py.mul (Int 1000) (area bar) = Ok n ->
  Py.truediv n As = Ok sr ->
  Py.mul (Int 5) hh = Ok h5 ->
  (shrinkage_steel_of hh mat bar = Raise ZeroDivisionError <->
   Py.lt (Py.min sr (Py.min h5 (Int 450))) (Int 25) = true).
Proof.
  intros Hhpos Hfy Hbar EAg EAs En Esr Eh5.
  destruct (shrinkage_spacing_stage hh mat bar name Ag As n sr h5
              Hhpos Hfy Hbar EAg EAs En Esr Eh5)
    as ((a & -> & Ha) & Heq & Hcases).
  rewrite Heq. cbv zeta in Hcases.
  set (m := Py.min sr (Py.min h5 (Int 450))) in *.
  destruct Hcases as [[Hs H450]|[[e He] Hlt]].
  - destruct (floor_div25_exact m Hs) as (k & Hk & Hk0 & Hle & Hlt).
    rewrite Hk. cbn [rbind].
    pose proof (small_nonneg_finite _ Hs) as Hf.
    apply (le_scaled (Int (k * 25)) m eq_refl Hf) in Hle.
    apply (lt_scaled m (Int (k * 25 + 25)) Hf eq_refl) in Hlt.
    rewrite scaled_Int in Hle, Hlt. pose proof two_1074_pos as HP.
    destruct (Z.eq_dec k 0) as [->|Hk1].
    + split; [intros _|intros _; reflexivity].
      apply (lt_scaled m (Int 25) Hf eq_refl). rewrite scaled_Int. lia.
    + split.
      * intros H. exfalso.
        unfold Py.truediv, Py.int_truediv in H.
        assert ((k * 25 =? 0) = false) as E0 by (apply Z.eqb_neq; lia).
        rewrite E0 in H.
        assert ((a =? 0) = false) as E1 by (apply Z.eqb_neq; lia).
        rewrite E1 in H.
        destruct (Py.is_inf_SF _) in H; cbn [rbind] in H; discriminate.
      * intros H. exfalso.
        apply (lt_scaled m (Int 25) Hf eq_refl) in H.
        rewrite scaled_Int in H. nia.
  - rewrite He. cbn [rbind]. rewrite Hlt. split; [|discriminate].
    intros H. inversion H; subst e.
    exfalso. exact (floor_div25_no_zero_division m He).
Qed.

Lemma shrinkage_zero_division_iff_witness :
  shrinkage_steel_of (Int 1500) (material (self scenario_thick)) bar10
    = Raise ZeroDivisionError <->
  Py.lt (Py.min (Float 23.666666666666668)
           (Py.min (Int 7500) (Int 450))) (Int 25) = true.
Proof.
  apply (shrinkage_zero_division_iff (Int 1500)
           (material (self scenario_thick)) bar10 "#10"
           (Int 1500000) (Float 3000) (Int 71000)
           (Float 23.666666666666668) (Int 7500));
    vm_compute; reflexivity.
Defined.

(** ** The flexural spacing lies between 75 and 450 *)

Lemma lt_irrefl (a : num) : Py.lt a a = false.
Proof.
  unfold Py.lt. pose proof (num_compare_antisym a a) as H.
  destruct (Py.compare a a) as [[| |]|]; cbn in H; try reflexivity.
  discriminate.
Qed.

Lemma lt_gt_flip (a b : num) : Py.lt a b = Py.gt b a.
Proof.
  unfold Py.lt, Py.gt. rewrite (num_compare_antisym a b).
  destruct (Py.compare a b) as [[| |]|]; reflexivity.
Qed.

(** [max(a, b)] is one of the two and is below neither. *)
Lemma max_not_below (a b : num) :
  (Py.max a b = a \/ Py.max a b = b) /\
  Py.lt (Py.max a b) a = false /\ Py.lt (Py.max a b) b = false.
Proof.
  unfold Py.max. destruct (Py.gt b a) eqn:E.
  - split; [auto|]. split; [|apply lt_irrefl].
    rewrite lt_gt_flip. unfold Py.gt in *.
    rewrite (num_compare_antisym b a).
    destruct (Py.compare b a) as [[| |]|]; try discriminate; reflexivity.
  - split; [auto|]. split; [apply lt_irrefl|].
    now rewrite lt_gt_flip.
Qed.

(** The fields of a flexural design that returned. *)
Lemma required_steel_of_steel
    (hopt : option num) (dd : num) (mat : MaterialProperties)
    (bar : BarProperties) (Mu : num) (location : string) (st : steel) :
  required_steel_of hopt dd mat bar Mu location = Ok st ->
  st_As_final st = Py.max (st_As_req st) (st_As_min st) /\
  exists n, Py.mul (Int 1000) (area bar) = Ok n /\
            Py.truediv n (Int (st_spacing_final st)) = Ok (st_As_prov st).
Proof.
  unfold required_steel_of. intros H. repeat step.
  destruct hopt as [hh|]; [|discriminate].
  cbn [Py.bound] in *. repeat step.
  cbn [st_As_final st_As_req st_As_min st_spacing_final st_As_prov].
  split; [reflexivity|]. eauto.
Qed.

(** X10. In every flexural design that calculate_required_steel returns,
    the adopted steel area As_final is the required area or the code
    minimum, and is below neither (also when one of them is a NaN); the
    provided area is 1000 * bar_area / spacing_final. *)
Theorem flexural_steel_adopted
    (w : world) (Mu : num) (location : string) (st : steel) :
  fst (calculate_required_steel Mu location w) = Ok (Some st) ->
  (st_As_final st = st_As_req st \/ st_As_final st = st_As_min st) /\
  Py.lt (st_As_final st) (st_As_req st) = false /\
  Py.lt (st_As_final st) (st_As_min st) = false /\
  exists n, Py.mul (Int 1000) (area (main_bar (self w))) = Ok n /\
            Py.truediv n (Int (st_spacing_final st)) = Ok (st_As_prov st).
Proof.
  intros H. destruct (calculate_required_steel_Some _ _ _ _ H) as (_ & dd & Hr).
  destruct (required_steel_of_steel _ _ _ _ _ _ _ Hr) as (-> & Hn).
  destruct (max_not_below (st_As_req st) (st_As_min st)) as (H1 & H2 & H3).
  auto.
Qed.

Lemma flexural_steel_adopted_witness :
  exists st,
    fst (calculate_required_steel (Float 18.375) "Positive Moment (Midspan)"
           (snd (design scenario_A))) = Ok (Some st) /\
    ((st_As_final st = st_As_req st \/ st_As_final st = st_As_min st) /\
     Py.lt (st_As_final st) (st_As_req st) = false /\
     Py.lt (st_As_final st) (st_As_min st) = false /\
     exists n,
       Py.mul (Int 1000) (area (main_bar (self (snd (design scenario_A)))))
         = Ok n /\
       Py.truediv n (Int (st_spacing_final st)) = Ok (st_As_prov st)).
Proof.
  eexists. split; [vm_compute; reflexivity|].
  apply (flexural_steel_adopted (snd (design scenario_A)) (Float 18.375)
           "Positive Moment (Midspan)").
  vm_compute. reflexivity.
Defined.

(** A finite number between 0 and 450. *)
Lemma small_of_scaled (x : num) :
  finite_num x = true -> 0 <= scaled x <= 450 * 2 ^ 1074 ->
  small_nonneg x = true.
Proof.
  pose proof two_1074_pos as HP.
  destruct x as [z|f]; cbn [finite_num small_nonneg scaled].
  - intros _ Hz. apply andb_true_intro. split; apply Z.leb_le; nia.
  - pose proof (Prim2SF_valid f) as Hv.
    destruct (Prim2SF f) as [s|s| |s m e]; cbn [Py.is_finite_SF];
      try discriminate; [reflexivity|].
    intros _ Hz. pose proof (valid_exponent _ _ _ Hv) as He.
    assert (0 < 2 ^ (e + 1074)) by (apply Z.pow_pos_nonneg; lia).
    destruct s; cbn [Py.signed] in Hz; [nia|].
    apply Z.leb_le. destruct (Z_le_gt_dec e 0) as [|Hgt]; [assumption|].
    exfalso.
    pose proof (valid_positive_exponent _ _ _ Hv ltac:(lia)) as Hbig.
    rewrite Z.pow_add_r in Hz by lia.
    assert (450 < 2 ^ 53) by reflexivity. nia.
Qed.

Lemma SFopp_Prim2SF_nonneg_floor (v : spec_float) (k : Z) :
  Sign.nonneg v = true -> Py.SF_floor (SFopp v) = Ok k -> k <= 0.
Proof.
  destruct v as [s|s| |s m e]; cbn [Sign.nonneg SFopp Py.SF_floor];
    try discriminate.
  - intros _ H. inversion H. lia.
  - destruct s; [discriminate|]. intros _ H. apply Ok_inj in H. subst k.
    cbn [negb Py.signed]. destruct (0 <=? e) eqn:E0.
    + apply Z.leb_le in E0.
      assert (0 < 2 ^ e) by (apply Z.pow_pos_nonneg; lia).
      assert (Zneg m * 2 ^ e < 0) by (apply Z.mul_neg_pos; lia). lia.
    + apply Z.leb_gt in E0.
      assert (0 < 2 ^ (- e)) by (apply Z.pow_pos_nonneg; lia).
      assert (Zneg m / 2 ^ (- e) < 0); [|lia].
      apply Z.div_lt_upper_bound; lia.
Qed.

(** The floor of a quotient by 25 of a number below zero is not above
    zero. *)
Lemma floor_div25_negative (x : num) (k : Z) :
  finite_num x = true -> scaled x < 0 ->
  floor_div25 x = Ok k -> k <= 0.
Proof.
  pose proof two_1074_pos as HP.
  unfold floor_div25, Py.truediv.
  destruct x as [z|f]; cbn [finite_num scaled].
  - intros _ Hz. assert (z < 0) as Hneg by nia.
    unfold Py.int_truediv. change (25 =? 0) with false. cbv iota.
    assert ((z =? 0) = false) as -> by (apply Z.eqb_neq; lia).
    assert ((z <? 0) = true) as -> by (apply Z.ltb_lt; lia).
    change (25 <? 0) with false.
    set (q := SFdiv prec emax _ _).
    destruct (Py.is_inf_SF q) eqn:Einf; cbn [rbind]; [discriminate|].
    cbn [Py.floor]. intros H.
    assert (Hq : exists v, Sign.nonneg v = true /\ q = SFopp v).
    { subst q. destruct z as [|p|p]; try lia. cbn [Z.abs Z.to_pos SFdiv].
      destruct (SFdiv_core_binary prec emax (Zpos p) 0 (Zpos 25) 0)
        as [[mz ez] lz] eqn:Ecore.
      assert (Hmz : 0 <= mz).
      { unfold SFdiv_core_binary in Ecore.
        destruct (Z.div_eucl _ _) as [q0 r0] eqn:Ediv.
        inversion Ecore; subst.
        match type of Ediv with
        | Z.div_eucl ?a ?b = (?q, _) =>
            assert (q = a / b) as -> by (unfold Z.div; now rewrite Ediv);
            apply Z.div_pos; [|lia]
        end.
        match goal with
        | |- 0 <= match ?s with _ => _ end => destruct s; try lia
        end.
        apply Z.shiftl_nonneg. lia. }
      destruct (Rounding.binary_round_aux_shape (xorb true false) mz ez lz Hmz)
        as [E|[E|(m & e & E)]]; rewrite E; cbn [xorb].
      - exists (S754_zero false). split; reflexivity.
      - exists (S754_infinity false). split; reflexivity.
      - exists (S754_finite false m e). split; reflexivity. }
    destruct Hq as (v & Hv & Eq). rewrite Eq in H.
    assert (Hshape : exists v', Sign.nonneg v' = true /\
                       Prim2SF (SF2Prim (SFopp v)) = SFopp v').
    { destruct v as [s|s| |s m e]; cbn [Sign.nonneg] in Hv; try discriminate.
      - exists (S754_zero s). split; [reflexivity|].
        destruct s; reflexivity.
      - destruct s; [discriminate|]. exists (S754_infinity false).
        split; reflexivity.
      - destruct s; [discriminate|]. cbn [SFopp negb SF2Prim].
        rewrite opp_spec. eexists. split; [|reflexivity].
        unfold Z.ldexp. rewrite ldshiftexp_spec.
        apply SignFacts.SFldexp_nonneg, SignFacts.Prim2SF_of_uint63_nonneg. }
    destruct Hshape as (v' & Hv' & E'). rewrite E' in H.
    exact (SFopp_Prim2SF_nonneg_floor v' k Hv' H).
  - destruct Rounding.Prim2SF_25 as [-> E25]. cbn [Py.to_float rbind].
    rewrite E25. cbn [Py.is_zero_SF rbind Py.floor].
    rewrite div_spec, E25. unfold SF64div.
    pose proof (Prim2SF_valid f) as Hvalid.
    destruct (Prim2SF f) as [s|s| |s m e]; cbn [Py.is_finite_SF];
      try discriminate; intros _ Hz; try lia.
    pose proof (valid_exponent _ _ _ Hvalid) as He.
    assert (0 < 2 ^ (e + 1074)) by (apply Z.pow_pos_nonneg; lia).
    destruct s; cbn [Py.signed] in Hz; [|nia].
    cbn [SFdiv].
    destruct (SFdiv_core_binary prec emax (Zpos m) e (Zpos m25) (-48))
      as [[mz ez] lz] eqn:Ecore.
    assert (Hmz : 0 <= mz).
    { unfold SFdiv_core_binary in Ecore.
      destruct (Z.div_eucl _ _) as [q0 r0] eqn:Ediv.
      inversion Ecore; subst.
      match type of Ediv with
      | Z.div_eucl ?a ?b = (?q, _) =>
          assert (q = a / b) as -> by (unfold Z.div; now rewrite Ediv);
          apply Z.div_pos; [|lia]
      end.
      match goal with
      | |- 0 <= match ?s with _ => _ end => destruct s; try lia
      end.
      apply Z.shiftl_nonneg. lia. }
    destruct (Rounding.binary_round_aux_shape (xorb true false) mz ez lz Hmz)
      as [E|[E|(m3 & e3 & E)]]; rewrite E; cbn [xorb Py.SF_floor];
      intros Hfl.
    + inversion Hfl. lia.
    + discriminate.
    + apply (SFopp_Prim2SF_nonneg_floor (S754_finite false m3 e3) k eq_refl).
      exact Hfl.
Qed.

Lemma floor_div25_Ok_finite (x : num) (k : Z) :
  floor_div25 x = Ok k -> finite_num x = true.
Proof.
  destruct x as [z|f]; [reflexivity|]. intros H.
  apply floor_div25_finite in H. cbn [finite_num].
  destruct (Prim2SF f); cbn [Py.is_finite_SF]; tauto.
Qed.

(** Three times a finite thickness is never a NaN. *)
Lemma mul3_not_nan (hh h3 : num) :
  finite_num hh = true -> Py.mul (Int 3) hh = Ok h3 ->
  match h3 with
  | Int _ => True
  | Float f => Prim2SF f <> S754_nan
  end.
Proof.
  unfold Py.mul, Py.arith. destruct hh as [z|f]; cbn [finite_num].
  - intros _ H. apply Ok_inj in H. now subst h3.
  - intros Hf. change (Py.to_float (Int 3)) with (Ok 3%float).
    cbn [rbind Py.to_float]. intros H. apply Ok_inj in H. subst h3.
    rewrite mul_spec. unfold SF64mul.
    change (Prim2SF 3) with (S754_finite false 6755399441055744 (-51)).
    destruct (Prim2SF f) as [s|s| |s m e]; cbn [Py.is_finite_SF] in Hf;
      try discriminate; cbn [SFmul]; try discriminate.
    destruct (Rounding.binary_round_aux_shape (xorb false s)
                (Zpos (6755399441055744 * m)) (-51 + e) loc_Exact ltac:(lia))
      as [E|[E|(m3 & e3 & E)]]; rewrite E; discriminate.
Qed.

(** The code maximum [min(3 * h, 450)] is a number up to 450, or minus
    infinity. *)
Lemma code_max_cases (h3 : num) :
  match h3 with
  | Int _ => True
  | Float f => Prim2SF f <> S754_nan
  end ->
  let c := Py.min h3 (Int 450) in
  (finite_num c = true /\ scaled c <= 450 * 2 ^ 1074) \/
  (exists f, c = Float f /\ Prim2SF f = S754_infinity true).
Proof.
  intros Hn c. subst c. unfold Py.min.
  destruct (Py.lt (Int 450) h3) eqn:Elt.
  - left. split; [reflexivity|]. rewrite scaled_Int. lia.
  - destruct h3 as [z|f].
    + left. split; [reflexivity|].
      destruct (Z_le_gt_dec (scaled (Int z)) (scaled (Int 450))) as [H|H];
        [rewrite scaled_Int in H; exact H|].
      assert (Hlt : scaled (Int 450) < scaled (Int z)) by lia.
      apply (lt_scaled (Int 450) (Int z) eq_refl eq_refl) in Hlt. congruence.
    + destruct (Prim2SF f) as [s|s| |s m e] eqn:E; try contradiction.
      * left. assert (Hf : finite_num (Float f) = true)
          by (cbn [finite_num]; now rewrite E).
        split; [exact Hf|].
        cbn [scaled]. rewrite E. pose proof two_1074_pos. lia.
      * destruct s; [right; eauto|].
        exfalso. unfold Py.lt, Py.compare in Elt. rewrite E in Elt.
        discriminate.
      * left. assert (Hf : finite_num (Float f) = true)
          by (cbn [finite_num]; now rewrite E).
        split; [exact Hf|].
        destruct (Z_le_gt_dec (scaled (Float f)) (scaled (Int 450))) as [H|H];
          [rewrite scaled_Int in H; exact H|].
        assert (Hlt : scaled (Int 450) < scaled (Float f)) by lia.
        apply (lt_scaled (Int 450) (Float f) eq_refl Hf) in Hlt. congruence.
Qed.

Lemma lt_minus_infinity (f : float) (x : num) :
  Prim2SF f = S754_infinity true -> finite_num x = true ->
  Py.lt (Float f) x = true.
Proof.
  intros E Hx. unfold Py.lt, Py.compare. destruct x as [z|g]; rewrite E.
  - reflexivity.
  - cbn [finite_num] in Hx.
    destruct (Prim2SF g); cbn [Py.is_finite_SF] in Hx; try discriminate;
      reflexivity.
Qed.

(** The spacing that the flexural sizer floors is at most 450. *)
Lemma flexural_spacing_max_le_450 (sr h3 : num) (k : Z) :
  match h3 with
  | Int _ => True
  | Float f => Prim2SF f <> S754_nan
  end ->
  floor_div25 (Py.min sr (Py.min h3 (Int 450))) = Ok k ->
  finite_num (Py.min sr (Py.min h3 (Int 450))) = true /\
  scaled (Py.min sr (Py.min h3 (Int 450))) <= 450 * 2 ^ 1074.
Proof.
  intros Hn Hk. pose proof (floor_div25_Ok_finite _ _ Hk) as Hf.
  split; [exact Hf|].
  pose proof (code_max_cases h3 Hn) as Hc. cbv zeta in Hc.
  set (c := Py.min h3 (Int 450)) in *.
  unfold Py.min in Hf |- *. destruct (Py.lt c sr) eqn:Elt.
  - destruct Hc as [[_ Hc]|(f & Ec & Einf)]; [exact Hc|].
    rewrite Ec in Hf. cbn [finite_num] in Hf. rewrite Einf in Hf.
    discriminate.
  - destruct Hc as [[Hfc Hc]|(f & Ec & Einf)].
    + destruct (Z_le_gt_dec (scaled sr) (scaled c)) as [H|H]; [lia|].
      assert (Hlt : scaled c < scaled sr) by lia.
      apply (lt_scaled c sr Hfc Hf) in Hlt. congruence.
    + rewrite Ec in Elt. rewrite (lt_minus_infinity f sr Einf Hf) in Elt.
      discriminate.
Qed.

(** X11. For a finite thickness, every flexural design that
    calculate_required_steel returns has a final spacing between 75 and
    450 mm, within one 25 mm step of
    spacing_max = min(spacing_req, 3 * thickness, 450) from above
    (spacing_max < spacing_final + 25), and not above spacing_max once it
    exceeds the 75 mm floor: the floor to a multiple of 25 is exact under
    binary64 rounding. *)
Theorem flexural_spacing_range
    (w : world) (Mu : num) (location : string) (st : steel) (hh : num) :
  fst (calculate_required_steel Mu location w) = Ok (Some st) ->
  h (self w) = Some hh ->
  finite_num hh = true ->
  75 <= st_spacing_final st <= 450 /\
  Py.lt (st_spacing_max st) (Int (st_spacing_final st + 25)) = true /\
  (75 < st_spacing_final st ->
   Py.le (Int (st_spacing_final st)) (st_spacing_max st) = true).
Proof.
  intros H Hh Hfin.
  destruct (calculate_required_steel_Some _ _ _ _ H) as (_ & dd & Hr).
  destruct (required_steel_of_spacing _ _ _ _ _ _ _ Hr)
    as (hh' & h3 & n & k & Hh' & Hn & Hsr & H3 & Hmax & Hk & Hfinal).
  rewrite Hh in Hh'. inversion Hh'; subst hh'. clear Hh'.
  pose proof (mul3_not_nan hh h3 Hfin H3) as Hnan.
  rewrite Hmax in Hk.
  destruct (flexural_spacing_max_le_450 _ _ _ Hnan Hk) as [Hf H450].
  rewrite <- Hmax in Hk, Hf, H450.
  set (m := st_spacing_max st) in *. rewrite Hfinal.
  pose proof two_1074_pos as HP.
  destruct (Z_lt_ge_dec (scaled m) 0) as [Hneg|Hpos].
  - pose proof (floor_div25_negative m k Hf Hneg Hk) as Hk0.
    replace (Z.max 75 (k * 25)) with 75 by lia.
    split; [lia|]. split; [|lia].
    apply (lt_scaled m (Int (75 + 25)) Hf eq_refl). rewrite scaled_Int. lia.
  - pose proof (small_of_scaled m Hf ltac:(lia)) as Hs.
    destruct (floor_div25_exact m Hs) as (k' & Hk' & Hk0 & Hle & Hlt).
    assert (k' = k) by congruence. subst k'.
    pose proof Hle as Hle'. pose proof Hlt as Hlt'.
    apply (le_scaled (Int (k * 25)) m eq_refl Hf) in Hle'.
    apply (lt_scaled m (Int (k * 25 + 25)) Hf eq_refl) in Hlt'.
    rewrite scaled_Int in Hle', Hlt'.
    split; [nia|]. split.
    + apply (lt_scaled m (Int (Z.max 75 (k * 25) + 25)) Hf eq_refl).
      rewrite scaled_Int. nia.
    + intros Hgt. replace (Z.max 75 (k * 25)) with (k * 25) by lia.
      exact Hle.
Qed.

Lemma flexural_spacing_range_witness :
  exists st,
    fst (calculate_required_steel (Float 18.375) "Positive Moment (Midspan)"
           (snd (design scenario_A))) = Ok (Some st) /\
    (75 <= st_spacing_final st <= 450 /\
     Py.lt (st_spacing_max st) (Int (st_spacing_final st + 25)) = true /\
     (75 < st_spacing_final st ->
      Py.le (Int (st_spacing_final st)) (st_spacing_max st) = true)).
Proof.
  eexists. split; [vm_compute; reflexivity|].
  apply (flexural_spacing_range (snd (design scenario_A)) (Float 18.375)
           "Positive Moment (Midspan)" _ (Int 180)).
  - vm_compute. reflexivity.
  - vm_compute. reflexivity.
  - reflexivity.
Defined.

(** ** The caller in main() *)




Lemma supplied_idempotent (u : option num) : supplied (supplied u) = supplied u.
Proof.
  destruct u as [x|]; [|reflexivity]. cbn [supplied].
  destruct (Py.truthy x) eqn:E; [|reflexivity]. cbn [supplied]. now rewrite E.
Qed.

Lemma store_read_new (m : store) :
  store_read (m ++ [[]]) (List.length m) = [] /\
  forall b, (b < List.length m)%nat ->
            store_read (m ++ [[]]) b = store_read m b.
Proof.
  unfold store_read. split.
  - rewrite app_nth2 by lia. now rewrite Nat.sub_diag.
  - intros b Hb. now apply app_nth1.
Qed.



(** X13. Each calculation started from the page works on a new object, so
    the notes of its result hold nothing from earlier calculations: they
    are the single warning when the override is supplied (not blank, not
    zero) and below the computed minimum, and empty otherwise; the lists
    of earlier results are left as they were. *)
Theorem main_calculate_notes
    (clear_span_ fc fy_ density cover_ dead_load live_load_ : num)
    (support_choice main_bar_ shrinkage_bar_ : string)
    (user_thickness : option num) (m : store)
    (r : DesignResult) (w' : world) :
  main_calculate clear_span_ fc fy_ density cover_ dead_load live_load_
    support_choice main_bar_ shrinkage_bar_ user_thickness m = Ok (r, w') ->
  exists support hr,
    dict_get support_options support_choice = Some support /\
    h_rounded_of clear_span_ support = Ok hr /\
    read_notes r w' =
      match supplied user_thickness with
      | Some u => if Py.lt u (Int hr) then [WarningBelowMinimum u hr] else []
      | None => []
      end /\
    forall b, (b < List.length m)%nat ->
              store_read (mem w') b = store_read m b.
Proof.
  unfold main_calculate, dict_item.
  destruct (dict_get support_options support_choice) as [support|] eqn:Es;
    cbn [rbind]; [|discriminate].
  destruct (BarProperties_init main_bar_) as [mbar|]; cbn [rbind];
    [|discriminate].
  destruct (BarProperties_init shrinkage_bar_) as [sbar|]; cbn [rbind];
    [|discriminate].
  set (w := new_slab _ _ _ _ _ _ _ _).
  destruct (design w) as [[r0|e0] w0] eqn:Ed; [|discriminate].
  intros H. apply Ok_inj in H. inversion H; subst r0 w0. clear H.
  assert (Haddr : (notes (self w) < List.length (mem w))%nat).
  { subst w. cbn [new_slab self mem notes]. rewrite length_app. cbn. lia. }
  pose proof (design_notes_frame w Haddr) as Hn. cbv zeta in Hn.
  rewrite Ed in Hn. cbn [fst snd] in Hn.
  destruct Hn as (_ & Hread & Hother & Hres).
  specialize (Hres r eq_refl).
  assert (Hspan : clear_span (self w) = clear_span_) by reflexivity.
  assert (Hsup : support_condition (self w) = support) by reflexivity.
  assert (Huh : user_h (self w) = supplied user_thickness) by reflexivity.
  assert (Hnotes : notes (self w) = List.length m) by reflexivity.
  assert (Hmem : mem w = m ++ [[]]) by reflexivity.
  rewrite Hspan, Hsup, Huh, supplied_idempotent, Hnotes, Hmem in Hread.
  rewrite Hnotes, Hmem in Hother.
  destruct (store_read_new m) as [Hnew Hold].
  rewrite Hnew in Hread. cbn [app] in Hread.
  destruct (h_rounded_of clear_span_ support) as [hr|e1] eqn:Eh.
  - exists support, hr. split; [reflexivity|]. split; [exact Eh|].
    unfold read_notes. rewrite Hres, Hnotes. split; [exact Hread|].
    intros b Hb. rewrite (Hother b ltac:(lia)). now apply Hold.
  - exfalso.
    assert (Hd : design w = (Raise e1, w)).
    { destruct w as [s0 m0]. rewrite design_eq.
      cbn [self] in Hspan, Hsup. rewrite Hspan, Hsup, Eh. reflexivity. }
    rewrite Hd in Ed. discriminate.
Qed.

Lemma main_calculate_notes_witness :
  exists r w',
    main_calculate (Int 3500) (Float 28) (Int 420) (Float 25) (Int 20)
      (Float 1.5) (Float 3) "Simply Supported" "#13" "#13"
      (Some (Int 150)) [[WarningBelowMinimum (Int 100) 180]] = Ok (r, w') /\
    exists support hr,
      dict_get support_options "Simply Supported" = Some support /\
      h_rounded_of (Int 3500) support = Ok hr /\
      read_notes r w' =
        match supplied (Some (Int 150)) with
        | Some u => if Py.lt u (Int hr) then [WarningBelowMinimum u hr] else []
        | None => []
        end /\
      forall b, (b < List.length [[WarningBelowMinimum (Int 100) 180]])%nat ->
                store_read (mem w') b
                = store_read [[WarningBelowMinimum (Int 100) 180]] b.
Proof.
  eexists. eexists. split; [vm_compute; reflexivity|].
  apply (main_calculate_notes (Int 3500) (Float 28) (Int 420) (Float 25)
           (Int 20) (Float 1.5) (Float 3) "Simply Supported" "#13" "#13"
           (Some (Int 150)) [[WarningBelowMinimum (Int 100) 180]]).
  vm_compute. reflexivity.
Defined.

(** ** The shear tab *)

(** Whatever is at most a number below zero is below zero. *)
Lemma le_below_zero (a b : num) :
  Py.le a b = true -> Py.lt b (Int 0) = true -> Py.lt a (Int 0) = true.
Proof.
  destruct (finite_num a) eqn:Fa, (finite_num b) eqn:Fb.
  1:{ intros H1 H2.
      apply (le_scaled a b Fa Fb) in H1.
      apply (lt_scaled b (Int 0) Fb eq_refl) in H2.
      apply (lt_scaled a (Int 0) Fa eq_refl). lia. }
  all: unfold Py.le, Py.lt, Py.compare;
    destruct a as [x|f], b as [y|g]; cbn [finite_num] in Fa, Fb;
    try discriminate;
    try (destruct (Prim2SF f) as [sf|sf| |sf mf ef];
         cbn [Py.is_finite_SF] in Fa; try discriminate);
    try (destruct (Prim2SF g) as [sg|sg| |sg mg eg];
         cbn [Py.is_finite_SF] in Fb; try discriminate);
    cbn [SFcompare Py.Z_SF_compare option_map CompOpp];
    repeat match goal with
           | s : bool |- _ => destruct s
           end;
    cbn [CompOpp]; try discriminate; try (intros _ _; reflexivity).
Qed.

Lemma shear_of_fields (support : string) (span : num)
    (wopt dopt : option num) (fc : num) (sc : shear_check) :
  shear_of support span wopt dopt fc = Ok sc ->
  Py.lt (Vu sc) (Int 0) = false /\
  status sc = (if Py.le (Vu sc) (phiVc sc) then PASS else FAIL) /\
  (Py.gt (phiVc sc) (Int 0) = false -> utilization sc = Int 0).
Proof.
  unfold shear_of, utilization_of. intros H. repeat step.
  match goal with
  | H : (let '(_, _) := ?p in _) = Ok _ |- _ => destruct p as [Vc_ phiVc_]
  end.
  repeat step. cbn [Vu phiVc status utilization].
  split; [apply max_zero_not_negative|]. split; [reflexivity|].
  intros Hgt. rewrite Hgt in *. repeat step. reflexivity.
Qed.

(** X14. On the shear tab the badge is the green one exactly when
    Vu <= phi Vc.  When phi Vc is not above zero the utilization is 0, so
    the caption under the gauge reads "Safe - Low Utilization" whatever the
    badge says; and when phi Vc is below zero (an effective depth below
    zero) the badge is the red one, next to that caption. *)
Theorem shear_tab_display (w : world) (sc : shear_check) :
  fst (check_shear w) = Ok sc ->
  (badge_class (status sc) = "success-badge" <->
   Py.le (Vu sc) (phiVc sc) = true) /\
  (Py.gt (phiVc sc) (Int 0) = false ->
   utilization_caption (utilization sc) = "✅ Safe - Low Utilization") /\
  (Py.lt (phiVc sc) (Int 0) = true ->
   badge_class (status sc) = "danger-badge").
Proof.
  rewrite check_shear_eq. cbn [fst]. intros H.
  destruct (shear_of_fields _ _ _ _ _ _ H) as (Hvu & Hst & Hut).
  assert (Hbadge : badge_class (status sc)
                   = if Py.le (Vu sc) (phiVc sc)
                     then "success-badge" else "danger-badge").
  { rewrite Hst. destruct (Py.le (Vu sc) (phiVc sc)); reflexivity. }
  split; [|split].
  - rewrite Hbadge. destruct (Py.le (Vu sc) (phiVc sc)); split;
      try reflexivity; discriminate.
  - intros Hgt. rewrite (Hut Hgt). reflexivity.
  - intros Hneg. rewrite Hbadge.
    destruct (Py.le (Vu sc) (phiVc sc)) eqn:Ele; [|reflexivity].
    pose proof (le_below_zero _ _ Ele Hneg). congruence.
Qed.

Lemma shear_tab_display_witness :
  exists sc,
    fst (check_shear (snd (design scenario_D))) = Ok sc /\
    ((badge_class (status sc) = "success-badge" <->
      Py.le (Vu sc) (phiVc sc) = true) /\
     (Py.gt (phiVc sc) (Int 0) = false ->
      utilization_caption (utilization sc) = "✅ Safe - Low Utilization") /\
     (Py.lt (phiVc sc) (Int 0) = true ->
      badge_class (status sc) = "danger-badge")).
Proof.
  eexists. split; [vm_compute; reflexivity|].
  apply (shear_tab_display (snd (design scenario_D))).
  vm_compute. reflexivity.
Defined.

(** ** Methods called on their own *)

(** X15. calculate_moments has no branch for an unrecognised support
    condition: it raises nothing, leaves [self.moments] as it was and
    returns those earlier moments; for each of the four known names it
    replaces them. *)
Theorem calculate_moments_unknown_support (w : world) (wv M0 : num) :
  wu (self w) = Some wv ->
  base_moment_of wv (clear_span (self w)) = Ok M0 ->
  (~ In (support_condition (self w)) support_conditions ->
   calculate_moments w = (Ok (moments (self w)), w)) /\
  (In (support_condition (self w)) support_conditions ->
   forall ms w', calculate_moments w = (Ok ms, w') ->
     ms <> [] /\ moments (self w') = ms /\
     moments_of (support_condition (self w)) M0 = Ok (Some ms)).
Proof.
  intros Hw HM. rewrite (calculate_moments_eq w wv Hw), HM. cbn [rbind]. split.
  - intros Hn. unfold moments_of.
    cbn [support_conditions In] in Hn.
    destruct (String.eqb_spec (support_condition (self w)) "simply_supported")
      as [E|_]; [symmetry in E; tauto|].
    destruct (String.eqb_spec (support_condition (self w)) "one_end_continuous")
      as [E|_]; [symmetry in E; tauto|].
    destruct (String.eqb_spec (support_condition (self w))
                "both_ends_continuous") as [E|_]; [symmetry in E; tauto|].
    destruct (String.eqb_spec (support_condition (self w)) "cantilever")
      as [E|_]; [symmetry in E; tauto|].
    reflexivity.
  - intros Hin ms w'.
    destruct (moments_of (support_condition (self w)) M0) as [mo|e] eqn:Em;
      [|discriminate].
    destruct (moments_of_known _ _ _ Hin Em) as (ms' & -> & Hne & _).
    intros H. inversion H; subst ms' w'. cbn [self].
    split; [exact Hne|]. split; [|reflexivity].
    destruct (self w); reflexivity.
Qed.

Lemma calculate_moments_unknown_support_witness :
  let w := {| self := set_moments
                        (set_wu (self (new_slab (Int 3500) material_A loads_A
                                         "fixed" bar13 bar13 None []))
                           (Float 12))
                        [("Kept", Float 1)];
              mem := [[]] |} in
  (~ In (support_condition (self w)) support_conditions ->
   calculate_moments w = (Ok (moments (self w)), w)) /\
  (In (support_condition (self w)) support_conditions ->
   forall ms w', calculate_moments w = (Ok ms, w') ->
     ms <> [] /\ moments (self w') = ms /\
     moments_of (support_condition (self w)) (Float 147) = Ok (Some ms)).
Proof.
  apply (calculate_moments_unknown_support _ (Float 12) (Float 147)).
  - reflexivity.
  - vm_compute. reflexivity.
Defined.

(** X16. calculate_required_steel computes the effective depth only when
    [self.d] is still None, and then stores it, also when it returns None
    for a moment that is <= 0; once [self.d] is set the method changes
    nothing in the object and sizes the steel with the stored depth,
    whatever the thickness, cover and bar are by then. *)
Theorem calculate_required_steel_depth :
  (forall (w : world) (dd Mu : num) (location : string),
     d (self w) = Some dd ->
     calculate_required_steel Mu location w =
       (if Py.le Mu (Int 0) then Ok None
        else match required_steel_of (h (self w)) dd (material (self w))
                     (main_bar (self w)) Mu location with
             | Ok st => Ok (Some st)
             | Raise e => Raise e
             end, w)) /\
  (forall (w : world) (hh dd Mu : num) (location : string),
     d (self w) = None ->
     h (self w) = Some hh ->
     effective_depth_of hh (cover (material (self w)))
       (diameter (main_bar (self w))) = Ok dd ->
     calculate_required_steel Mu location w =
       (if Py.le Mu (Int 0) then Ok None
        else match required_steel_of (Some hh) dd (material (self w))
                     (main_bar (self w)) Mu location with
             | Ok st => Ok (Some st)
             | Raise e => Raise e
             end, {| self := set_d (self w) dd; mem := mem w |})).
Proof.
  split.
  - intros w dd Mu location Hd.
    exact (calculate_required_steel_eq Mu location w dd Hd).
  - intros w hh dd Mu location Hd Hh He.
    assert (Ed : d (set_d (self w) dd) = Some dd)
      by (destruct (self w); reflexivity).
    assert (Eh : h (set_d (self w) dd) = Some hh)
      by (rewrite <- Hh; destruct (self w); reflexivity).
    assert (Em : material (set_d (self w) dd) = material (self w))
      by (destruct (self w); reflexivity).
    assert (Eb : main_bar (set_d (self w) dd) = main_bar (self w))
      by (destruct (self w); reflexivity).
    unfold calculate_required_steel, bind, attr, ret. cbv beta iota.
    rewrite Hd. rewrite (calculate_effective_depth_eq w hh Hh), He.
    cbv beta iota.
    destruct (Py.le Mu (Int 0)); [reflexivity|].
    unfold need, lift. cbn [self mem]. rewrite Ed. cbv beta iota.
    cbn [self mem]. rewrite Eh, Em, Eb.
    destruct (required_steel_of _ _ _ _ _ _); reflexivity.
Qed.
